(** * csds-client: xDS relationship extraction, graph rendering and the
      status summary

    A shallow embedding of [parseXdsRelationship], [generateGraph],
    [openBrowser], [visualize] (client/util.go) and of
    [parseConfigStatus_v2], [printOutResponse_v2] (client/clientV2.go),
    with the properties of the specification stated over them. *)

From Stdlib Require Import String Ascii List ZArith Lia DecimalString OrdersEx.
From stdpp Require Import base option list gmap strings sorting.

Set Warnings "-register-all,-clear-no-such-hyp,-notation-for-abbreviation".
Local Open Scope string_scope.

(** ** Go run-time outcomes

    A Go function of the client either returns a value, returns a non-nil
    [error], or panics (a failed type assertion [x.(T)], a slice
    expression out of range).  No function of the client recovers from a
    panic, so a panic aborts every enclosing call. *)

Module Go.

Definition error := string.

Inductive outcome (A : Type) : Type :=
| Ok (a : A)
| Err (e : error)
| Panic.
Arguments Ok {A} a.
Arguments Err {A} e.
Arguments Panic {A}.

Definition bind {A B} (m : outcome A) (k : A -> outcome B) : outcome B :=
  match m with
  | Ok a => k a
  | Err e => Err e
  | Panic => Panic
  end.

(** [for _, x := range xs { s = body(x, s) }] over a slice. *)
Fixpoint forEach {A St} (body : A -> St -> outcome St) (xs : list A) (s : St)
  : outcome St :=
  match xs with
  | [] => Ok s
  | x :: xs' => bind (body x s) (forEach body xs')
  end.

(** [for idx, x := range xs { s = body(idx, x, s) }]; [i] is the index of
    the head of [xs] in the slice being ranged over. *)
Fixpoint forIdx {A St} (body : nat -> A -> St -> outcome St) (i : nat)
    (xs : list A) (s : St) : outcome St :=
  match xs with
  | [] => Ok s
  | x :: xs' => bind (body i x s) (forIdx body (S i) xs')
  end.

(** [strconv.Itoa] on a slice index (never negative). *)
Definition Itoa (n : nat) : string := NilZero.string_of_uint (Nat.to_uint n).

(** The values [encoding/json] stores in an [interface{}]: [nil], [bool],
    [float64], [string], [[]interface{}] and [map[string]interface{}].
    The client never reads a number, so its payload is kept as an integer.
    A map is kept as the list of its entries, keys pairwise distinct, in
    the order the (single) [range] statement over it visits them. *)
Inductive value : Type :=
| Nil
| Bool (b : bool)
| Number (n : Z)
| Str (s : string)
| Arr (xs : list value)
| Map (m : list (string * value)).

Definition object := list (string * value).

(** [m[k]] on a [map[string]interface{}]: [nil] when the key is absent. *)
Fixpoint index (m : object) (k : string) : value :=
  match m with
  | [] => Nil
  | (k', v) :: m' => if String.eqb k' k then v else index m' k
  end.

(** The comma-ok form [v, ok := m[k]]. *)
Fixpoint index_ok (m : object) (k : string) : option value :=
  match m with
  | [] => None
  | (k', v) :: m' => if String.eqb k' k then Some v else index_ok m' k
  end.

(** Type assertions [v.([]interface{})], [v.(map[string]interface{})] and
    [v.(string)]: each panics on any other dynamic type, [nil] included. *)
Definition asArr (v : value) : outcome (list value) :=
  match v with Arr xs => Ok xs | _ => Panic end.

Definition asMap (v : value) : outcome object :=
  match v with Map m => Ok m | _ => Panic end.

Definition asStr (v : value) : outcome string :=
  match v with Str s => Ok s | _ => Panic end.

End Go.

Export Go.

#[global] Instance outcome_bind : MBind outcome := fun A B k m => Go.bind m k.
#[global] Instance outcome_ret : MRet outcome := fun A a => Ok a.

(** ** The ordered set of github.com/emirpasic/gods

    [treeset.NewWithStringComparator] is a set kept in the order of
    [utils.StringComparator] (byte-wise lexicographic); [Add] inserts an
    element unless an equal one is present, [Values] lists the elements in
    comparator order.  The set is represented by that list. *)

Module treeset.

Definition Set_ := list string.

Definition NewWithStringComparator : Set_ := [].

Fixpoint Add (s : Set_) (x : string) : Set_ :=
  match s with
  | [] => [x]
  | y :: s' =>
      match String_as_OT.compare x y with
      | Lt => x :: y :: s'
      | Eq => y :: s'
      | Gt => y :: Add s' x
      end
  end.

Definition Values (s : Set_) : list string := s.

End treeset.

(** ** client/util.go: extraction *)

(** [struct GraphData]: [nodes] holds the three id maps (listeners,
    route tables, clusters), [relations] the two reference maps. *)
Record GraphData := {
  nodes : list (gmap string string);
  relations : list (gmap string treeset.Set_)
}.

(** The five local maps of [parseXdsRelationship]. *)
Record xdsMaps := {
  lds : gmap string string;
  rds : gmap string string;
  cds : gmap string string;
  ldsToRds : gmap string treeset.Set_;
  rdsToCds : gmap string treeset.Set_
}.

Definition emptyMaps : xdsMaps :=
  {| lds := ∅; rds := ∅; cds := ∅; ldsToRds := ∅; rdsToCds := ∅ |}.

Definition set_lds (name id : string) (st : xdsMaps) : xdsMaps :=
  {| lds := <[name := id]> (lds st); rds := rds st; cds := cds st;
     ldsToRds := ldsToRds st; rdsToCds := rdsToCds st |}.

Definition set_rds (name id : string) (st : xdsMaps) : xdsMaps :=
  {| lds := lds st; rds := <[name := id]> (rds st); cds := cds st;
     ldsToRds := ldsToRds st; rdsToCds := rdsToCds st |}.

Definition set_cds (name id : string) (st : xdsMaps) : xdsMaps :=
  {| lds := lds st; rds := rds st; cds := <[name := id]> (cds st);
     ldsToRds := ldsToRds st; rdsToCds := rdsToCds st |}.

Definition set_ldsToRds (name : string) (s : treeset.Set_) (st : xdsMaps)
  : xdsMaps :=
  {| lds := lds st; rds := rds st; cds := cds st;
     ldsToRds := <[name := s]> (ldsToRds st); rdsToCds := rdsToCds st |}.

Definition set_rdsToCds (name : string) (s : treeset.Set_) (st : xdsMaps)
  : xdsMaps :=
  {| lds := lds st; rds := rds st; cds := cds st;
     ldsToRds := ldsToRds st; rdsToCds := <[name := s]> (rdsToCds st) |}.

(** Body of [for _, filter := range filterchain["filters"]]. *)
Definition scanFilter (filter : value) (rdsSet : treeset.Set_)
  : outcome treeset.Set_ :=
  f ← asMap filter;
  typedConfig ← asMap (index f "typedConfig");
  rdsCfg ← asMap (index typedConfig "rds");
  rdsName ← asStr (index rdsCfg "routeConfigName");
  Ok (treeset.Add rdsSet rdsName).

(** Body of [for _, filterchain := range detail["filterChains"]]. *)
Definition scanFilterChain (filterchain : value) (rdsSet : treeset.Set_)
  : outcome treeset.Set_ :=
  fc ← asMap filterchain;
  filters ← asArr (index fc "filters");
  forEach scanFilter filters rdsSet.

(** Body of [for idx, listener := range listeners]. *)
Definition scanListener (idx : nat) (listener : value) (st : xdsMaps)
  : outcome xdsMaps :=
  l ← asMap listener;
  activeState ← asMap (index l "activeState");
  detail ← asMap (index activeState "listener");
  name ← asStr (index detail "name");
  let id := "LDS" ++ Itoa idx in
  let st := set_lds name id st in
  let rdsSet := treeset.NewWithStringComparator in
  filterChains ← asArr (index detail "filterChains");
  rdsSet ← forEach scanFilterChain filterChains rdsSet;
  Ok (set_ldsToRds name rdsSet st).

(** Body of [for _, cluster := range weightedClusters["clusters"]]. *)
Definition scanWeightedCluster (cluster : value) (cdsSet : treeset.Set_)
  : outcome treeset.Set_ :=
  c ← asMap cluster;
  cdsName ← asStr (index c "name");
  Ok (treeset.Add cdsSet cdsName).

(** Body of [for _, virtualRoutes := range virtualHost["routes"]]. *)
Definition scanRoute (virtualRoutes : value) (cdsSet : treeset.Set_)
  : outcome treeset.Set_ :=
  vr ← asMap virtualRoutes;
  virtualRoute ← asMap (index vr "route");
  match index_ok virtualRoute "weightedClusters" with
  | Some weightedClusters =>
      wc ← asMap weightedClusters;
      clusters ← asArr (index wc "clusters");
      forEach scanWeightedCluster clusters cdsSet
  | None =>
      cdsName ← asStr (index virtualRoute "cluster");
      Ok (treeset.Add cdsSet cdsName)
  end.

(** Body of [for _, virtualHost := range routeConfig["virtualHosts"]]. *)
Definition scanVirtualHost (virtualHost : value) (cdsSet : treeset.Set_)
  : outcome treeset.Set_ :=
  vh ← asMap virtualHost;
  routes ← asArr (index vh "routes");
  forEach scanRoute routes cdsSet.

(** Body of [for idx, route := range routes]. *)
Definition scanRouteTable (idx : nat) (route : value) (st : xdsMaps)
  : outcome xdsMaps :=
  r ← asMap route;
  routeConfig ← asMap (index r "routeConfig");
  name ← asStr (index routeConfig "name");
  let id := "RDS" ++ Itoa idx in
  let st := set_rds name id st in
  let cdsSet := treeset.NewWithStringComparator in
  virtualHosts ← asArr (index routeConfig "virtualHosts");
  cdsSet ← forEach scanVirtualHost virtualHosts cdsSet;
  Ok (set_rdsToCds name cdsSet st).

(** Body of [for idx, cluster := range clusters]. *)
Definition scanCluster (idx : nat) (cluster : value) (st : xdsMaps)
  : outcome xdsMaps :=
  c ← asMap cluster;
  detail ← asMap (index c "cluster");
  name ← asStr (index detail "name");
  let id := "CDS" ++ Itoa idx in
  Ok (set_cds name id st).

(** [for _, xs := range value.(map[string]interface{})
       { for idx, x := range xs.([]interface{}) { body } }] *)
Definition scanDump (body : nat -> value -> xdsMaps -> outcome xdsMaps)
    (v : value) (st : xdsMaps) : outcome xdsMaps :=
  dump ← asMap v;
  forEach (fun (kv : string * value) st =>
             xs ← asArr (snd kv); forIdx body 0 xs st) dump st.

(** Body of [for key, value := range xds]. *)
Definition scanField (kv : string * value) (st : xdsMaps) : outcome xdsMaps :=
  let (key, v) := kv in
  if String.eqb key "status" then Ok st
  else if String.eqb key "listenerConfig" then scanDump scanListener v st
  else if String.eqb key "routeConfig" then scanDump scanRouteTable v st
  else if String.eqb key "clusterConfig" then scanDump scanCluster v st
  else Ok st.

(** Body of [for _, xds := range configMap["xdsConfig"]]. *)
Definition scanXds (xds : value) (st : xdsMaps) : outcome xdsMaps :=
  fields ← asMap xds;
  forEach scanField fields st.

(** Body of [for _, config := range data["config"]]. *)
Definition scanConfig (config : value) (st : xdsMaps) : outcome xdsMaps :=
  configMap ← asMap config;
  xdsConfig ← asArr (index configMap "xdsConfig");
  forEach scanXds xdsConfig st.

(** [parseXdsRelationship(js)].  [decoded] is what
    [json.Unmarshal(js, &data)] produced: its error, or the decoded map
    (empty for the JSON text [null], which leaves [data] nil). *)
Definition parseXdsRelationship (decoded : error + object)
  : outcome GraphData :=
  match decoded with
  | inl err => Err err
  | inr data =>
      configs ← asArr (index data "config");
      st ← forEach scanConfig configs emptyMaps;
      Ok {| nodes := [lds st; rds st; cds st];
            relations := [ldsToRds st; rdsToCds st] |}
  end.

(** *** Snapshots built from the typed details of the data model *)

Inductive RouteAction :=
| Cluster (name : string)
| WeightedClusters (clusters : list (string * Z)).

Record FilterDetail := {
  filter_name : string;
  filter_type : string;
  filter_routeConfigName : string
}.

Record ListenerDetail := {
  listener_name : string;
  listener_filterChains : list (list FilterDetail)
}.

Record RouteTableDetail := {
  routeTable_name : string;
  routeTable_virtualHosts : list (list RouteAction)
}.

Definition json_filter (f : FilterDetail) : value :=
  Map [("name", Str (filter_name f));
       ("typedConfig",
        Map [("@type", Str (filter_type f));
             ("rds", Map [("routeConfigName",
                           Str (filter_routeConfigName f))])])].

Definition json_filterChain (fs : list FilterDetail) : value :=
  Map [("filters", Arr (map json_filter fs))].

Definition json_listener (l : ListenerDetail) : value :=
  Map [("activeState",
        Map [("listener",
              Map [("name", Str (listener_name l));
                   ("filterChains",
                    Arr (map json_filterChain (listener_filterChains l)))])])].

Definition json_weighted (c : string * Z) : value :=
  Map [("name", Str (fst c)); ("weight", Number (snd c))].

Definition json_route (a : RouteAction) : value :=
  match a with
  | Cluster c =>
      Map [("match", Map [("prefix", Str "/")]);
           ("route", Map [("cluster", Str c)])]
  | WeightedClusters cs =>
      Map [("match", Map [("prefix", Str "/")]);
           ("route",
            Map [("weightedClusters",
                  Map [("clusters", Arr (map json_weighted cs))])])]
  end.

Definition json_virtualHost (rs : list RouteAction) : value :=
  Map [("name", Str "host"); ("routes", Arr (map json_route rs))].

Definition json_routeTable (r : RouteTableDetail) : value :=
  Map [("routeConfig",
        Map [("name", Str (routeTable_name r));
             ("virtualHosts",
              Arr (map json_virtualHost (routeTable_virtualHosts r)))])].

Definition json_cluster (name : string) : value :=
  Map [("cluster", Map [("name", Str name)])].

(** One client entry with one config entry per category, each holding a
    single dynamic list. *)
Definition json_client (ls : list ListenerDetail) (rs : list RouteTableDetail)
    (cs : list string) : value :=
  Map [("node", Map [("id", Str "client")]);
       ("xdsConfig",
        Arr [Map [("status", Str "SYNCED");
                  ("listenerConfig",
                   Map [("dynamicListeners", Arr (map json_listener ls))])];
             Map [("status", Str "SYNCED");
                  ("routeConfig",
                   Map [("dynamicRouteConfigs", Arr (map json_routeTable rs))])];
             Map [("status", Str "SYNCED");
                  ("clusterConfig",
                   Map [("dynamicActiveClusters", Arr (map json_cluster cs))])]])].

Definition json_snapshot (clients : list value) : object :=
  [("config", Arr clients)].

Definition ex_listener : ListenerDetail :=
  {| listener_name := "L1";
     listener_filterChains :=
       [[ {| filter_name := "envoy.http_connection_manager";
             filter_type := "type.googleapis.com/envoy.config.filter.network.http_connection_manager.v2.HttpConnectionManager";
             filter_routeConfigName := "R1" |} ]] |}.

Definition ex_routeTable : RouteTableDetail :=
  {| routeTable_name := "R1";
     routeTable_virtualHosts :=
       [[Cluster "C1"; WeightedClusters [("B", 50%Z); ("A", 50%Z); ("C1", 1%Z)]]] |}.

(** ** client/util.go: rendering *)

(** The part of github.com/awalterschulze/gographviz that [generateGraph]
    calls.  The library is not part of the client: the renderer is
    modelled over any implementation of these operations.  A [*Graph] is
    mutated in place by the [Add] methods; here each returns the new
    graph. *)
Module gographviz.

Record API := {
  Ast : Type;
  Graph : Type;
  ParseString : string -> outcome Ast;
  NewGraph : Graph;
  Analyse : Ast -> Graph -> outcome Graph;
  AddAttr : Graph -> string -> string -> string -> outcome Graph;
  AddNode : Graph -> string -> string -> gmap string string -> outcome Graph;
  AddEdge : Graph -> string -> string -> bool -> gmap string string
            -> outcome Graph;
  String : Graph -> string
}.

End gographviz.

(** Go does not fix the order in which [range] visits a map, and the order
    may differ from one [range] statement to the next: an invocation is
    run against the order [range m] its runtime happened to use for each
    map [m], some arrangement of the entries of [m]. *)
Record MapRange := {
  range : forall V : Type, gmap string V -> list (string * V);
  range_perm : forall V (m : gmap string V), range V m ≡ₚ map_to_list m
}.
Arguments range _ {V} m.

Definition goOrder : MapRange :=
  {| range := fun V m => map_to_list m;
     range_perm := fun V m => reflexivity (R := Permutation) _ |}.

Definition dquote : string := String (ascii_of_nat 34) EmptyString.

(** The raw literal of a backslash followed by a double quote. *)
Definition esc : string := "\" ++ dquote.

Definition quoted (name : string) : string := esc ++ name ++ esc.

Definition colors : gmap string string :=
  list_to_map [("LDS", "#4285F4"); ("RDS", "#FBBC04"); ("CDS", "#34A853")].

(** [colors[key]]: the empty string for a key that is not in the map. *)
Definition colorOf (key : string) : string :=
  default EmptyString (colors !! key).

(** The slice expression [s[lo:hi]], which panics out of range. *)
Definition slice (s : string) (lo hi : nat) : outcome string :=
  if decide (lo <= hi <= String.length s)
  then Ok (substring lo (hi - lo) s) else Panic.

Definition nodeAttrs (node prefix : string) : gmap string string :=
  list_to_map
    [("label", node); ("fontcolor", "white"); ("fontname", "Roboto");
     ("shape", "box");
     ("style", esc ++ dquote ++ "filled,rounded" ++ dquote ++ esc);
     ("color", quoted (colorOf prefix));
     ("fillcolor", quoted (colorOf prefix))].

Definition edgeAttrs : gmap string string :=
  list_to_map [("penwidth", "0.3"); ("arrowsize", "0.3")].

Section Renderer.

Variable G : gographviz.API.
Variable rt : MapRange.

Import gographviz.

(** Body of [for name, node := range xDS]. *)
Definition addNode (kv : string * string) (graph : Graph G)
  : outcome (Graph G) :=
  let (name, node) := kv in
  prefix ← slice node 0 3;
  AddNode G graph "G" (quoted name) (nodeAttrs node prefix).

(** Body of [for _, dst := range set.Values()]. *)
Definition addEdge (src dst : string) (graph : Graph G) : outcome (Graph G) :=
  AddEdge G graph (quoted src) (quoted dst) true edgeAttrs.

(** Body of [for src, set := range relations]. *)
Definition addEdges (kv : string * treeset.Set_) (graph : Graph G)
  : outcome (Graph G) :=
  let (src, set) := kv in
  forEach (addEdge src) (treeset.Values set) graph.

(** The graph [digraph G {}] with [rankdir=LR]. *)
Definition newDigraph : outcome (Graph G) :=
  graphAst ← ParseString G "digraph G {}";
  graph ← Analyse G graphAst (NewGraph G);
  AddAttr G graph "G" "rankdir" "LR".

(** [generateGraph(data)] *)
Definition generateGraph (data : GraphData) : outcome string :=
  graph ← newDigraph;
  graph ← forEach (fun xDS graph => forEach addNode (range rt xDS) graph)
                  (nodes data) graph;
  graph ← forEach (fun rels graph => forEach addEdges (range rt rels) graph)
                  (relations data) graph;
  Ok (String G graph).

End Renderer.

(** *** The sequence of declarations handed to the library *)

Inductive stmt :=
| NodeStmt (name node : string)
| EdgeStmt (src dst : string).

Definition nodeStmts (rt : MapRange) (xDS : gmap string string) : list stmt :=
  map (fun kv => NodeStmt (fst kv) (snd kv)) (range rt xDS).

Definition edgeStmts (rt : MapRange) (rels : gmap string treeset.Set_)
  : list stmt :=
  flat_map (fun kv => map (EdgeStmt (fst kv)) (treeset.Values (snd kv)))
           (range rt rels).

(** Nodes of each id map, then edges of each reference map, the entries
    of a map in the order its [range] visits them and the members of a
    set in the order of [Values]. *)
Definition statements (rt : MapRange) (data : GraphData) : list stmt :=
  (flat_map (nodeStmts rt) (nodes data)
   ++ flat_map (edgeStmts rt) (relations data))%list.

Definition emit (G : gographviz.API) (s : stmt) (graph : gographviz.Graph G)
  : outcome (gographviz.Graph G) :=
  match s with
  | NodeStmt name node => addNode G (name, node) graph
  | EdgeStmt src dst => addEdge G src dst graph
  end.

(** A stand-in for the library, to run the renderer on examples: it
    accepts every declaration, keeps them in the order they were made
    and prints them in that order, one per line.  It is not gographviz,
    whose writer is not among the sources; what is proved of the
    renderer is proved for every implementation of the interface. *)
Inductive decl :=
| AttrDecl (parent field val : string)
| NodeDecl (parent name : string) (attrs : gmap string string)
| EdgeDecl (src dst : string) (directed : bool) (attrs : gmap string string).

Definition newline : string := String (ascii_of_nat 10) EmptyString.

Definition declLine (d : decl) : string :=
  match d with
  | AttrDecl _ field val => field ++ "=" ++ val ++ ";" ++ newline
  | NodeDecl _ name _ => name ++ ";" ++ newline
  | EdgeDecl src dst directed _ =>
      src ++ (if directed then "->" else "--") ++ dst ++ ";" ++ newline
  end.

Definition declLog : gographviz.API :=
  {| gographviz.Ast := string;
     gographviz.Graph := list decl;
     gographviz.ParseString := fun s => Ok s;
     gographviz.NewGraph := [];
     gographviz.Analyse := fun _ g => Ok g;
     gographviz.AddAttr := fun g parent field val =>
       Ok (g ++ [AttrDecl parent field val])%list;
     gographviz.AddNode := fun g parent name attrs =>
       Ok (g ++ [NodeDecl parent name attrs])%list;
     gographviz.AddEdge := fun g src dst directed attrs =>
       Ok (g ++ [EdgeDecl src dst directed attrs])%list;
     gographviz.String := fun g =>
       "digraph G {" ++ newline ++ String.concat EmptyString (map declLine g)
       ++ "}" ++ newline |}.

(** ** client/util.go: the viewer and the output file *)

(** What an invocation leaves behind: the files it wrote, the lines it
    printed and the viewer processes it started. *)
Record World := {
  files : gmap string string;
  stdout : list string;
  started : list (string * list string)
}.

(** The operating system as [visualize] meets it: [runtime.GOOS], the
    result of [exec.Command(name, args...).Start()], of [os.Create(name)]
    and of [f.Write(b)] (bytes written, error). *)
Record OS := {
  GOOS : string;
  Start : string -> list string -> option error;
  Create : string -> option error;
  Write : string -> string -> nat * option error
}.

Definition start (os : OS) (name : string) (args : list string) (w : World)
  : World * option error :=
  match Start os name args with
  | Some err => (w, Some err)
  | None =>
      ({| files := files w; stdout := stdout w;
          started := (started w ++ [(name, args)])%list |}, None)
  end.

(** [openBrowser(url)] *)
Definition openBrowser (os : OS) (url : string) (w : World)
  : World * option error :=
  if String.eqb (GOOS os) "linux" then start os "xdg-open" [url] w
  else if String.eqb (GOOS os) "windows" then
    start os "rundll32" ["url.dll,FileProtocolHandler"; url] w
  else if String.eqb (GOOS os) "darwin" then start os "open" [url] w
  else (w, Some "unsupported platform").

Definition writeFile (name content : string) (w : World) : World :=
  {| files := <[name := content]> (files w); stdout := stdout w;
     started := started w |}.

Definition Println (line : string) (w : World) : World :=
  {| files := files w; stdout := (stdout w ++ [(line ++ newline)%string])%list;
     started := started w |}.

(** The part of [visualize] after the graph text is known: the viewer
    unless [monitor], then the file [config_graph.dot]. *)
Definition publish (os : OS) (dot : string) (monitor : bool) (w : World)
  : World * outcome unit :=
  let (w, err) :=
    if monitor then (w, None)
    else openBrowser os ("http://dreampuf.github.io/GraphvizOnline/#" ++ dot) w
  in
  match err with
  | Some err => (w, Err err)
  | None =>
      match Create os "config_graph.dot" with
      | Some err => (w, Err err)
      | None =>
          let w := writeFile "config_graph.dot" EmptyString w in
          let (n, err) := Write os "config_graph.dot" dot in
          let w := writeFile "config_graph.dot" (substring 0 n dot) w in
          match err with
          | Some err => (w, Err err)
          | None =>
              (Println "Config graph has been saved to config_graph.dot" w,
               Ok tt)
          end
      end
  end.

(** [visualize(config, monitor)]; [decoded] as in [parseXdsRelationship]. *)
Definition visualize (G : gographviz.API) (rt : MapRange) (os : OS)
    (decoded : error + object) (monitor : bool) (w : World)
  : World * outcome unit :=
  match parseXdsRelationship decoded with
  | Err err => (w, Err err)
  | Panic => (w, Panic)
  | Ok graphData =>
      match generateGraph G rt graphData with
      | Err err => (w, Err err)
      | Panic => (w, Panic)
      | Ok dot => publish os dot monitor w
      end
  end.

(** ** client/clientV2.go: the status summary *)

(** A call [fmt.Printf(format, args...)] whose arguments are strings. *)
Inductive output := Printf (format : string) (args : list string).

Section Summarizer.

(** The generated protobuf types of go-control-plane (envoy/service/
    status/v2, envoy/admin) are not part of the client.  The enum
    [ConfigStatus] and its [String] method, and the four config dumps,
    are left open; a message is represented by what its nil-safe getters
    return, a nil message pointer or nil slice by [None]. *)
Variable ConfigStatus : Type.
Variable ConfigStatus_String : ConfigStatus -> string.
Variables ClustersConfigDump ListenersConfigDump RoutesConfigDump
  ScopedRoutesConfigDump : Type.

(** Modelled from the spec: the message type [PerXdsConfig] generated
    from csds.proto, which is not among the sources.  The spec has a
    config entry as a tagged union of the four configurations together
    with a status, at most one variant non-empty per entry and none a
    valid entry; the generated type holds the variant in the single
    [oneof] field [per_xds_config].  [GetPerXdsConfig] is that field,
    [None] when it is unset (or wraps a nil dump). *)
Inductive isPerXdsConfig_PerXdsConfig :=
| PerXdsConfig_ListenerConfig (ListenerConfig : ListenersConfigDump)
| PerXdsConfig_ClusterConfig (ClusterConfig : ClustersConfigDump)
| PerXdsConfig_RouteConfig (RouteConfig : RoutesConfigDump)
| PerXdsConfig_ScopedRouteConfig (ScopedRouteConfig : ScopedRoutesConfigDump).

Record PerXdsConfig := {
  GetStatus : ConfigStatus;
  GetPerXdsConfig : option isPerXdsConfig_PerXdsConfig
}.

(** The getters of the four variants: the dump when the [oneof] holds
    that variant, nil otherwise. *)
Definition GetClusterConfig (x : PerXdsConfig) : option ClustersConfigDump :=
  match GetPerXdsConfig x with
  | Some (PerXdsConfig_ClusterConfig d) => Some d
  | _ => None
  end.

Definition GetListenerConfig (x : PerXdsConfig) : option ListenersConfigDump :=
  match GetPerXdsConfig x with
  | Some (PerXdsConfig_ListenerConfig d) => Some d
  | _ => None
  end.

Definition GetRouteConfig (x : PerXdsConfig) : option RoutesConfigDump :=
  match GetPerXdsConfig x with
  | Some (PerXdsConfig_RouteConfig d) => Some d
  | _ => None
  end.

Definition GetScopedRouteConfig (x : PerXdsConfig)
  : option ScopedRoutesConfigDump :=
  match GetPerXdsConfig x with
  | Some (PerXdsConfig_ScopedRouteConfig d) => Some d
  | _ => None
  end.

(** [GetMetadata] is the metadata struct as the map [AsMap()] returns
    (empty for a nil struct). *)
Record Node := {
  GetId : string;
  GetMetadata : object
}.

Record ClientConfig := {
  GetNode : option Node;
  GetXdsConfig : option (list PerXdsConfig)
}.

Record ClientStatusResponse := {
  GetConfig : option (list ClientConfig)
}.

(** The [if]/[else if] chain that sets [xds]. *)
Definition xdsOf (perXdsConfig : PerXdsConfig) : string :=
  if GetClusterConfig perXdsConfig is Some _ then "CDS"
  else if GetListenerConfig perXdsConfig is Some _ then "LDS"
  else if GetRouteConfig perXdsConfig is Some _ then "RDS"
  else if GetScopedRouteConfig perXdsConfig is Some _ then "SRDS"
  else EmptyString.

(** Body of the loop of [parseConfigStatus_v2]. *)
Definition appendStatus (configStatus : list string)
    (perXdsConfig : PerXdsConfig) : list string :=
  let status := ConfigStatus_String (GetStatus perXdsConfig) in
  let xds := xdsOf perXdsConfig in
  if negb (String.eqb status EmptyString) && negb (String.eqb xds EmptyString)
  then (configStatus ++ [(xds ++ "   " ++ status)%string])%list
  else configStatus.

(** [parseConfigStatus_v2(xdsConfig)] *)
Definition parseConfigStatus_v2 (xdsConfig : list PerXdsConfig) : list string :=
  fold_left appendStatus xdsConfig [].

Definition rowFormat : string := "%-50s %-30s %-30s " ++ newline.

(** [for i := 0; i < len(configStatus); i++ { ... }] from index [i] on. *)
Fixpoint printStatus (i : nat) (configStatus : list string) : list output :=
  match configStatus with
  | [] => []
  | s :: rest =>
      (if Nat.eqb i 0 then Printf ("%-30s " ++ newline) [s]
       else Printf rowFormat [EmptyString; EmptyString; s])
      :: printStatus (S i) rest
  end.

(** The first lines of the loop body: [id] and [xdsType] of the client,
    unless the assertion [metadata["XDS_STREAM_TYPE"].(string)] panics. *)
Definition clientIdAndType (config : ClientConfig) : outcome (string * string) :=
  match GetNode config with
  | Some node =>
      match index (GetMetadata node) "XDS_STREAM_TYPE" with
      | Nil => Ok (GetId node, EmptyString)
      | v => xdsType ← asStr v; Ok (GetId node, xdsType)
      end
  | None => Ok (EmptyString, EmptyString)
  end.

(** Body of [for _, config := range response.GetConfig()]: what it
    prints, and the new value of [hasXdsConfig]. *)
Definition printClient (config : ClientConfig) (hasXdsConfig : bool)
  : list output * outcome bool :=
  match clientIdAndType config with
  | Ok (id, xdsType) =>
      match GetXdsConfig config with
      | None =>
          (if GetNode config is Some _
           then [Printf rowFormat [id; xdsType; "N/A"]] else [],
           Ok hasXdsConfig)
      | Some xdsConfig =>
          let configStatus := parseConfigStatus_v2 xdsConfig in
          ((Printf "%-50s %-30s " [id; xdsType]
            :: printStatus 0 configStatus
            ++ (if Nat.eqb (length configStatus) 0
                then [Printf newline []] else []))%list,
           Ok true)
      end
  | Err err => ([], Err err)
  | Panic => ([], Panic)
  end.

Fixpoint printClients (configs : list ClientConfig) (hasXdsConfig : bool)
  : list output * outcome bool :=
  match configs with
  | [] => ([], Ok hasXdsConfig)
  | config :: rest =>
      match printClient config hasXdsConfig with
      | (out, Ok hasXdsConfig) =>
          let (out', r) := printClients rest hasXdsConfig in
          ((out ++ out')%list, r)
      | (out, r) => (out, r)
      end
  end.

(** [ClientOptions] and [printDetailedConfig] are defined in a file of
    the client that is not among the sources read here. *)
Variable ClientOptions : Type.
Variable printDetailedConfig :
  ClientStatusResponse -> ClientOptions -> list output * outcome unit.

(** [printOutResponse_v2(response, opts)] *)
Definition printOutResponse_v2 (response : ClientStatusResponse)
    (opts : ClientOptions) : list output * outcome unit :=
  match GetConfig response with
  | None | Some [] =>
      ([Printf ("No xDS clients connected." ++ newline) []], Ok tt)
  | Some configs =>
      let header :=
        Printf rowFormat ["Client ID"; "xDS stream type"; "Config Status"] in
      match printClients configs false with
      | (out, Ok hasXdsConfig) =>
          if hasXdsConfig then
            let (out', r) := printDetailedConfig response opts in
            ((header :: out ++ out')%list, r)
          else (header :: out, Ok tt)
      | (out, Err err) => (header :: out, Err err)
      | (out, Panic) => (header :: out, Panic)
      end
  end.

End Summarizer.

Arguments GetStatus {_ _ _ _ _} _.
Arguments GetPerXdsConfig {_ _ _ _ _} _.
Arguments PerXdsConfig_ListenerConfig {_ _ _ _} _.
Arguments PerXdsConfig_ClusterConfig {_ _ _ _} _.
Arguments PerXdsConfig_RouteConfig {_ _ _ _} _.
Arguments PerXdsConfig_ScopedRouteConfig {_ _ _ _} _.
Arguments GetClusterConfig {_ _ _ _ _} _.
Arguments GetListenerConfig {_ _ _ _ _} _.
Arguments GetRouteConfig {_ _ _ _ _} _.
Arguments GetScopedRouteConfig {_ _ _ _ _} _.
Arguments GetNode {_ _ _ _ _} _.
Arguments GetXdsConfig {_ _ _ _ _} _.
Arguments GetConfig {_ _ _ _ _} _.
Arguments xdsOf {_ _ _ _ _} _.
Arguments appendStatus {_} _ {_ _ _ _} _ _.
Arguments parseConfigStatus_v2 {_} _ {_ _ _ _} _.
Arguments clientIdAndType {_ _ _ _ _} _.
Arguments printClient {_} _ {_ _ _ _} _ _.
Arguments printClients {_} _ {_ _ _ _} _ _.
Arguments printOutResponse_v2 {_} _ {_ _ _ _ _} _ _ _.

(** * Properties *)

(** ** Loops *)

Section Loops.

Context {A St : Type}.
Implicit Types (body : A -> St -> outcome St) (xs : list A) (s : St).

Lemma forEach_app body xs ys s :
  forEach body (xs ++ ys)%list s = s' ← forEach body xs s; forEach body ys s'.
Proof.
  revert s. induction xs as [|x xs IH]; intros s; simpl; [done|].
  destruct (body x s) as [s1| |]; simpl; auto.
Qed.

Lemma forEach_ext body body' xs s :
  (forall x s, body x s = body' x s) ->
  forEach body xs s = forEach body' xs s.
Proof.
  intros Heq. revert s. induction xs as [|x xs IH]; intros s; simpl; [done|].
  rewrite Heq. destruct (body' x s); simpl; auto.
Qed.

(** A loop whose body is itself a loop over [inner x] is one loop over
    the concatenation. *)
Lemma forEach_flat_map {B} (inner : B -> list A) body (ys : list B) s :
  forEach (fun y s => forEach body (inner y) s) ys s
  = forEach body (flat_map inner ys) s.
Proof.
  revert s. induction ys as [|y ys IH]; intros s; simpl; [done|].
  rewrite forEach_app. destruct (forEach body (inner y) s); simpl; auto.
Qed.

Lemma forEach_map {B} (h : B -> A) body (ys : list B) s :
  forEach body (map h ys) s = forEach (fun y => body (h y)) ys s.
Proof.
  revert s. induction ys as [|y ys IH]; intros s; simpl; [done|].
  destruct (body (h y) s); simpl; auto.
Qed.

(** A property kept by every successful run of the body is kept by the
    loop. *)
Lemma forEach_inv (P : St -> Prop) body xs s s' :
  (forall x s s', P s -> body x s = Ok s' -> P s') ->
  P s -> forEach body xs s = Ok s' -> P s'.
Proof.
  intros Hstep. revert s. induction xs as [|x xs IH]; intros s Hs; simpl.
  - by intros [= <-].
  - destruct (body x s) as [s1| |] eqn:Hb; simpl; try done.
    eauto.
Qed.

Lemma forIdx_inv (P : St -> Prop) (body : nat -> A -> St -> outcome St)
    i xs s s' :
  (forall i x s s', P s -> body i x s = Ok s' -> P s') ->
  P s -> forIdx body i xs s = Ok s' -> P s'.
Proof.
  intros Hstep. revert i s. induction xs as [|x xs IH]; intros i s Hs; simpl.
  - by intros [= <-].
  - destruct (body i x s) as [s1| |] eqn:Hb; simpl; try done.
    eauto.
Qed.

(** Loops return an error value only if their body does. *)
Lemma forEach_no_Err body xs s e :
  (forall x s e, body x s <> Err e) -> forEach body xs s <> Err e.
Proof.
  intros Hb. revert s. induction xs as [|x xs IH]; intros s; simpl; [done|].
  destruct (body x s) as [s1| |] eqn:Hx; simpl; try done.
  by destruct (Hb x s e0).
Qed.

Lemma forIdx_no_Err (body : nat -> A -> St -> outcome St) i xs s e :
  (forall i x s e, body i x s <> Err e) -> forIdx body i xs s <> Err e.
Proof.
  intros Hb. revert i s.
  induction xs as [|x xs IH]; intros i s; simpl; [done|].
  destruct (body i x s) as [s1| |] eqn:Hx; simpl; try done.
  by destruct (Hb i x s e0).
Qed.

End Loops.

(** ** The ordered set *)

Section TreeSet.

Import treeset.

Notation lt := String_as_OT.lt.

Lemma compare_Eq x y : String_as_OT.compare x y = Eq -> x = y.
Proof. intros H. by destruct (String_as_OT.compare_spec x y). Qed.

Lemma compare_Lt x y : String_as_OT.compare x y = Lt -> lt x y.
Proof. done. Qed.

Lemma compare_Gt x y : String_as_OT.compare x y = Gt -> lt y x.
Proof. intros H. by destruct (String_as_OT.compare_spec x y). Qed.

Lemma lt_irrefl x : ~ lt x x.
Proof. apply (StrictOrder_Irreflexive (R := lt)). Qed.

Lemma lt_trans x y z : lt x y -> lt y z -> lt x z.
Proof. apply (StrictOrder_Transitive (R := lt)). Qed.

(** [Add] adds its argument and nothing else. *)
Lemma elem_of_Add s x y : y ∈ Add s x <-> y = x \/ y ∈ s.
Proof.
  induction s as [|z s IH]; simpl.
  - rewrite list_elem_of_singleton. set_solver.
  - destruct (String_as_OT.compare x z) eqn:Hc.
    + apply compare_Eq in Hc as ->. set_solver.
    + set_solver.
    + rewrite !elem_of_cons, IH. tauto.
Qed.

(** [Add] keeps the members in strictly ascending order. *)
Lemma Add_sorted s x : StronglySorted lt s -> StronglySorted lt (Add s x).
Proof.
  induction 1 as [|z s Hs IH Hz]; simpl.
  - repeat constructor.
  - destruct (String_as_OT.compare x z) eqn:Hc.
    + by constructor.
    + constructor; [by constructor|].
      constructor; [done|].
      eapply Forall_impl; [exact Hz|]. intros w Hw. by eapply lt_trans.
    + constructor; [done|].
      apply Forall_forall. intros w [->|Hw]%elem_of_Add.
      * by apply compare_Gt.
      * by eapply Forall_forall in Hz.
Qed.

Lemma sorted_NoDup s : StronglySorted lt s -> NoDup s.
Proof.
  induction 1 as [|z s Hs IH Hz]; constructor; [|done].
  intros Hin. eapply Forall_forall in Hz; [|done]. by apply lt_irrefl in Hz.
Qed.

(** Adding a member again changes nothing. *)
Lemma Add_member s x : StronglySorted lt s -> x ∈ s -> Add s x = s.
Proof.
  induction 1 as [|z s Hs IH Hz]; [by intros ?%elem_of_nil|].
  intros Hin. simpl. destruct (String_as_OT.compare x z) eqn:Hc; [done| |].
  - exfalso. apply elem_of_cons in Hin as [->|Hin].
    + by apply lt_irrefl in Hc.
    + eapply Forall_forall in Hz; [|done].
      eapply lt_irrefl, lt_trans; [exact Hc|exact Hz].
  - f_equal. apply IH. apply elem_of_cons in Hin as [->|Hin]; [|done].
    apply compare_Gt in Hc. by apply lt_irrefl in Hc.
Qed.

(** Adding a list of names, one after the other. *)
Definition AddAll (s : Set_) (xs : list string) : Set_ := fold_left Add xs s.

Lemma elem_of_AddAll xs s y : y ∈ AddAll s xs <-> y ∈ s \/ y ∈ xs.
Proof.
  unfold AddAll. revert s. induction xs as [|x xs IH]; intros s; simpl.
  - set_solver.
  - rewrite IH, elem_of_Add. set_solver.
Qed.

Lemma AddAll_sorted xs s :
  StronglySorted lt s -> StronglySorted lt (AddAll s xs).
Proof.
  unfold AddAll. revert s. induction xs as [|x xs IH]; intros s Hs; simpl.
  - done.
  - by apply IH, Add_sorted.
Qed.

Lemma AddAll_app s xs ys : AddAll s (xs ++ ys)%list = AddAll (AddAll s xs) ys.
Proof. apply fold_left_app. Qed.

(** The set built from a list of names has one member per distinct
    name. *)
Lemma AddAll_length xs :
  length (Values (AddAll NewWithStringComparator xs))
  = length (remove_dups xs).
Proof.
  apply Permutation_length, NoDup_Permutation.
  - apply sorted_NoDup, AddAll_sorted. constructor.
  - apply NoDup_remove_dups.
  - intros y. unfold Values. rewrite elem_of_AddAll, elem_of_remove_dups.
    unfold NewWithStringComparator. set_solver.
Qed.

End TreeSet.

(** ** The renderer *)

(** The output obtained by handing a sequence of declarations to the
    library, one after the other. *)
Definition render (G : gographviz.API) (stmts : list stmt) : outcome string :=
  graph ← newDigraph G;
  graph ← forEach (emit G) stmts graph;
  Ok (gographviz.String G graph).

Section RendererFacts.

Variable G : gographviz.API.
Implicit Types (rt : MapRange) (data : GraphData).

Lemma forEach_nodeStmts rt xDS graph :
  forEach (emit G) (nodeStmts rt xDS) graph
  = forEach (addNode G) (range rt xDS) graph.
Proof.
  unfold nodeStmts. rewrite forEach_map.
  apply forEach_ext. by intros [name node] g.
Qed.

Lemma forEach_edgeStmts rt rels graph :
  forEach (emit G) (edgeStmts rt rels) graph
  = forEach (addEdges G) (range rt rels) graph.
Proof.
  unfold edgeStmts. rewrite <- forEach_flat_map.
  apply forEach_ext. intros [src set] g. simpl. by rewrite forEach_map.
Qed.

(** [generateGraph] hands the library exactly [statements], in order. *)
Lemma generateGraph_render rt data :
  generateGraph G rt data = render G (statements rt data).
Proof.
  unfold generateGraph, render, statements, mbind, outcome_bind.
  destruct (newDigraph G) as [graph| |]; simpl; [|done..].
  rewrite forEach_app, <- forEach_flat_map.
  rewrite (forEach_ext _ _ (nodes data) _ (forEach_nodeStmts rt)).
  unfold mbind, outcome_bind.
  destruct (forEach _ (nodes data) graph) as [graph'| |]; simpl; [|done..].
  rewrite <- forEach_flat_map.
  by rewrite (forEach_ext _ _ (relations data) _ (forEach_edgeStmts rt)).
Qed.

End RendererFacts.

(** ** Extraction: what every returned graph satisfies *)

Lemma bind_Ok {A B} (m : outcome A) (k : A -> outcome B) b :
  (m ≫= k) = Ok b -> exists a, m = Ok a /\ k a = Ok b.
Proof. destruct m as [a| |]; simpl; [eauto|done..]. Qed.

Lemma asMap_Ok v m : asMap v = Ok m -> v = Map m.
Proof. destruct v; simpl; congruence. Qed.

Lemma asArr_Ok v xs : asArr v = Ok xs -> v = Arr xs.
Proof. destruct v; simpl; congruence. Qed.

Lemma asStr_Ok v s : asStr v = Ok s -> v = Str s.
Proof. destruct v; simpl; congruence. Qed.

(** Splits a successful sequence of binds into its successful steps. *)
Ltac inv_bind H :=
  repeat match type of H with
         | (_ ≫= _) = Ok _ =>
             let a := fresh "a" in
             let Ha := fresh "Ha" in
             apply bind_Ok in H as (a & Ha & H)
         end.

(** An id of category [prefix]: the prefix followed by a decimal index. *)
Definition idOf (prefix id : string) : Prop := exists n, id = prefix ++ Itoa n.

Record wfMaps (st : xdsMaps) : Prop := {
  wf_lds : map_Forall (fun _ id => idOf "LDS" id) (lds st);
  wf_rds : map_Forall (fun _ id => idOf "RDS" id) (rds st);
  wf_cds : map_Forall (fun _ id => idOf "CDS" id) (cds st);
  wf_ldsToRds :
    map_Forall (fun _ s => StronglySorted String_as_OT.lt s) (ldsToRds st);
  wf_rdsToCds :
    map_Forall (fun _ s => StronglySorted String_as_OT.lt s) (rdsToCds st)
}.

Section Extraction.

Notation sorted := (StronglySorted String_as_OT.lt).

Lemma wfMaps_empty : wfMaps emptyMaps.
Proof. split; apply map_Forall_empty. Qed.

Lemma scanFilter_sorted f s s' : sorted s -> scanFilter f s = Ok s' -> sorted s'.
Proof.
  intros Hs H. unfold scanFilter in H. inv_bind H.
  injection H as <-. by apply Add_sorted.
Qed.

Lemma scanFilterChain_sorted fc s s' :
  sorted s -> scanFilterChain fc s = Ok s' -> sorted s'.
Proof.
  intros Hs H. unfold scanFilterChain in H. inv_bind H.
  eapply (forEach_inv sorted); [|exact Hs|exact H].
  intros ???. apply scanFilter_sorted.
Qed.

Lemma scanWeightedCluster_sorted c s s' :
  sorted s -> scanWeightedCluster c s = Ok s' -> sorted s'.
Proof.
  intros Hs H. unfold scanWeightedCluster in H. inv_bind H.
  injection H as <-. by apply Add_sorted.
Qed.

Lemma scanRoute_sorted r s s' : sorted s -> scanRoute r s = Ok s' -> sorted s'.
Proof.
  intros Hs H. unfold scanRoute in H. inv_bind H.
  destruct (index_ok _ _) as [wc|].
  - inv_bind H. eapply (forEach_inv sorted); [|exact Hs|exact H].
    intros ???. apply scanWeightedCluster_sorted.
  - inv_bind H. injection H as <-. by apply Add_sorted.
Qed.

Lemma scanVirtualHost_sorted vh s s' :
  sorted s -> scanVirtualHost vh s = Ok s' -> sorted s'.
Proof.
  intros Hs H. unfold scanVirtualHost in H. inv_bind H.
  eapply (forEach_inv sorted); [|exact Hs|exact H].
  intros ???. apply scanRoute_sorted.
Qed.

Lemma scanListener_wf idx l st st' :
  wfMaps st -> scanListener idx l st = Ok st' -> wfMaps st'.
Proof.
  intros [] H. unfold scanListener in H. inv_bind H. injection H as <-.
  split; simpl; try done.
  - apply map_Forall_insert_2; [by exists idx|done].
  - apply map_Forall_insert_2; [|done].
    eapply (forEach_inv sorted); [| |eassumption].
    + intros ???. apply scanFilterChain_sorted.
    + constructor.
Qed.

Lemma scanRouteTable_wf idx r st st' :
  wfMaps st -> scanRouteTable idx r st = Ok st' -> wfMaps st'.
Proof.
  intros [] H. unfold scanRouteTable in H. inv_bind H. injection H as <-.
  split; simpl; try done.
  - apply map_Forall_insert_2; [by exists idx|done].
  - apply map_Forall_insert_2; [|done].
    eapply (forEach_inv sorted); [| |eassumption].
    + intros ???. apply scanVirtualHost_sorted.
    + constructor.
Qed.

Lemma scanCluster_wf idx c st st' :
  wfMaps st -> scanCluster idx c st = Ok st' -> wfMaps st'.
Proof.
  intros [] H. unfold scanCluster in H. inv_bind H. injection H as <-.
  split; simpl; try done.
  apply map_Forall_insert_2; [by exists idx|done].
Qed.

Lemma scanDump_wf body v st st' :
  (forall i x st st', wfMaps st -> body i x st = Ok st' -> wfMaps st') ->
  wfMaps st -> scanDump body v st = Ok st' -> wfMaps st'.
Proof.
  intros Hbody Hst H. unfold scanDump in H. inv_bind H.
  eapply (forEach_inv wfMaps); [|exact Hst|exact H].
  intros kv s1 s2 Hs1 Hkv. simpl in Hkv. inv_bind Hkv.
  eapply (forIdx_inv wfMaps); [exact Hbody|exact Hs1|exact Hkv].
Qed.

Lemma scanField_wf kv st st' :
  wfMaps st -> scanField kv st = Ok st' -> wfMaps st'.
Proof.
  intros Hst H. destruct kv as [key v]. simpl in H.
  repeat match type of H with
         | (if ?b then _ else _) = _ => destruct b
         end.
  - by injection H as <-.
  - eapply scanDump_wf; [apply scanListener_wf|done..].
  - eapply scanDump_wf; [apply scanRouteTable_wf|done..].
  - eapply scanDump_wf; [apply scanCluster_wf|done..].
  - by injection H as <-.
Qed.

Lemma scanConfig_wf config st st' :
  wfMaps st -> scanConfig config st = Ok st' -> wfMaps st'.
Proof.
  intros Hst H. unfold scanConfig in H. inv_bind H.
  eapply (forEach_inv wfMaps); [|exact Hst|exact H].
  intros xds s1 s2 Hs1 Hx. unfold scanXds in Hx. inv_bind Hx.
  eapply (forEach_inv wfMaps); [|exact Hs1|exact Hx].
  intros ???. apply scanField_wf.
Qed.

(** Every returned graph packages five maps that satisfy [wfMaps]. *)
Lemma parseXdsRelationship_wf data g :
  parseXdsRelationship (inr data) = Ok g ->
  exists st, wfMaps st
    /\ g = {| nodes := [lds st; rds st; cds st];
              relations := [ldsToRds st; rdsToCds st] |}.
Proof.
  intros H. simpl in H. inv_bind H. injection H as <-.
  eexists; split; [|done].
  eapply (forEach_inv wfMaps); [|apply wfMaps_empty|eassumption].
  intros ???. apply scanConfig_wf.
Qed.

End Extraction.

(** The edges of one source are emitted together, in the order of
    [Values]. *)
Lemma statements_edges rt data rels src set :
  rels ∈ relations data -> rels !! src = Some set ->
  exists pre post,
    statements rt data
    = (pre ++ map (EdgeStmt src) (treeset.Values set) ++ post)%list.
Proof.
  intros Hrels Hsrc.
  assert ((src, set) ∈ range rt rels) as Hin.
  { rewrite (range_perm rt). by apply elem_of_map_to_list. }
  apply list_elem_of_split in Hrels as (r1 & r2 & Hr).
  apply list_elem_of_split in Hin as (l1 & l2 & Hl).
  assert (exists e1 e2,
            edgeStmts rt rels
            = (e1 ++ map (EdgeStmt src) (treeset.Values set) ++ e2)%list)
    as (e1 & e2 & He).
  { unfold edgeStmts. rewrite Hl, flat_map_app. simpl. by eexists _, _. }
  unfold statements. rewrite Hr, flat_map_app. simpl. rewrite He.
  remember (flat_map (nodeStmts rt) (nodes data)) as ns.
  remember (flat_map (edgeStmts rt) r1) as es1.
  remember (flat_map (edgeStmts rt) r2) as es2.
  exists (ns ++ es1 ++ e1)%list, (e2 ++ es2)%list.
  by rewrite <- !app_assoc.
Qed.

(** C7: in every graph returned by extraction, each reference set is
    strictly ascending in the byte-wise lexicographic order (hence free
    of duplicates), and the renderer emits the edges of a source in that
    order, whatever order the maps are visited in. *)
Theorem reference_sets_sorted
    (data : object) (g : GraphData) (G : gographviz.API) (rt : MapRange)
    (rels : gmap string treeset.Set_) (src : string) (set : treeset.Set_) :
  parseXdsRelationship (inr data) = Ok g ->
  rels ∈ relations g ->
  rels !! src = Some set ->
  StronglySorted String_as_OT.lt (treeset.Values set)
  /\ NoDup (treeset.Values set)
  /\ exists pre post,
       generateGraph G rt g
       = render G (pre ++ map (EdgeStmt src) (treeset.Values set) ++ post)%list.
Proof.
  intros Hparse Hrels Hsrc.
  assert (StronglySorted String_as_OT.lt set) as Hsorted.
  { apply parseXdsRelationship_wf in Hparse as (st & [] & ->). simpl in Hrels.
    apply elem_of_cons in Hrels as [->|Hrels];
      [|apply list_elem_of_singleton in Hrels as ->].
    - by eapply (wf_ldsToRds0 src).
    - by eapply (wf_rdsToCds0 src). }
  split; [done|]. split; [by apply sorted_NoDup|].
  destruct (statements_edges rt g rels src set Hrels Hsrc) as (pre & post & E).
  exists pre, post. by rewrite generateGraph_render, E.
Qed.

Definition ex_snapshot : object :=
  json_snapshot [json_client [ex_listener] [ex_routeTable] ["C1"]].

Lemma reference_sets_sorted_witness :
  exists g rels,
    parseXdsRelationship (inr ex_snapshot) = Ok g
    /\ relations g !! 1 = Some rels
    /\ rels !! "R1" = Some ["A"; "B"; "C1"]
    /\ StronglySorted String_as_OT.lt ["A"; "B"; "C1"].
Proof.
  eexists _, _. split; [reflexivity|]. split; [reflexivity|].
  split; [by vm_compute|].
  eapply (reference_sets_sorted ex_snapshot _ declLog goOrder _ "R1").
  - reflexivity.
  - apply elem_of_cons; right. apply elem_of_cons; left. reflexivity.
  - by vm_compute.
Defined.

(** ** Node ids and colours *)

Lemma slice_prefix (p rest : string) :
  String.length p = 3 -> slice (p ++ rest) 0 3 = Ok p.
Proof.
  destruct p as [|a [|b [|c [|d p]]]]; try done. intros _.
  unfold slice. destruct (decide _) as [_|Hn].
  - simpl. by destruct rest.
  - exfalso. apply Hn. simpl. lia.
Qed.

Lemma addNode_category (G : gographviz.API) p name id graph :
  String.length p = 3 -> idOf p id ->
  addNode G (name, id) graph
  = gographviz.AddNode G graph "G" (quoted name) (nodeAttrs id p).
Proof.
  intros Hp [n ->]. unfold addNode. by rewrite slice_prefix.
Qed.

(** C10: in every graph returned by extraction, the ids of the listener,
    route-table and cluster maps are "LDS", "RDS" and "CDS" followed by
    the decimal digits of an index; the renderer reads the colour off
    the first three characters of the id, so a node is declared with the
    colour of its category: #4285F4, #FBBC04 or #34A853. *)
Theorem node_ids_and_colors (data : object) (g : GraphData) :
  parseXdsRelationship (inr data) = Ok g ->
  exists ldsM rdsM cdsM,
    nodes g = [ldsM; rdsM; cdsM]
    /\ (forall name id, ldsM !! name = Some id ->
          (exists n, id = "LDS" ++ Itoa n)
          /\ slice id 0 3 = Ok "LDS"
          /\ forall G graph,
               addNode G (name, id) graph
               = gographviz.AddNode G graph "G" (quoted name)
                   (nodeAttrs id "LDS"))
    /\ (forall name id, rdsM !! name = Some id ->
          (exists n, id = "RDS" ++ Itoa n)
          /\ slice id 0 3 = Ok "RDS"
          /\ forall G graph,
               addNode G (name, id) graph
               = gographviz.AddNode G graph "G" (quoted name)
                   (nodeAttrs id "RDS"))
    /\ (forall name id, cdsM !! name = Some id ->
          (exists n, id = "CDS" ++ Itoa n)
          /\ slice id 0 3 = Ok "CDS"
          /\ forall G graph,
               addNode G (name, id) graph
               = gographviz.AddNode G graph "G" (quoted name)
                   (nodeAttrs id "CDS"))
    /\ (forall id prefix,
          nodeAttrs id prefix !! "color" = Some (quoted (colorOf prefix))
          /\ nodeAttrs id prefix !! "fillcolor" = Some (quoted (colorOf prefix)))
    /\ colorOf "LDS" = "#4285F4"
    /\ colorOf "RDS" = "#FBBC04"
    /\ colorOf "CDS" = "#34A853".
Proof.
  intros (st & [Hl Hr Hc _ _] & ->)%parseXdsRelationship_wf.
  exists (lds st), (rds st), (cds st). split; [done|].
  assert (forall p (m : gmap string string) name id,
            String.length p = 3 ->
            map_Forall (fun _ id => idOf p id) m -> m !! name = Some id ->
            (exists n, id = p ++ Itoa n) /\ slice id 0 3 = Ok p
            /\ forall G graph,
                 addNode G (name, id) graph
                 = gographviz.AddNode G graph "G" (quoted name)
                     (nodeAttrs id p)) as Hcat.
  { intros p m name id Hp Hm Hid. pose proof (Hm name id Hid) as Hof.
    split; [exact Hof|]. split.
    - destruct Hof as [n ->]. by apply slice_prefix.
    - intros G graph. by apply addNode_category. }
  split; [intros name id Hid; by apply (Hcat "LDS" (lds st))|].
  split; [intros name id Hid; by apply (Hcat "RDS" (rds st))|].
  split; [intros name id Hid; by apply (Hcat "CDS" (cds st))|].
  repeat split.
Qed.

Lemma node_ids_and_colors_witness :
  exists g ldsM,
    parseXdsRelationship (inr ex_snapshot) = Ok g
    /\ nodes g !! 0 = Some ldsM
    /\ ldsM !! "L1" = Some "LDS0"
    /\ slice "LDS0" 0 3 = Ok "LDS".
Proof.
  destruct (node_ids_and_colors ex_snapshot _ eq_refl)
    as (ldsM & rdsM & cdsM & Hn & Hl & _).
  eexists _, ldsM. split; [reflexivity|]. split; [by rewrite Hn|].
  assert (ldsM !! "L1" = Some "LDS0") as Hid.
  { injection Hn as <- _ _. by vm_compute. }
  split; [exact Hid|]. by destruct (Hl _ _ Hid) as (_ & Hs & _).
Defined.

(** ** Extraction on snapshots built from typed details *)


Section MapLoops.

Context {A B St : Type}.

Lemma forEach_map_Ok (enc : A -> B) (body : B -> St -> outcome St)
    (step : St -> A -> St) xs s :
  (forall x s, body (enc x) s = Ok (step s x)) ->
  forEach body (map enc xs) s = Ok (fold_left step xs s).
Proof.
  intros Hb. revert s. induction xs as [|x xs IH]; intros s; simpl; [done|].
  rewrite Hb. simpl. apply IH.
Qed.


End MapLoops.

Lemma fold_left_over_map {A B C} (f : C -> B -> C) (g : A -> B) xs c :
  fold_left f (map g xs) c = fold_left (fun c a => f c (g a)) xs c.
Proof.
  revert c. induction xs as [|x xs IH]; intros c; simpl; [done|]. apply IH.
Qed.

Lemma fold_left_AddAll {A} (h : A -> list string) (xss : list A) s :
  fold_left (fun s xs => AddAll s (h xs)) xss s
  = AddAll s (flat_map h xss).
Proof.
  revert s. induction xss as [|xs xss IH]; intros s; simpl; [done|].
  by rewrite IH, AddAll_app.
Qed.

(** The route-table names a listener refers to, in document order. *)
Definition listener_refs (l : ListenerDetail) : list string :=
  flat_map (map filter_routeConfigName) (listener_filterChains l).

Definition action_refs (a : RouteAction) : list string :=
  match a with
  | Cluster c => [c]
  | WeightedClusters cs => map fst cs
  end.

(** The cluster names a route table refers to, in document order. *)
Definition routeTable_refs (r : RouteTableDetail) : list string :=
  flat_map (flat_map action_refs) (routeTable_virtualHosts r).

Lemma scanFilter_json f s :
  scanFilter (json_filter f) s
  = Ok (treeset.Add s (filter_routeConfigName f)).
Proof. reflexivity. Qed.

Lemma scanFilterChain_json fs s :
  scanFilterChain (json_filterChain fs) s
  = Ok (AddAll s (map filter_routeConfigName fs)).
Proof.
  unfold scanFilterChain, json_filterChain. simpl.
  rewrite (forEach_map_Ok _ _
             (fun s f => treeset.Add s (filter_routeConfigName f)))
    by apply scanFilter_json.
  unfold AddAll. by rewrite fold_left_over_map.
Qed.

Definition stepListener (idx : nat) (l : ListenerDetail) (st : xdsMaps)
  : xdsMaps :=
  set_ldsToRds (listener_name l)
    (AddAll treeset.NewWithStringComparator (listener_refs l))
    (set_lds (listener_name l) ("LDS" ++ Itoa idx) st).

Lemma scanListener_json idx l st :
  scanListener idx (json_listener l) st = Ok (stepListener idx l st).
Proof.
  unfold scanListener, json_listener. simpl.
  rewrite (forEach_map_Ok _ _
             (fun s fs => AddAll s (map filter_routeConfigName fs)))
    by apply scanFilterChain_json.
  simpl. by rewrite fold_left_AddAll.
Qed.

Lemma scanRoute_json a s :
  scanRoute (json_route a) s = Ok (AddAll s (action_refs a)).
Proof.
  destruct a as [c|cs]; [reflexivity|].
  unfold scanRoute, json_route. simpl.
  rewrite (forEach_map_Ok _ _ (fun s c => treeset.Add s (fst c)))
    by reflexivity.
  unfold AddAll. by rewrite fold_left_over_map.
Qed.

Lemma scanVirtualHost_json rs s :
  scanVirtualHost (json_virtualHost rs) s
  = Ok (AddAll s (flat_map action_refs rs)).
Proof.
  unfold scanVirtualHost, json_virtualHost. simpl.
  rewrite (forEach_map_Ok _ _ (fun s a => AddAll s (action_refs a)))
    by apply scanRoute_json.
  by rewrite fold_left_AddAll.
Qed.

Definition stepRouteTable (idx : nat) (r : RouteTableDetail) (st : xdsMaps)
  : xdsMaps :=
  set_rdsToCds (routeTable_name r)
    (AddAll treeset.NewWithStringComparator (routeTable_refs r))
    (set_rds (routeTable_name r) ("RDS" ++ Itoa idx) st).

Lemma scanRouteTable_json idx r st :
  scanRouteTable idx (json_routeTable r) st = Ok (stepRouteTable idx r st).
Proof.
  unfold scanRouteTable, json_routeTable. simpl.
  rewrite (forEach_map_Ok _ _
             (fun s rs => AddAll s (flat_map action_refs rs)))
    by apply scanVirtualHost_json.
  simpl. by rewrite fold_left_AddAll.
Qed.



(** ** Short ids *)







(** The graph [parseXdsRelationship] returns for its five maps. *)
Definition graphOf (st : xdsMaps) : GraphData :=
  {| nodes := [lds st; rds st; cds st];
     relations := [ldsToRds st; rdsToCds st] |}.







Definition bareListener (name : string) : ListenerDetail :=
  {| listener_name := name; listener_filterChains := [] |}.





(** ** Listener scanning *)

Definition json_listenerOf (name : string) (fields : object) : value :=
  Map [("activeState", Map [("listener", Map (("name", Str name) :: fields))])].

Definition json_listenersOnly (listeners : list value) : object :=
  json_snapshot
    [Map [("xdsConfig",
           Arr [Map [("listenerConfig",
                      Map [("dynamicListeners", Arr listeners)])]])]].

(** A filter whose typed payload is a TCP proxy: it has no [rds] field. *)
Definition tcpProxyFilter : value :=
  Map [("name", Str "envoy.tcp_proxy");
       ("typedConfig",
        Map [("@type",
              Str "type.googleapis.com/envoy.config.filter.network.tcp_proxy.v2.TcpProxy");
             ("cluster", Str "C1")])].

(** An HTTP connection manager with an inline route table instead of a
    route reference. *)
Definition inlineRoutesFilter : value :=
  Map [("name", Str "envoy.http_connection_manager");
       ("typedConfig",
        Map [("@type",
              Str "type.googleapis.com/envoy.config.filter.network.http_connection_manager.v2.HttpConnectionManager");
             ("routeConfig", Map [("name", Str "inline")])])].

(** C2, as stated, fails: no filter is skipped.  A filter whose payload
    is of another type, a filter without a route reference and a
    listener without the field [filterChains] each make the extraction
    panic, so nothing is returned and the listener is not registered. *)
Lemma unrecognized_filter_panics :
  parseXdsRelationship
    (inr (json_listenersOnly
            [json_listenerOf "L1"
               [("filterChains", Arr [Map [("filters", Arr [tcpProxyFilter])]])]]))
  = Panic
  /\ parseXdsRelationship
       (inr (json_listenersOnly
               [json_listenerOf "L1"
                  [("filterChains",
                    Arr [Map [("filters", Arr [inlineRoutesFilter])]])]]))
     = Panic
  /\ parseXdsRelationship
       (inr (json_listenersOnly [json_listenerOf "L1" []])) = Panic.
Proof. repeat split; reflexivity. Qed.

Lemma listener_refs_nil l :
  Forall (fun fs => fs = []) (listener_filterChains l) -> listener_refs l = [].
Proof.
  unfold listener_refs. induction 1 as [|fs fcs -> _ IH]; simpl; done.
Qed.

(** C2 (amended): a listener whose list of filter chains is empty, or
    whose filter chains all have an empty list of filters, is scanned
    without error, is registered as a node and gets an empty reference
    set, hence no edge.  The type of a filter's payload is not looked at:
    a filter that carries a route reference contributes it whatever type
    the payload declares. *)
Theorem listener_without_filters
    (l : ListenerDetail) (idx : nat) (st : xdsMaps) :
  Forall (fun fs => fs = []) (listener_filterChains l) ->
  (exists st' set,
     scanListener idx (json_listener l) st = Ok st'
     /\ lds st' !! listener_name l = Some ("LDS" ++ Itoa idx)
     /\ ldsToRds st' !! listener_name l = Some set
     /\ treeset.Values set = []
     /\ forall rt, edgeStmts rt {[listener_name l := set]} = [])
  /\ forall f s,
       scanFilter (json_filter f) s
       = Ok (treeset.Add s (filter_routeConfigName f)).
Proof.
  intros Hl. split; [|apply scanFilter_json].
  exists (stepListener idx l st), treeset.NewWithStringComparator.
  split; [apply scanListener_json|].
  unfold stepListener. rewrite (listener_refs_nil l Hl). simpl.
  split; [by rewrite lookup_insert_eq|].
  split; [by rewrite lookup_insert_eq|].
  split; [done|].
  intros rt. unfold edgeStmts.
  pose proof (range_perm rt _
                ({[listener_name l := treeset.NewWithStringComparator]}
                 : gmap string treeset.Set_)) as Hp.
  rewrite map_to_list_singleton in Hp.
  apply Permutation_singleton_r in Hp. by rewrite Hp.
Qed.

Lemma listener_without_filters_witness :
  exists st',
    scanListener 0 (json_listener (bareListener "L1")) emptyMaps = Ok st'
    /\ lds st' !! "L1" = Some "LDS0"
    /\ ldsToRds st' !! "L1" = Some [].
Proof.
  destruct (listener_without_filters (bareListener "L1") 0 emptyMaps
              (Forall_nil_2 _))
    as ((st' & set & Hs & Hid & Hset & Hv & _) & _).
  exists st'. split; [exact Hs|]. split; [exact Hid|].
  unfold treeset.Values in Hv. rewrite Hv in Hset. exact Hset.
Defined.

(** ** Malformed snapshots *)

(** The value reached from [v] through the nested fields [ks], each step
    requiring a map; an absent key yields [nil]. *)
Fixpoint path (v : value) (ks : list string) : option value :=
  match ks with
  | [] => Some v
  | k :: ks' =>
      match v with
      | Map m => path (index m k) ks'
      | _ => None
      end
  end.

Definition hasStr (v : value) (ks : list string) : bool :=
  match path v ks with Some (Str _) => true | _ => false end.

Definition arrAt (v : value) (ks : list string) : option (list value) :=
  match path v ks with Some (Arr xs) => Some xs | _ => None end.

(** The array found at [ks] exists and all its elements pass [ok]. *)
Definition allAt (ok : value -> bool) (v : value) (ks : list string) : bool :=
  match arrAt v ks with Some xs => forallb ok xs | None => false end.

(** The nested fields the extraction expects, category by category. *)
Definition okFilter (filter : value) : bool :=
  hasStr filter ["typedConfig"; "rds"; "routeConfigName"].

Definition okFilterChain (filterchain : value) : bool :=
  allAt okFilter filterchain ["filters"].

Definition okListener (listener : value) : bool :=
  hasStr listener ["activeState"; "listener"; "name"]
  && allAt okFilterChain listener ["activeState"; "listener"; "filterChains"].

Definition okWeightedCluster (cluster : value) : bool :=
  hasStr cluster ["name"].

Definition okRoute (virtualRoutes : value) : bool :=
  match path virtualRoutes ["route"] with
  | Some (Map virtualRoute) =>
      match index_ok virtualRoute "weightedClusters" with
      | Some weightedClusters =>
          allAt okWeightedCluster weightedClusters ["clusters"]
      | None => hasStr (Map virtualRoute) ["cluster"]
      end
  | _ => false
  end.

Definition okVirtualHost (virtualHost : value) : bool :=
  allAt okRoute virtualHost ["routes"].

Definition okRouteTable (route : value) : bool :=
  hasStr route ["routeConfig"; "name"]
  && allAt okVirtualHost route ["routeConfig"; "virtualHosts"].

Definition okCluster (cluster : value) : bool :=
  hasStr cluster ["cluster"; "name"].

(** A config dump: a map all of whose values are arrays of entries. *)
Definition okDump (ok : value -> bool) (v : value) : bool :=
  match v with
  | Map dump =>
      forallb (fun kv : string * value =>
                 match kv.2 with Arr xs => forallb ok xs | _ => false end) dump
  | _ => false
  end.

Definition okField (kv : string * value) : bool :=
  let (key, v) := kv in
  if String.eqb key "status" then true
  else if String.eqb key "listenerConfig" then okDump okListener v
  else if String.eqb key "routeConfig" then okDump okRouteTable v
  else if String.eqb key "clusterConfig" then okDump okCluster v
  else true.

Definition okXds (xds : value) : bool :=
  match xds with Map fields => forallb okField fields | _ => false end.

Definition okConfig (config : value) : bool := allAt okXds config ["xdsConfig"].

(** A decoded snapshot none of whose entries lacks an expected nested
    field or has one of another shape. *)
Definition wellShaped (data : object) : bool :=
  allAt okConfig (Map data) ["config"].

(** [r] returns a value if [ok], and panics otherwise. *)
Definition decides {St} (ok : bool) (r : outcome St) : Prop :=
  if ok then exists s, r = Ok s else r = Panic.

Lemma decides_bind {A B} ok (m : outcome A) (k : A -> outcome B) ok' :
  decides ok m -> (forall a, decides ok' (k a)) ->
  decides (ok && ok') (m ≫= k).
Proof.
  destruct ok; simpl.
  - intros [a ->] Hk. apply Hk.
  - by intros -> _.
Qed.

Lemma forEach_decides {A St} (ok : A -> bool) (body : A -> St -> outcome St)
    xs s :
  (forall x s, decides (ok x) (body x s)) ->
  decides (forallb ok xs) (forEach body xs s).
Proof.
  intros Hb. revert s. induction xs as [|x xs IH]; intros s; simpl.
  - by exists s.
  - apply decides_bind; [apply Hb|]. intros s'. apply IH.
Qed.

Lemma forIdx_decides {A St} (ok : A -> bool)
    (body : nat -> A -> St -> outcome St) i xs s :
  (forall i x s, decides (ok x) (body i x s)) ->
  decides (forallb ok xs) (forIdx body i xs s).
Proof.
  intros Hb. revert i s. induction xs as [|x xs IH]; intros i s; simpl.
  - by exists s.
  - apply decides_bind; [apply Hb|]. intros s'. apply IH.
Qed.

Ltac shape :=
  unfold hasStr, arrAt, allAt, asMap, asArr, asStr, mbind, outcome_bind,
    Go.bind;
  simpl;
  repeat (case_match; simplify_eq/=; eauto).

Lemma scanFilter_decides f s : decides (okFilter f) (scanFilter f s).
Proof. unfold okFilter, scanFilter, decides. shape. Qed.

Lemma scanFilterChain_decides fc s :
  decides (okFilterChain fc) (scanFilterChain fc s).
Proof.
  unfold okFilterChain, scanFilterChain, allAt, arrAt.
  destruct fc as [| | | | |m]; try done. simpl.
  destruct (index m "filters") as [| | | |filters|]; try done. simpl.
  apply forEach_decides, scanFilter_decides.
Qed.

Lemma decides_then_Ok {A B} ok (m : outcome A) (f : A -> B) :
  decides ok m -> decides ok (a ← m; Ok (f a)).
Proof.
  destruct ok; simpl.
  - intros [a ->]. simpl. eauto.
  - by intros ->.
Qed.

(** Case analysis on the dynamic type of a decoded value. *)
Ltac by_type v := destruct v; simpl; try done.

Lemma scanListener_decides idx l st :
  decides (okListener l) (scanListener idx l st).
Proof.
  unfold okListener, scanListener, hasStr, allAt, arrAt.
  by_type l. by_type (index m "activeState"). by_type (index m0 "listener").
  by_type (index m1 "name"). by_type (index m1 "filterChains").
  apply decides_then_Ok, forEach_decides, scanFilterChain_decides.
Qed.

Lemma scanWeightedCluster_decides c s :
  decides (okWeightedCluster c) (scanWeightedCluster c s).
Proof. unfold okWeightedCluster, scanWeightedCluster, decides. shape. Qed.

Lemma scanRoute_decides r s : decides (okRoute r) (scanRoute r s).
Proof.
  unfold okRoute, scanRoute, hasStr, allAt, arrAt.
  by_type r. by_type (index m "route").
  destruct (index_ok m0 "weightedClusters") as [wc|]; simpl.
  - by_type wc. by_type (index m1 "clusters").
    apply forEach_decides, scanWeightedCluster_decides.
  - by_type (index m0 "cluster"). eauto.
Qed.

Lemma scanVirtualHost_decides vh s :
  decides (okVirtualHost vh) (scanVirtualHost vh s).
Proof.
  unfold okVirtualHost, scanVirtualHost, allAt, arrAt.
  by_type vh. by_type (index m "routes").
  apply forEach_decides, scanRoute_decides.
Qed.

Lemma scanRouteTable_decides idx r st :
  decides (okRouteTable r) (scanRouteTable idx r st).
Proof.
  unfold okRouteTable, scanRouteTable, hasStr, allAt, arrAt.
  by_type r. by_type (index m "routeConfig").
  by_type (index m0 "name"). by_type (index m0 "virtualHosts").
  apply decides_then_Ok, forEach_decides, scanVirtualHost_decides.
Qed.

Lemma scanCluster_decides idx c st :
  decides (okCluster c) (scanCluster idx c st).
Proof. unfold okCluster, scanCluster, decides. shape. Qed.

Lemma scanDump_decides ok body v st :
  (forall i x st, decides (ok x) (body i x st)) ->
  decides (okDump ok v) (scanDump body v st).
Proof.
  intros Hb. unfold okDump, scanDump. by_type v.
  apply forEach_decides. intros [k x] s. simpl. by_type x.
  by apply forIdx_decides.
Qed.

Lemma scanField_decides kv st : decides (okField kv) (scanField kv st).
Proof.
  destruct kv as [key v]. simpl.
  repeat match goal with
         | |- context [if ?b then _ else _] => destruct b
         end; simpl; eauto.
  - apply scanDump_decides, scanListener_decides.
  - apply scanDump_decides, scanRouteTable_decides.
  - apply scanDump_decides, scanCluster_decides.
Qed.

Lemma scanXds_decides xds st : decides (okXds xds) (scanXds xds st).
Proof.
  unfold okXds, scanXds. by_type xds.
  apply forEach_decides, scanField_decides.
Qed.

Lemma scanConfig_decides config st :
  decides (okConfig config) (scanConfig config st).
Proof.
  unfold okConfig, scanConfig, allAt, arrAt.
  by_type config. by_type (index m "xdsConfig").
  apply forEach_decides, scanXds_decides.
Qed.

(** Extraction returns a graph on a well-shaped snapshot and panics on
    any other. *)
Lemma parseXdsRelationship_decides data :
  decides (wellShaped data) (parseXdsRelationship (inr data)).
Proof.
  unfold wellShaped, parseXdsRelationship, allAt, arrAt. simpl.
  by_type (index data "config").
  apply decides_then_Ok, forEach_decides, scanConfig_decides.
Qed.

Definition namelessListener : value :=
  Map [("activeState",
        Map [("listener", Map [("filterChains", Arr [])])])].

(** C3, as stated, fails: on a listener entry without the field [name]
    extraction returns no error value at all, it panics. *)
Lemma missing_field_is_no_error :
  parseXdsRelationship (inr (json_listenersOnly [namelessListener])) = Panic
  /\ ~ exists err,
         parseXdsRelationship (inr (json_listenersOnly [namelessListener]))
         = Err err.
Proof. split; [reflexivity|]. by intros [err Herr]. Qed.

(** C3 (amended): on a snapshot in which some entry lacks an expected
    nested field or has a field of another shape, extraction panics at
    the failed type assertion; it returns neither an error value nor a
    GraphData, so no partial graph is returned.  The only error value
    extraction ever returns is the error of the JSON decoder. *)
Theorem malformed_snapshot_panics (data : object) :
  wellShaped data = false ->
  parseXdsRelationship (inr data) = Panic
  /\ (forall g, parseXdsRelationship (inr data) <> Ok g)
  /\ (forall err, parseXdsRelationship (inr data) <> Err err)
  /\ (forall err, parseXdsRelationship (inl err) = Err err)
  /\ (forall data' err, parseXdsRelationship (inr data') <> Err err).
Proof.
  intros Hbad. pose proof (parseXdsRelationship_decides data) as Hd.
  rewrite Hbad in Hd. unfold decides in Hd. rewrite Hd.
  repeat split; try done.
  intros data' err Herr. pose proof (parseXdsRelationship_decides data') as Hd'.
  rewrite Herr in Hd'. unfold decides in Hd'.
  destruct (wellShaped data'); [by destruct Hd'|done].
Qed.

Lemma malformed_snapshot_panics_witness :
  wellShaped (json_listenersOnly [namelessListener]) = false
  /\ parseXdsRelationship (inr (json_listenersOnly [namelessListener])) = Panic.
Proof.
  split; [reflexivity|].
  apply (malformed_snapshot_panics (json_listenersOnly [namelessListener])).
  reflexivity.
Defined.

(** Conversely, a well-shaped snapshot always yields a graph. *)
Lemma wellShaped_snapshot_returns data :
  wellShaped data = true -> exists g, parseXdsRelationship (inr data) = Ok g.
Proof.
  intros Hok. pose proof (parseXdsRelationship_decides data) as Hd.
  by rewrite Hok in Hd.
Qed.

(** ** What a snapshot reports

    A second reading of a decoded snapshot, by field paths instead of
    the nested loops of [parseXdsRelationship]: the list of the
    listeners, route tables and clusters it reports, each with its
    position in its list and the names it refers to.  It is defined for
    every decoded value; [parseXdsRelationship_reports] below compares
    it with the extraction, loop by loop. *)

(** [m[k] = v] for each entry in turn. *)
Definition insertAll {V} (es : list (string * V)) (m : gmap string V)
  : gmap string V :=
  fold_left (fun m e => <[e.1 := e.2]> m) es m.

Section InsertAll.

Context {V : Type}.
Implicit Types (es : list (string * V)) (m : gmap string V).

Lemma insertAll_app es1 es2 m :
  insertAll (es1 ++ es2)%list m = insertAll es2 (insertAll es1 m).
Proof. apply fold_left_app. Qed.

Lemma insertAll_cons k v es m :
  insertAll ((k, v) :: es) m = insertAll es (<[k := v]> m).
Proof. reflexivity. Qed.

Lemma insertAll_notin es m k : k ∉ es.*1 -> insertAll es m !! k = m !! k.
Proof.
  revert m. induction es as [|[k' v] es IH]; intros m Hk; [done|].
  rewrite fmap_cons in Hk. apply not_elem_of_cons in Hk as [Hne Hk].
  rewrite insertAll_cons, IH by done. by rewrite lookup_insert_ne.
Qed.

(** The last entry written for a key is the one that stays. *)
Lemma insertAll_last es k v es' m :
  k ∉ es'.*1 -> insertAll (es ++ (k, v) :: es')%list m !! k = Some v.
Proof.
  intros Hk. rewrite insertAll_app, insertAll_cons.
  rewrite insertAll_notin by done. by rewrite lookup_insert_eq.
Qed.

Lemma insertAll_lookup_Some es m k v :
  insertAll es m !! k = Some v -> (k, v) ∈ es \/ m !! k = Some v.
Proof.
  revert m. induction es as [|[k' v'] es IH]; intros m; [by right|].
  rewrite insertAll_cons. intros [Hin|Hm]%IH; [left; by right|].
  destruct (decide (k' = k)) as [->|Hne].
  - rewrite lookup_insert_eq in Hm. injection Hm as ->. left; by left.
  - rewrite lookup_insert_ne in Hm by done. by right.
Qed.

Lemma dom_insertAll es m :
  dom (insertAll es m) = list_to_set es.*1 ∪ dom m.
Proof.
  revert m. induction es as [|[k v] es IH]; intros m.
  - set_solver.
  - rewrite insertAll_cons, IH, dom_insert_L. set_solver.
Qed.

Lemma insertAll_NoDup es m k v :
  NoDup es.*1 -> (k, v) ∈ es -> insertAll es m !! k = Some v.
Proof.
  intros Hnd (es1 & es2 & ->)%list_elem_of_split.
  apply insertAll_last.
  rewrite fmap_app, fmap_cons in Hnd.
  apply NoDup_app in Hnd as (_ & _ & Hnd). by apply NoDup_cons in Hnd as [? _].
Qed.

End InsertAll.

Lemma insertAll_Permutation {V} (es es' : list (string * V))
    (m : gmap string V) :
  NoDup es.*1 -> es ≡ₚ es' -> insertAll es m = insertAll es' m.
Proof.
  intros Hnd Hp. assert (NoDup es'.*1) as Hnd' by by rewrite <- Hp.
  apply map_eq. intros k.
  destruct (decide (k ∈ es.*1)) as [Hk|Hk].
  - apply list_elem_of_fmap in Hk as ([k' v] & -> & Hin). simpl.
    rewrite (insertAll_NoDup es m k' v) by done.
    rewrite (insertAll_NoDup es' m k' v); [done..|]. by rewrite <- Hp.
  - rewrite insertAll_notin by done.
    rewrite insertAll_notin; [done|]. by rewrite <- Hp.
Qed.


(** The string found at [ks]. *)
Definition strAt (v : value) (ks : list string) : option string :=
  match path v ks with Some (Str s) => Some s | _ => None end.

(** What the elements of a list yield, one after the other; nothing when
    some element yields nothing. *)
Fixpoint collect {A X} (dec : A -> option (list X)) (xs : list A)
  : option (list X) :=
  match xs with
  | [] => Some []
  | x :: xs' => r ← dec x; rs ← collect dec xs'; Some (r ++ rs)%list
  end.

(** The same with the position of each element, counted from [i]. *)
Fixpoint collectIdx {A X} (dec : nat -> A -> option (list X)) (i : nat)
    (xs : list A) : option (list X) :=
  match xs with
  | [] => Some []
  | x :: xs' =>
      r ← dec i x; rs ← collectIdx dec (S i) xs'; Some (r ++ rs)%list
  end.

(** The route table a filter refers to. *)
Definition filterRefs (filter : value) : option (list string) :=
  rdsName ← strAt filter ["typedConfig"; "rds"; "routeConfigName"];
  Some [rdsName].

Definition chainRefs (filterchain : value) : option (list string) :=
  filters ← arrAt filterchain ["filters"]; collect filterRefs filters.

(** The route tables a listener refers to, in document order. *)
Definition listenerRefs (listener : value) : option (list string) :=
  filterChains ← arrAt listener ["activeState"; "listener"; "filterChains"];
  collect chainRefs filterChains.

(** The action of a route as far as extraction reads it: the name of a
    single cluster, or the names of a weighted-cluster set. *)
Inductive action :=
| SingleCluster (name : string)
| WeightedSet (names : list string).

Definition namesOf (a : action) : list string :=
  match a with
  | SingleCluster name => [name]
  | WeightedSet names => names
  end.

Definition weightedRefs (cluster : value) : option (list string) :=
  cdsName ← strAt cluster ["name"]; Some [cdsName].

(** A route has the field [route]; its action is a weighted-cluster set
    if the key [weightedClusters] is present, a single cluster
    otherwise. *)
Definition routeAction (virtualRoutes : value) : option action :=
  match path virtualRoutes ["route"] with
  | Some (Map virtualRoute) =>
      match index_ok virtualRoute "weightedClusters" with
      | Some weightedClusters =>
          clusters ← arrAt weightedClusters ["clusters"];
          names ← collect weightedRefs clusters;
          Some (WeightedSet names)
      | None =>
          cdsName ← strAt (Map virtualRoute) ["cluster"];
          Some (SingleCluster cdsName)
      end
  | _ => None
  end.

Definition routeRefs (virtualRoutes : value) : option (list string) :=
  namesOf <$> routeAction virtualRoutes.

Definition hostRefs (virtualHost : value) : option (list string) :=
  routes ← arrAt virtualHost ["routes"]; collect routeRefs routes.

(** The clusters a route table refers to, in document order. *)
Definition routeTableRefs (route : value) : option (list string) :=
  virtualHosts ← arrAt route ["routeConfig"; "virtualHosts"];
  collect hostRefs virtualHosts.

(** One entry of a list of a config dump: its position in that list, its
    name and, for a listener and a route table, the names it refers
    to. *)
Inductive report :=
| ListenerReport (idx : nat) (name : string) (refs : list string)
| RouteTableReport (idx : nat) (name : string) (refs : list string)
| ClusterReport (idx : nat) (name : string).

Definition listenerReport (idx : nat) (listener : value)
  : option (list report) :=
  name ← strAt listener ["activeState"; "listener"; "name"];
  refs ← listenerRefs listener;
  Some [ListenerReport idx name refs].

Definition routeTableReport (idx : nat) (route : value)
  : option (list report) :=
  name ← strAt route ["routeConfig"; "name"];
  refs ← routeTableRefs route;
  Some [RouteTableReport idx name refs].

Definition clusterReport (idx : nat) (cluster : value)
  : option (list report) :=
  name ← strAt cluster ["cluster"; "name"];
  Some [ClusterReport idx name].

(** The entries of one list of a dump, numbered from 0. *)
Definition listReports (dec : nat -> value -> option (list report))
    (kv : string * value) : option (list report) :=
  match kv.2 with Arr xs => collectIdx dec 0 xs | _ => None end.

(** The entries of the lists of a dump, list after list in the order
    the lists are visited. *)
Definition dumpReports (dec : nat -> value -> option (list report))
    (v : value) : option (list report) :=
  match v with Map dump => collect (listReports dec) dump | _ => None end.

Definition fieldReports (kv : string * value) : option (list report) :=
  let (key, v) := kv in
  if String.eqb key "listenerConfig" then dumpReports listenerReport v
  else if String.eqb key "routeConfig" then dumpReports routeTableReport v
  else if String.eqb key "clusterConfig" then dumpReports clusterReport v
  else Some [].

Definition xdsReports (xds : value) : option (list report) :=
  match xds with Map fields => collect fieldReports fields | _ => None end.

Definition configReports (config : value) : option (list report) :=
  xdsConfig ← arrAt config ["xdsConfig"]; collect xdsReports xdsConfig.

(** Everything a snapshot reports, in the order of the scan: client
    entry after client entry, config entry after config entry, the
    fields of a config entry and the lists of a dump in the order
    [range] visits them, the entries of a list in list order.  Nothing
    when some entry lacks a field extraction reads. *)
Definition snapshotReports (data : object) : option (list report) :=
  configs ← arrAt (Map data) ["config"]; collect configReports configs.

(** The listeners, route tables and clusters among the reports. *)
Definition listenersOf (rs : list report)
  : list (nat * (string * list string)) :=
  omap (fun r => match r with
                 | ListenerReport idx name refs => Some (idx, (name, refs))
                 | _ => None
                 end) rs.

Definition routeTablesOf (rs : list report)
  : list (nat * (string * list string)) :=
  omap (fun r => match r with
                 | RouteTableReport idx name refs => Some (idx, (name, refs))
                 | _ => None
                 end) rs.

Definition clustersOf (rs : list report) : list (nat * string) :=
  omap (fun r => match r with
                 | ClusterReport idx name => Some (idx, name)
                 | _ => None
                 end) rs.

(** Name and references of each reported listener (route table), and the
    name of each reported cluster, in scan order. *)
Definition reportedListeners (rs : list report)
  : list (string * list string) :=
  (listenersOf rs).*2.

Definition reportedRouteTables (rs : list report)
  : list (string * list string) :=
  (routeTablesOf rs).*2.

Definition reportedClusters (rs : list report) : list string :=
  (clustersOf rs).*2.

(** What the loop body of a category does with one report. *)
Definition applyReport (st : xdsMaps) (r : report) : xdsMaps :=
  match r with
  | ListenerReport idx name refs =>
      set_ldsToRds name (AddAll treeset.NewWithStringComparator refs)
        (set_lds name ("LDS" ++ Itoa idx) st)
  | RouteTableReport idx name refs =>
      set_rdsToCds name (AddAll treeset.NewWithStringComparator refs)
        (set_rds name ("RDS" ++ Itoa idx) st)
  | ClusterReport idx name => set_cds name ("CDS" ++ Itoa idx) st
  end.

(** A loop body that does to the state what its element yields, and
    panics when the element yields nothing. *)
Definition follows {X St} (d : option (list X)) (step : St -> X -> St)
    (s : St) (r : outcome St) : Prop :=
  r = match d with Some xs => Ok (fold_left step xs s) | None => Panic end.

Section Follows.

Context {A X St : Type}.
Variable step : St -> X -> St.

Lemma forEach_follows (dec : A -> option (list X))
    (body : A -> St -> outcome St) xs s :
  (forall x s, follows (dec x) step s (body x s)) ->
  follows (collect dec xs) step s (forEach body xs s).
Proof.
  unfold follows. intros Hb. revert s.
  induction xs as [|x xs IH]; intros s; simpl; [done|].
  rewrite Hb. destruct (dec x) as [r|]; simpl; [|done].
  rewrite IH. destruct (collect dec xs) as [rs|]; simpl; [|done].
  by rewrite fold_left_app.
Qed.

Lemma forIdx_follows (dec : nat -> A -> option (list X))
    (body : nat -> A -> St -> outcome St) i xs s :
  (forall i x s, follows (dec i x) step s (body i x s)) ->
  follows (collectIdx dec i xs) step s (forIdx body i xs s).
Proof.
  unfold follows. intros Hb. revert i s.
  induction xs as [|x xs IH]; intros i s; simpl; [done|].
  rewrite Hb. destruct (dec i x) as [r|]; simpl; [|done].
  rewrite IH. destruct (collectIdx dec (S i) xs) as [rs|]; simpl; [|done].
  by rewrite fold_left_app.
Qed.

Lemma elem_of_collect (dec : A -> option (list X)) xs ys y :
  collect dec xs = Some ys ->
  y ∈ ys <-> exists x r, x ∈ xs /\ dec x = Some r /\ y ∈ r.
Proof.
  revert ys. induction xs as [|x xs IH]; intros ys; simpl.
  - intros [= <-]. split; [by intros ?%elem_of_nil|].
    by intros (? & ? & ?%elem_of_nil & _).
  - destruct (dec x) as [r|] eqn:Hx; simpl; [|done].
    destruct (collect dec xs) as [rs|]; simpl; [|done].
    intros [= <-]. rewrite elem_of_app, (IH rs eq_refl). split.
    + intros [Hy|(x' & r' & Hx' & Hr' & Hy)].
      * exists x, r. split; [by left|done].
      * exists x', r'. split; [by right|done].
    + intros (x' & r' & Hx' & Hr' & Hy).
      apply elem_of_cons in Hx' as [->|Hx'].
      * left. congruence.
      * right. by exists x', r'.
Qed.

Lemma collect_is_Some (dec : A -> option (list X)) xs ys x :
  collect dec xs = Some ys -> x ∈ xs -> is_Some (dec x).
Proof.
  revert ys. induction xs as [|x' xs IH]; intros ys Hys Hx;
    [by apply elem_of_nil in Hx|].
  simpl in Hys. destruct (dec x') as [r|] eqn:Hr; [|done]. simpl in Hys.
  destruct (collect dec xs) as [rs|]; [|done].
  apply elem_of_cons in Hx as [->|Hx]; [by eexists|]. by eapply IH.
Qed.

End Follows.

(** *** Each loop body follows what its element reports *)

Lemma scanFilter_follows f s :
  follows (filterRefs f) treeset.Add s (scanFilter f s).
Proof.
  unfold follows, scanFilter, filterRefs, strAt.
  by_type f. by_type (index m "typedConfig"). by_type (index m0 "rds").
  by_type (index m1 "routeConfigName").
Qed.

Lemma scanFilterChain_follows fc s :
  follows (chainRefs fc) treeset.Add s (scanFilterChain fc s).
Proof.
  unfold scanFilterChain, chainRefs, arrAt.
  by_type fc. by_type (index m "filters").
  apply forEach_follows, scanFilter_follows.
Qed.

Lemma scanWeightedCluster_follows c s :
  follows (weightedRefs c) treeset.Add s (scanWeightedCluster c s).
Proof.
  unfold follows, scanWeightedCluster, weightedRefs, strAt.
  by_type c. by_type (index m "name").
Qed.

Lemma scanRoute_follows r s :
  follows (routeRefs r) treeset.Add s (scanRoute r s).
Proof.
  unfold scanRoute, routeRefs, routeAction, arrAt, strAt.
  by_type r. by_type (index m "route").
  destruct (index_ok m0 "weightedClusters") as [wc|]; simpl.
  - by_type wc. by_type (index m1 "clusters").
    pose proof (forEach_follows treeset.Add weightedRefs scanWeightedCluster
                  xs s scanWeightedCluster_follows) as H.
    unfold follows in *. rewrite H.
    by destruct (collect weightedRefs xs).
  - by_type (index m0 "cluster").
Qed.

Lemma scanVirtualHost_follows vh s :
  follows (hostRefs vh) treeset.Add s (scanVirtualHost vh s).
Proof.
  unfold scanVirtualHost, hostRefs, arrAt.
  by_type vh. by_type (index m "routes").
  apply forEach_follows, scanRoute_follows.
Qed.

Lemma scanListener_follows idx l st :
  follows (listenerReport idx l) applyReport st (scanListener idx l st).
Proof.
  unfold scanListener, listenerReport, listenerRefs, strAt, arrAt.
  by_type l. by_type (index m "activeState"). by_type (index m0 "listener").
  by_type (index m1 "name"). by_type (index m1 "filterChains").
  pose proof (forEach_follows treeset.Add chainRefs scanFilterChain xs
                treeset.NewWithStringComparator scanFilterChain_follows) as H.
  unfold follows in *. rewrite H.
  by destruct (collect chainRefs xs).
Qed.

Lemma scanRouteTable_follows idx r st :
  follows (routeTableReport idx r) applyReport st (scanRouteTable idx r st).
Proof.
  unfold scanRouteTable, routeTableReport, routeTableRefs, strAt, arrAt.
  by_type r. by_type (index m "routeConfig").
  by_type (index m0 "name"). by_type (index m0 "virtualHosts").
  pose proof (forEach_follows treeset.Add hostRefs scanVirtualHost xs
                treeset.NewWithStringComparator scanVirtualHost_follows) as H.
  unfold follows in *. rewrite H.
  by destruct (collect hostRefs xs).
Qed.

Lemma scanCluster_follows idx c st :
  follows (clusterReport idx c) applyReport st (scanCluster idx c st).
Proof.
  unfold follows, scanCluster, clusterReport, strAt.
  by_type c. by_type (index m "cluster"). by_type (index m0 "name").
Qed.

Lemma scanDump_follows dec body v st :
  (forall i x st, follows (dec i x) applyReport st (body i x st)) ->
  follows (dumpReports dec v) applyReport st (scanDump body v st).
Proof.
  intros Hb. unfold scanDump, dumpReports. by_type v.
  apply forEach_follows. intros [k x] s. unfold listReports. simpl.
  by_type x. by apply forIdx_follows.
Qed.

Lemma scanField_follows kv st :
  follows (fieldReports kv) applyReport st (scanField kv st).
Proof.
  destruct kv as [key v]. simpl.
  destruct (String.eqb_spec key "status") as [->|_]; [done|].
  destruct (String.eqb key "listenerConfig");
    [apply scanDump_follows, scanListener_follows|].
  destruct (String.eqb key "routeConfig");
    [apply scanDump_follows, scanRouteTable_follows|].
  destruct (String.eqb key "clusterConfig");
    [apply scanDump_follows, scanCluster_follows|].
  done.
Qed.

Lemma scanXds_follows xds st :
  follows (xdsReports xds) applyReport st (scanXds xds st).
Proof.
  unfold scanXds, xdsReports. by_type xds.
  apply forEach_follows, scanField_follows.
Qed.

Lemma scanConfig_follows config st :
  follows (configReports config) applyReport st (scanConfig config st).
Proof.
  unfold scanConfig, configReports, arrAt.
  by_type config. by_type (index m "xdsConfig").
  apply forEach_follows, scanXds_follows.
Qed.

(** Extraction returns the graph of the five maps obtained by taking the
    reports of the snapshot in scan order, and panics on a snapshot that
    has an entry without report. *)
Lemma parseXdsRelationship_reports data :
  parseXdsRelationship (inr data)
  = match snapshotReports data with
    | Some rs => Ok (graphOf (fold_left applyReport rs emptyMaps))
    | None => Panic
    end.
Proof.
  unfold parseXdsRelationship, snapshotReports, arrAt. simpl.
  by_type (index data "config").
  pose proof (forEach_follows applyReport configReports scanConfig xs
                emptyMaps scanConfig_follows) as H.
  unfold follows in H. rewrite H.
  by destruct (collect configReports xs).
Qed.

(** *** The five maps after a sequence of reports *)

Definition listenerId (e : nat * (string * list string)) : string * string :=
  (e.2.1, "LDS" ++ Itoa e.1).

Definition routeTableId (e : nat * (string * list string)) : string * string :=
  (e.2.1, "RDS" ++ Itoa e.1).

Definition clusterId (e : nat * string) : string * string :=
  (e.2, "CDS" ++ Itoa e.1).

(** The set stored for a reported listener or route table. *)
Definition referenceSet (e : string * list string) : string * treeset.Set_ :=
  (e.1, AddAll treeset.NewWithStringComparator e.2).

Lemma applyReports_maps rs st :
  let st' := fold_left applyReport rs st in
  lds st' = insertAll (map listenerId (listenersOf rs)) (lds st)
  /\ rds st' = insertAll (map routeTableId (routeTablesOf rs)) (rds st)
  /\ cds st' = insertAll (map clusterId (clustersOf rs)) (cds st)
  /\ ldsToRds st'
     = insertAll (map referenceSet (reportedListeners rs)) (ldsToRds st)
  /\ rdsToCds st'
     = insertAll (map referenceSet (reportedRouteTables rs)) (rdsToCds st).
Proof.
  revert st. induction rs as [|r rs IH]; intros st; [done|].
  destruct (IH (applyReport st r)) as (H1 & H2 & H3 & H4 & H5).
  simpl. rewrite H1, H2, H3, H4, H5. by destruct r.
Qed.

Lemma elem_of_listenersOf rs idx name refs :
  (idx, (name, refs)) ∈ listenersOf rs <-> ListenerReport idx name refs ∈ rs.
Proof.
  unfold listenersOf. rewrite list_elem_of_omap. split.
  - intros ([] & Hin & [=]); by subst.
  - intros Hin. by eexists.
Qed.

Lemma elem_of_routeTablesOf rs idx name refs :
  (idx, (name, refs)) ∈ routeTablesOf rs
  <-> RouteTableReport idx name refs ∈ rs.
Proof.
  unfold routeTablesOf. rewrite list_elem_of_omap. split.
  - intros ([] & Hin & [=]); by subst.
  - intros Hin. by eexists.
Qed.

Lemma elem_of_clustersOf rs idx name :
  (idx, name) ∈ clustersOf rs <-> ClusterReport idx name ∈ rs.
Proof.
  unfold clustersOf. rewrite list_elem_of_omap. split.
  - intros ([] & Hin & [=]); by subst.
  - intros Hin. by eexists.
Qed.

Lemma elem_of_reportedListeners rs name refs :
  (name, refs) ∈ reportedListeners rs
  <-> exists idx, ListenerReport idx name refs ∈ rs.
Proof.
  unfold reportedListeners. rewrite list_elem_of_fmap. split.
  - intros ([idx [n r]] & [= -> ->] & Hin). exists idx.
    by apply elem_of_listenersOf.
  - intros [idx Hin]. exists (idx, (name, refs)). split; [done|].
    by apply elem_of_listenersOf.
Qed.

Lemma elem_of_reportedRouteTables rs name refs :
  (name, refs) ∈ reportedRouteTables rs
  <-> exists idx, RouteTableReport idx name refs ∈ rs.
Proof.
  unfold reportedRouteTables. rewrite list_elem_of_fmap. split.
  - intros ([idx [n r]] & [= -> ->] & Hin). exists idx.
    by apply elem_of_routeTablesOf.
  - intros [idx Hin]. exists (idx, (name, refs)). split; [done|].
    by apply elem_of_routeTablesOf.
Qed.

Lemma listenersOf_app rs1 rs2 :
  listenersOf (rs1 ++ rs2)%list = (listenersOf rs1 ++ listenersOf rs2)%list.
Proof. apply omap_app. Qed.

Lemma routeTablesOf_app rs1 rs2 :
  routeTablesOf (rs1 ++ rs2)%list
  = (routeTablesOf rs1 ++ routeTablesOf rs2)%list.
Proof. apply omap_app. Qed.

(** Membership in a set built from nothing by [Add]. *)
Lemma elem_of_referenceSet (refs : list string) c :
  c ∈ treeset.Values (AddAll treeset.NewWithStringComparator refs)
  <-> c ∈ refs.
Proof.
  unfold treeset.Values. rewrite elem_of_AddAll.
  unfold treeset.NewWithStringComparator. set_solver.
Qed.

Lemma listenerId_names rs :
  (map listenerId (listenersOf rs)).*1 = (reportedListeners rs).*1.
Proof. unfold reportedListeners. by rewrite <- !list_fmap_compose. Qed.

Lemma routeTableId_names rs :
  (map routeTableId (routeTablesOf rs)).*1 = (reportedRouteTables rs).*1.
Proof. unfold reportedRouteTables. by rewrite <- !list_fmap_compose. Qed.

Lemma clusterId_names rs :
  (map clusterId (clustersOf rs)).*1 = reportedClusters rs.
Proof. unfold reportedClusters. by rewrite <- !list_fmap_compose. Qed.

Lemma referenceSet_names (es : list (string * list string)) :
  (map referenceSet es).*1 = es.*1.
Proof. by rewrite <- !list_fmap_compose. Qed.

Lemma parseXdsRelationship_Ok_reports data g :
  parseXdsRelationship (inr data) = Ok g ->
  exists rs,
    snapshotReports data = Some rs
    /\ g = graphOf (fold_left applyReport rs emptyMaps).
Proof.
  rewrite parseXdsRelationship_reports.
  destruct (snapshotReports data) as [rs|]; [|done].
  intros [= <-]. by exists rs.
Qed.

(** A snapshot has reports exactly when it is well-shaped. *)
Lemma snapshotReports_wellShaped data :
  is_Some (snapshotReports data) <-> wellShaped data = true.
Proof.
  pose proof (parseXdsRelationship_decides data) as Hd.
  rewrite parseXdsRelationship_reports in Hd. unfold decides in Hd.
  destruct (wellShaped data), (snapshotReports data) as [rs|];
    split; try done; try (by destruct Hd); try (by intros []).
Qed.

(** ** Route tables *)

(** A route that redirects: it has no field [route]. *)
Definition redirectRoute : value :=
  Map [("match", Map [("prefix", Str "/old")]);
       ("redirect", Map [("pathRedirect", Str "/new")])].

(** A route table with a route to the cluster C1 beside a redirect. *)
Definition redirectingRouteTable : value :=
  Map [("routeConfig",
        Map [("name", Str "R1");
             ("virtualHosts",
              Arr [Map [("name", Str "host");
                        ("routes",
                         Arr [json_route (Cluster "C1"); redirectRoute])]])])].

Definition json_routeTablesOnly (routeTables : list value) : object :=
  json_snapshot
    [Map [("xdsConfig",
           Arr [Map [("routeConfig",
                      Map [("dynamicRouteConfigs", Arr routeTables)])]])]].

(** C4, as stated, fails: not every route table of a snapshot gets a
    reference set.  In [redirectingRouteTable] one route names the single
    cluster C1, and beside it is a route that redirects; scanning the
    table panics at the redirect, and so does the extraction of a
    snapshot holding it: no reference set gains C1. *)
Lemma route_beside_redirect_adds_nothing :
  routeAction (json_route (Cluster "C1")) = Some (SingleCluster "C1")
  /\ routeAction redirectRoute = None
  /\ scanRouteTable 0 redirectingRouteTable emptyMaps = Panic
  /\ parseXdsRelationship (inr (json_routeTablesOnly [redirectingRouteTable]))
     = Panic.
Proof. repeat split; reflexivity. Qed.

(** C4 (amended): whenever scanning a route table returns, every route
    of the table has an action naming a single cluster or a
    weighted-cluster set, and the state then holds, under the name of
    the table, its short id and its reference set.  The members of the
    set are exactly the cluster names the routes name: a route naming a
    single cluster adds that name, a route with a weighted-cluster set
    adds the names of the set, and nothing else is added.  A name
    referred to several times, by one route or by several, is a member
    once: the set has as many members as there are distinct names. *)
Theorem route_table_references
    (route : value) (idx : nat) (st st' : xdsMaps) :
  scanRouteTable idx route st = Ok st' ->
  exists name hosts refs set,
    strAt route ["routeConfig"; "name"] = Some name
    /\ arrAt route ["routeConfig"; "virtualHosts"] = Some hosts
    /\ routeTableRefs route = Some refs
    /\ rds st' !! name = Some ("RDS" ++ Itoa idx)
    /\ rdsToCds st' !! name = Some set
    /\ (forall host r,
          host ∈ hosts -> (exists routes, arrAt host ["routes"] = Some routes
                                          /\ r ∈ routes) ->
          is_Some (routeAction r))
    /\ (forall c,
          c ∈ treeset.Values set
          <-> exists host routes r a,
                host ∈ hosts /\ arrAt host ["routes"] = Some routes
                /\ r ∈ routes /\ routeAction r = Some a /\ c ∈ namesOf a)
    /\ (forall c, c ∈ treeset.Values set <-> c ∈ refs)
    /\ NoDup (treeset.Values set)
    /\ length (treeset.Values set) = length (remove_dups refs)
    /\ (forall r s s',
          scanRoute r s = Ok s' ->
          exists a, routeAction r = Some a
                    /\ s' = AddAll s (namesOf a)
                    /\ forall y, y ∈ treeset.Values s'
                                 <-> y ∈ treeset.Values s \/ y ∈ namesOf a)
    /\ (forall names : list string,
          length (treeset.Values
                    (AddAll treeset.NewWithStringComparator names))
          = length (remove_dups names)).
Proof.
  intros Hscan. pose proof (scanRouteTable_follows idx route st) as Hf.
  unfold follows in Hf. rewrite Hscan in Hf.
  destruct (routeTableReport idx route) as [rep|] eqn:Hrep; [|done].
  injection Hf as ->. unfold routeTableReport in Hrep.
  destruct (strAt route ["routeConfig"; "name"]) as [name|]; [|done].
  simpl in Hrep.
  destruct (routeTableRefs route) as [refs|] eqn:Hrefs; [|done].
  injection Hrep as <-. simpl.
  unfold routeTableRefs in Hrefs.
  destruct (arrAt route ["routeConfig"; "virtualHosts"]) as [hosts|];
    [|done].
  simpl in Hrefs.
  assert (forall c, c ∈ refs
            <-> exists host routes r a,
                  host ∈ hosts /\ arrAt host ["routes"] = Some routes
                  /\ r ∈ routes /\ routeAction r = Some a /\ c ∈ namesOf a)
    as Hmem.
  { intros c. rewrite (elem_of_collect _ _ _ _ Hrefs). split.
    - intros (host & hr & Hhost & Hhr & Hc). unfold hostRefs in Hhr.
      destruct (arrAt host ["routes"]) as [routes|] eqn:Hroutes; [|done].
      simpl in Hhr. apply (elem_of_collect _ _ _ c) in Hhr.
      apply Hhr in Hc as (r & rr & Hr & Hrr & Hc). unfold routeRefs in Hrr.
      destruct (routeAction r) as [a|] eqn:Ha; [|done].
      injection Hrr as <-. by exists host, routes, r, a.
    - intros (host & routes & r & a & Hhost & Hroutes & Hr & Ha & Hc).
      destruct (collect_is_Some _ _ _ _ Hrefs Hhost) as [hr Hhr].
      exists host, hr. split; [done|]. split; [done|].
      unfold hostRefs in Hhr. rewrite Hroutes in Hhr. simpl in Hhr.
      apply (elem_of_collect _ _ _ c Hhr). exists r, (namesOf a).
      split; [done|]. split; [|done]. unfold routeRefs. by rewrite Ha. }
  exists name, hosts, refs, (AddAll treeset.NewWithStringComparator refs).
  split; [done|]. split; [done|]. split; [done|].
  split; [by rewrite lookup_insert_eq|].
  split; [by rewrite lookup_insert_eq|].
  split.
  { intros host r Hhost (routes & Hroutes & Hr).
    destruct (collect_is_Some _ _ _ _ Hrefs Hhost) as [hr Hhr].
    unfold hostRefs in Hhr. rewrite Hroutes in Hhr. simpl in Hhr.
    destruct (collect_is_Some _ _ _ _ Hhr Hr) as [rr Hrr].
    unfold routeRefs in Hrr. destruct (routeAction r); [by eexists|done]. }
  split; [intros c; by rewrite elem_of_referenceSet, Hmem|].
  split; [apply elem_of_referenceSet|].
  split; [apply sorted_NoDup, AddAll_sorted; constructor|].
  split; [apply AddAll_length|].
  split; [|apply AddAll_length].
  intros r s s' Hr. pose proof (scanRoute_follows r s) as Hfr.
  unfold follows in Hfr. rewrite Hr in Hfr. unfold routeRefs in Hfr.
  destruct (routeAction r) as [a|]; [|done]. simpl in Hfr.
  injection Hfr as ->. exists a. split; [done|]. split; [done|].
  intros y. apply elem_of_AddAll.
Qed.

Lemma route_table_references_witness :
  exists st',
    scanRouteTable 3 (json_routeTable ex_routeTable) emptyMaps = Ok st'
    /\ rds st' !! "R1" = Some "RDS3"
    /\ rdsToCds st' !! "R1" = Some ["A"; "B"; "C1"]
    /\ (forall c, c ∈ ["A"; "B"; "C1"] <-> c ∈ ["C1"; "B"; "A"; "C1"])
    /\ length ["A"; "B"; "C1"] = length (remove_dups ["C1"; "B"; "A"; "C1"]).
Proof.
  eexists. split; [reflexivity|].
  destruct (route_table_references (json_routeTable ex_routeTable) 3
              emptyMaps _ eq_refl)
    as (name & hosts & refs & set & Hname & _ & Hrefs & Hid & Hset & _ & _
        & Hmem & _ & Hlen & _).
  injection Hname as <-. injection Hrefs as <-.
  change (Some ["A"; "B"; "C1"] = Some set) in Hset. injection Hset as <-.
  split; [exact Hid|]. split; [reflexivity|]. split; [exact Hmem|exact Hlen].
Defined.

(** ** The viewer and the output file *)

Definition emptyWorld : World := {| files := ∅; stdout := []; started := [] |}.

(** A Linux host without [xdg-open]; files can be created and written. *)
Definition headlessLinux : OS :=
  {| GOOS := "linux";
     Start := fun name _ => Some ("exec: " ++ name ++ ": executable file not found in $PATH");
     Create := fun _ => None;
     Write := fun _ b => (String.length b, None) |}.

Lemma openBrowser_failure os url w err :
  (openBrowser os url w).2 = Some err -> openBrowser os url w = (w, Some err).
Proof.
  unfold openBrowser, start.
  repeat match goal with
         | |- context [if ?b then _ else _] => destruct b
         | |- context [match Start ?o ?n ?a with _ => _ end] =>
             destruct (Start o n a)
         end; simpl; intros; by simplify_eq.
Qed.

(** C6, as stated, fails: the viewer is launched before the file is
    created.  On a host where the launch fails, [visualize] returns the
    launch error and [config_graph.dot] has not been written; in monitor
    mode, where no viewer is launched, the same call writes it. *)
Lemma viewer_failure_leaves_no_file :
  exists err w',
    visualize declLog goOrder headlessLinux (inr ex_snapshot) false emptyWorld
    = (w', Err err)
    /\ files w' !! "config_graph.dot" = None
    /\ is_Some
         (files (visualize declLog goOrder headlessLinux (inr ex_snapshot)
                   true emptyWorld).1 !! "config_graph.dot").
Proof.
  eexists _, _. split; [by vm_compute|]. split; [by vm_compute|].
  eexists. by vm_compute.
Qed.

(** C6 (amended): if the launch of the external viewer fails, its error
    is returned to the caller and [visualize] stops before the output
    file is created: the call writes no file, prints nothing and starts
    no process, so whatever an earlier call left under the file name is
    untouched. *)
Theorem viewer_failure_propagates
    (G : gographviz.API) (rt : MapRange) (os : OS) (decoded : error + object)
    (w : World) (graphData : GraphData) (dot : string) (err : error) :
  parseXdsRelationship decoded = Ok graphData ->
  generateGraph G rt graphData = Ok dot ->
  (openBrowser os ("http://dreampuf.github.io/GraphvizOnline/#" ++ dot) w).2
  = Some err ->
  visualize G rt os decoded false w = (w, Err err).
Proof.
  intros Hparse Hgen Hopen. unfold visualize, publish.
  rewrite Hparse, Hgen. by rewrite (openBrowser_failure _ _ _ _ Hopen).
Qed.

Lemma viewer_failure_propagates_witness :
  exists err,
    visualize declLog goOrder headlessLinux (inr ex_snapshot) false emptyWorld
    = (emptyWorld, Err err).
Proof.
  eexists.
  eapply (viewer_failure_propagates declLog goOrder headlessLinux
            (inr ex_snapshot) emptyWorld).
  - reflexivity.
  - reflexivity.
  - reflexivity.
Defined.

(** ** The status summary *)

(** The line of one config entry, if it gets one. *)
Definition statusLine {ConfigStatus CD LD RD SD}
    (ConfigStatus_String : ConfigStatus -> string)
    (perXdsConfig : PerXdsConfig ConfigStatus CD LD RD SD) : option string :=
  let status := ConfigStatus_String (GetStatus perXdsConfig) in
  let xds := xdsOf perXdsConfig in
  if decide (status <> EmptyString /\ xds <> EmptyString)
  then Some (xds ++ "   " ++ status) else None.

(** What follows id and stream type in the row of a client with config
    entries: the first status closes the row, each further status is a
    row with the first two columns empty, and a client without any status
    line gets a bare line end. *)
Definition statusRows (configStatus : list string) : list output :=
  match configStatus with
  | [] => [Printf newline []]
  | s :: rest =>
      Printf ("%-30s " ++ newline) [s]
      :: map (fun s => Printf rowFormat [EmptyString; EmptyString; s]) rest
  end.

(** The variants of an entry that are populated, as tags, in the order
    of the checks. *)
Definition populated {ConfigStatus CD LD RD SD}
    (perXdsConfig : PerXdsConfig ConfigStatus CD LD RD SD) : list string :=
  ((if GetClusterConfig perXdsConfig is Some _ then ["CDS"] else [])
   ++ (if GetListenerConfig perXdsConfig is Some _ then ["LDS"] else [])
   ++ (if GetRouteConfig perXdsConfig is Some _ then ["RDS"] else [])
   ++ (if GetScopedRouteConfig perXdsConfig is Some _ then ["SRDS"] else []))%list.

(** The enum of envoy.service.status.v2 with the names its [String]
    method prints, and entries whose dumps carry no data. *)
Inductive ConfigStatus_v2 := UNKNOWN | SYNCED | NOT_SENT | STALE | ERROR.

Definition ConfigStatus_v2_String (s : ConfigStatus_v2) : string :=
  match s with
  | UNKNOWN => "UNKNOWN"
  | SYNCED => "SYNCED"
  | NOT_SENT => "NOT_SENT"
  | STALE => "STALE"
  | ERROR => "ERROR"
  end.

Definition anonymousClient : ClientConfig ConfigStatus_v2 unit unit unit unit :=
  {| GetNode := None; GetXdsConfig := None |}.

Definition staleCluster : PerXdsConfig ConfigStatus_v2 unit unit unit unit :=
  {| GetStatus := STALE;
     GetPerXdsConfig := Some (PerXdsConfig_ClusterConfig tt) |}.


Definition unsyncedClient : ClientConfig ConfigStatus_v2 unit unit unit unit :=
  {| GetNode := Some {| GetId := "client-1";
                        GetMetadata := [("XDS_STREAM_TYPE", Str "ADS")] |};
     GetXdsConfig := None |}.

Section SummarizerFacts.

Context {ConfigStatus CD LD RD SD : Type}.
Variable ConfigStatus_String : ConfigStatus -> string.

Implicit Types (p : PerXdsConfig ConfigStatus CD LD RD SD)
  (xs : list (PerXdsConfig ConfigStatus CD LD RD SD))
  (config : ClientConfig ConfigStatus CD LD RD SD).

Lemma appendStatus_statusLine acc p :
  appendStatus ConfigStatus_String acc p
  = (acc ++ option_list (statusLine ConfigStatus_String p))%list.
Proof.
  unfold appendStatus, statusLine.
  destruct (String.eqb_spec (ConfigStatus_String (GetStatus p)) EmptyString)
    as [Hs|Hs];
    destruct (String.eqb_spec (xdsOf p) EmptyString) as [Hx|Hx]; simpl.
  - rewrite decide_False by tauto. by rewrite app_nil_r.
  - rewrite decide_False by tauto. by rewrite app_nil_r.
  - rewrite decide_False by tauto. by rewrite app_nil_r.
  - by rewrite decide_True by tauto.
Qed.

Lemma fold_appendStatus xs acc :
  fold_left (appendStatus ConfigStatus_String) xs acc
  = (acc ++ omap (statusLine ConfigStatus_String) xs)%list.
Proof.
  revert acc. induction xs as [|p xs IH]; intros acc; simpl.
  - by rewrite app_nil_r.
  - rewrite IH, appendStatus_statusLine, <- app_assoc. f_equal.
    by destruct (statusLine ConfigStatus_String p).
Qed.

(** [parseConfigStatus_v2] keeps, in order, the lines of the entries
    that have one. *)
Lemma parseConfigStatus_v2_omap xs :
  parseConfigStatus_v2 ConfigStatus_String xs
  = omap (statusLine ConfigStatus_String) xs.
Proof. apply fold_appendStatus. Qed.

Lemma printStatus_succ i lines :
  printStatus (S i) lines
  = map (fun s => Printf rowFormat [EmptyString; EmptyString; s]) lines.
Proof.
  revert i. induction lines as [|s lines IH]; intros i; simpl; [done|].
  by rewrite IH.
Qed.

Lemma printStatus_statusRows lines :
  (printStatus 0 lines
   ++ (if Nat.eqb (length lines) 0 then [Printf newline []] else []))%list
  = statusRows lines.
Proof.
  destruct lines as [|s rest]; simpl; [done|].
  by rewrite printStatus_succ, app_nil_r.
Qed.

Lemma xdsOf_populated p : xdsOf p = hd EmptyString (populated p).
Proof.
  unfold xdsOf, populated.
  by destruct (GetClusterConfig p), (GetListenerConfig p),
    (GetRouteConfig p), (GetScopedRouteConfig p).
Qed.

End SummarizerFacts.

(** C8, as stated, fails: a client entry without config entries gets the
    "N/A" row only if it carries a node.  For a response whose only
    client entry has neither, the summary prints the header and no row at
    all. *)
Lemma anonymous_client_prints_no_row :
  GetXdsConfig anonymousClient = None
  /\ printClient ConfigStatus_v2_String anonymousClient false = ([], Ok false)
  /\ printOutResponse_v2 ConfigStatus_v2_String (fun _ _ => ([], Ok tt))
       {| GetConfig := Some [anonymousClient] |} tt
     = ([Printf rowFormat ["Client ID"; "xDS stream type"; "Config Status"]],
        Ok tt).
Proof. repeat split; reflexivity. Qed.

(** C8 (amended): for a client entry whose id and stream type are [id]
    and [xdsType], the summary prints
    - when the list of config entries is nil and the entry has a node,
      one row with "N/A" in the status column; when it has no node
      either, nothing;
    - otherwise id and stream type followed by one line per config entry
      whose status string is non-empty and one of whose variants is
      populated, in order: the tag of the entry (CDS, LDS, RDS or SRDS),
      three spaces and the status string.  Entries with an empty status
      string or without a populated variant give no line. *)
Theorem status_column {ConfigStatus CD LD RD SD : Type}
    (ConfigStatus_String : ConfigStatus -> string)
    (config : ClientConfig ConfigStatus CD LD RD SD) (hasXdsConfig : bool)
    (id xdsType : string) :
  clientIdAndType config = Ok (id, xdsType) ->
  (GetXdsConfig config = None -> is_Some (GetNode config) ->
   printClient ConfigStatus_String config hasXdsConfig
   = ([Printf rowFormat [id; xdsType; "N/A"]], Ok hasXdsConfig))
  /\ (GetXdsConfig config = None -> GetNode config = None ->
      printClient ConfigStatus_String config hasXdsConfig
      = ([], Ok hasXdsConfig))
  /\ (forall xdsConfig, GetXdsConfig config = Some xdsConfig ->
        printClient ConfigStatus_String config hasXdsConfig
        = (Printf "%-50s %-30s " [id; xdsType]
           :: statusRows (omap (statusLine ConfigStatus_String) xdsConfig),
           Ok true))
  /\ (forall xdsConfig : list (PerXdsConfig ConfigStatus CD LD RD SD),
        parseConfigStatus_v2 ConfigStatus_String xdsConfig
        = omap (statusLine ConfigStatus_String) xdsConfig)
  /\ (forall (p : PerXdsConfig ConfigStatus CD LD RD SD) line,
        statusLine ConfigStatus_String p = Some line
        <-> ConfigStatus_String (GetStatus p) <> EmptyString
            /\ populated p <> []
            /\ line = xdsOf p ++ "   " ++ ConfigStatus_String (GetStatus p))
  /\ (forall p : PerXdsConfig ConfigStatus CD LD RD SD,
        xdsOf p = hd EmptyString (populated p)).
Proof.
  intros Hid. unfold printClient. rewrite Hid.
  split; [|split; [|split; [|split; [|split]]]].
  - intros -> [node ->]. done.
  - intros -> ->. done.
  - intros xdsConfig ->.
    by rewrite parseConfigStatus_v2_omap, printStatus_statusRows.
  - apply parseConfigStatus_v2_omap.
  - intros p line. unfold statusLine. rewrite xdsOf_populated.
    assert (hd EmptyString (populated p) <> EmptyString <-> populated p <> [])
      as Hpop.
    { unfold populated.
      by destruct (GetClusterConfig p), (GetListenerConfig p),
        (GetRouteConfig p), (GetScopedRouteConfig p). }
    case_decide as Hd.
    + split; [intros [= <-]; tauto|]. by intros (_ & _ & ->).
    + split; [done|]. intros (? & ? & _). tauto.
  - apply xdsOf_populated.
Qed.

Lemma status_column_witness :
  printClient ConfigStatus_v2_String unsyncedClient false
  = ([Printf rowFormat ["client-1"; "ADS"; "N/A"]], Ok false).
Proof.
  refine (proj1 (status_column ConfigStatus_v2_String unsyncedClient false
                   "client-1" "ADS" _) _ _).
  - reflexivity.
  - reflexivity.
  - by eexists.
Defined.




(** * Further properties of the extraction *)

(** ** Snapshots of several client entries *)

Lemma elem_of_flat_map {A B} (f : A -> list B) (xs : list A) (y : B) :
  y ∈ flat_map f xs <-> exists x, x ∈ xs /\ y ∈ f x.
Proof.
  rewrite list_elem_of_In, in_flat_map.
  by setoid_rewrite list_elem_of_In.
Qed.

Lemma elem_of_statements_node rt data name id :
  NodeStmt name id ∈ statements rt data
  <-> exists xDS, xDS ∈ nodes data /\ xDS !! name = Some id.
Proof.
  unfold statements. rewrite elem_of_app, !elem_of_flat_map. split.
  - intros [(xDS & Hx & Hin)|(rels & _ & Hin)].
    + exists xDS. split; [done|]. unfold nodeStmts in Hin.
      apply list_elem_of_fmap in Hin as ([k v] & [= -> ->] & Hkv).
      rewrite (range_perm rt) in Hkv. by apply elem_of_map_to_list in Hkv.
    + unfold edgeStmts in Hin. apply elem_of_flat_map in Hin as (kv & _ & Hin).
      by apply list_elem_of_fmap in Hin as (? & [=] & _).
  - intros (xDS & Hx & Hid). left. exists xDS. split; [done|].
    unfold nodeStmts. apply list_elem_of_fmap. exists (name, id).
    split; [done|]. rewrite (range_perm rt). by apply elem_of_map_to_list.
Qed.


(** A snapshot as a control plane may send it: a client entry with its
    node, a listener dump with a static and a dynamic list, a route and
    a cluster dump, and a scoped-route dump, which extraction does not
    read.  The listener L1 is reported in both lists. *)
Definition ex_twoLists : object :=
  [("config",
    Arr [Map [("node", Map [("id", Str "client-1")]);
              ("xdsConfig",
               Arr [Map [("status", Str "SYNCED");
                         ("listenerConfig",
                          Map [("staticListeners",
                                Arr [json_listener (bareListener "L1")]);
                               ("dynamicListeners",
                                Arr [json_listener (bareListener "L0");
                                     json_listener ex_listener])])];
                    Map [("status", Str "SYNCED");
                         ("routeConfig",
                          Map [("dynamicRouteConfigs",
                                Arr [json_routeTable ex_routeTable])])];
                    Map [("status", Str "STALE");
                         ("clusterConfig",
                          Map [("staticClusters", Arr [json_cluster "C0"]);
                               ("dynamicActiveClusters",
                                Arr [json_cluster "A"])])];
                    Map [("scopedRouteConfig", Map [])]])]])].

(** X1: on every snapshot for which extraction returns a graph, the keys
    of the three node maps are exactly the reported listener,
    route-table and cluster names; a listener (route table) is a key of
    its node map and of its reference map alike. *)
Theorem nodes_are_the_reported_names (data : object) (g : GraphData) :
  parseXdsRelationship (inr data) = Ok g ->
  exists rs ldsM rdsM cdsM l2r r2c,
    snapshotReports data = Some rs
    /\ nodes g = [ldsM; rdsM; cdsM]
    /\ relations g = [l2r; r2c]
    /\ dom ldsM = list_to_set (reportedListeners rs).*1
    /\ dom rdsM = list_to_set (reportedRouteTables rs).*1
    /\ dom cdsM = list_to_set (reportedClusters rs)
    /\ dom l2r = dom ldsM
    /\ dom r2c = dom rdsM.
Proof.
  intros (rs & Hrs & ->)%parseXdsRelationship_Ok_reports.
  exists rs. eexists _, _, _, _, _. split; [done|].
  split; [reflexivity|]. split; [reflexivity|].
  destruct (applyReports_maps rs emptyMaps) as (-> & -> & -> & -> & ->).
  rewrite !dom_insertAll, !referenceSet_names, listenerId_names,
    routeTableId_names, clusterId_names.
  simpl. by rewrite !dom_empty_L, !(right_id_L ∅ (∪)).
Qed.

Lemma nodes_are_the_reported_names_witness :
  exists g ldsM cdsM,
    parseXdsRelationship (inr ex_twoLists) = Ok g
    /\ nodes g !! 0 = Some ldsM
    /\ nodes g !! 2 = Some cdsM
    /\ dom ldsM = list_to_set ["L1"; "L0"; "L1"]
    /\ dom cdsM = list_to_set ["C0"; "A"].
Proof.
  destruct (nodes_are_the_reported_names ex_twoLists _ eq_refl)
    as (rs & ldsM & rdsM & cdsM & l2r & r2c & Hrs & Hn & _ & Hl & _ & Hc & _).
  injection Hrs as <-. eexists _, ldsM, cdsM.
  split; [reflexivity|]. rewrite Hn.
  split; [reflexivity|]. split; [reflexivity|]. split; [exact Hl|exact Hc].
Defined.

(** X2: a stored reference set is never a merge: in every graph
    extraction returns, the set kept under a name is the set of the
    references of one reported listener (route table) of that name, so
    every edge goes back to a reference of that entry. *)
Theorem reference_set_of_one_entry (data : object) (g : GraphData) :
  parseXdsRelationship (inr data) = Ok g ->
  exists rs l2r r2c,
    snapshotReports data = Some rs
    /\ relations g = [l2r; r2c]
    /\ (forall name set, l2r !! name = Some set ->
          exists idx refs,
            ListenerReport idx name refs ∈ rs
            /\ forall dst, dst ∈ treeset.Values set <-> dst ∈ refs)
    /\ (forall name set, r2c !! name = Some set ->
          exists idx refs,
            RouteTableReport idx name refs ∈ rs
            /\ forall dst, dst ∈ treeset.Values set <-> dst ∈ refs).
Proof.
  intros (rs & Hrs & ->)%parseXdsRelationship_Ok_reports.
  exists rs. eexists _, _. split; [done|]. split; [reflexivity|].
  destruct (applyReports_maps rs emptyMaps) as (_ & _ & _ & -> & ->).
  split.
  - intros name set [Hin|Hm]%insertAll_lookup_Some; [|done].
    apply list_elem_of_fmap in Hin as ([n refs] & [= -> ->] & Hin).
    apply elem_of_reportedListeners in Hin as [idx Hin].
    exists idx, refs. split; [done|]. intros dst. apply elem_of_referenceSet.
  - intros name set [Hin|Hm]%insertAll_lookup_Some; [|done].
    apply list_elem_of_fmap in Hin as ([n refs] & [= -> ->] & Hin).
    apply elem_of_reportedRouteTables in Hin as [idx Hin].
    exists idx, refs. split; [done|]. intros dst. apply elem_of_referenceSet.
Qed.

Lemma reference_set_of_one_entry_witness :
  exists g l2r,
    parseXdsRelationship (inr ex_twoLists) = Ok g
    /\ relations g !! 0 = Some l2r
    /\ l2r !! "L1" = Some ["R1"]
    /\ exists idx refs,
         ListenerReport idx "L1" refs
         ∈ [ListenerReport 0 "L1" []; ListenerReport 0 "L0" [];
            ListenerReport 1 "L1" ["R1"];
            RouteTableReport 0 "R1" ["C1"; "B"; "A"; "C1"];
            ClusterReport 0 "C0"; ClusterReport 0 "A"]
         /\ forall dst, dst ∈ treeset.Values ["R1"] <-> dst ∈ refs.
Proof.
  destruct (reference_set_of_one_entry ex_twoLists _ eq_refl)
    as (rs & l2r & r2c & Hrs & Hr & Hl & _).
  injection Hrs as <-. injection Hr as <- _.
  eexists _, _. split; [reflexivity|]. split; [reflexivity|].
  split; [reflexivity|]. exact (Hl "L1" ["R1"] eq_refl).
Defined.

(** X3: when a listener name is reported more than once, in one list,
    in several lists of a dump or in several client entries, the report
    scanned last decides: the node carries the position that listener
    has in its list, and the reference set holds its references only. *)
Theorem last_report_of_a_name_wins
    (data : object) (g : GraphData) (before after : list report)
    (idx : nat) (name : string) (refs : list string) :
  parseXdsRelationship (inr data) = Ok g ->
  snapshotReports data
  = Some (before ++ ListenerReport idx name refs :: after)%list ->
  name ∉ (reportedListeners after).*1 ->
  exists ldsM l2r,
    nodes g !! 0 = Some ldsM
    /\ relations g !! 0 = Some l2r
    /\ ldsM !! name = Some ("LDS" ++ Itoa idx)
    /\ l2r !! name
       = Some (AddAll treeset.NewWithStringComparator refs).
Proof.
  intros (rs & Hrs & ->)%parseXdsRelationship_Ok_reports Hdec Hafter.
  rewrite Hrs in Hdec. injection Hdec as ->.
  eexists _, _. split; [reflexivity|]. split; [reflexivity|].
  destruct (applyReports_maps
              (before ++ ListenerReport idx name refs :: after) emptyMaps)
    as (-> & _ & _ & -> & _).
  unfold reportedListeners at 1. rewrite listenersOf_app. simpl.
  rewrite !fmap_app, !fmap_cons. split.
  - apply (insertAll_last _ name). by rewrite listenerId_names.
  - apply (insertAll_last _ name).
    by rewrite referenceSet_names.
Qed.

Lemma last_report_of_a_name_wins_witness :
  exists g ldsM l2r,
    parseXdsRelationship (inr ex_twoLists) = Ok g
    /\ nodes g !! 0 = Some ldsM
    /\ relations g !! 0 = Some l2r
    /\ ldsM !! "L1" = Some "LDS1"
    /\ l2r !! "L1" = Some ["R1"].
Proof.
  eexists. 
  destruct (last_report_of_a_name_wins ex_twoLists _
              [ListenerReport 0 "L1" []; ListenerReport 0 "L0" []]
              [RouteTableReport 0 "R1" ["C1"; "B"; "A"; "C1"];
               ClusterReport 0 "C0"; ClusterReport 0 "A"]
              1 "L1" ["R1"] eq_refl eq_refl)
    as (ldsM & l2r & H1 & H2 & H3 & H4).
  - apply not_elem_of_nil.
  - exists ldsM, l2r. split; [reflexivity|]. by repeat split.
Defined.





(** ** Order of the input *)

(** Two runs of [Add] over lists with the same members end in the same
    set. *)
Lemma AddAll_same_members xs ys :
  (forall x, x ∈ xs <-> x ∈ ys) ->
  AddAll treeset.NewWithStringComparator xs
  = AddAll treeset.NewWithStringComparator ys.
Proof.
  intros Hxy.
  apply (StronglySorted_unique_strong String_as_OT.lt).
  - intros x1 x2 _ _ H12 H21. destruct (lt_irrefl x1). by eapply lt_trans.
  - apply AddAll_sorted. constructor.
  - apply AddAll_sorted. constructor.
  - apply NoDup_Permutation.
    + apply sorted_NoDup, AddAll_sorted. constructor.
    + apply sorted_NoDup, AddAll_sorted. constructor.
    + intros x. rewrite !elem_of_AddAll. specialize (Hxy x).
      unfold treeset.NewWithStringComparator. set_solver.
Qed.

(** X5: what a listener or a route table contributes depends only on
    which names it refers to, not on the order of its filter chains,
    filters, virtual hosts and routes, nor on how often a name occurs. *)
Theorem references_order_irrelevant
    (l1 l2 : ListenerDetail) (r1 r2 : RouteTableDetail) (idx : nat)
    (st : xdsMaps) :
  listener_name l1 = listener_name l2 ->
  (forall x, x ∈ listener_refs l1 <-> x ∈ listener_refs l2) ->
  routeTable_name r1 = routeTable_name r2 ->
  (forall x, x ∈ routeTable_refs r1 <-> x ∈ routeTable_refs r2) ->
  scanListener idx (json_listener l1) st
  = scanListener idx (json_listener l2) st
  /\ scanRouteTable idx (json_routeTable r1) st
     = scanRouteTable idx (json_routeTable r2) st.
Proof.
  intros Hl Hlr Hr Hrr.
  rewrite !scanListener_json, !scanRouteTable_json.
  unfold stepListener, stepRouteTable.
  by rewrite Hl, Hr, (AddAll_same_members _ _ Hlr),
    (AddAll_same_members _ _ Hrr).
Qed.

Definition ex_routeTable_reordered : RouteTableDetail :=
  {| routeTable_name := "R1";
     routeTable_virtualHosts :=
       [[WeightedClusters [("C1", 7%Z); ("A", 1%Z)]]; [Cluster "B"; Cluster "A"]] |}.

Lemma references_order_irrelevant_witness :
  scanRouteTable 0 (json_routeTable ex_routeTable) emptyMaps
  = scanRouteTable 0 (json_routeTable ex_routeTable_reordered) emptyMaps.
Proof.
  apply (references_order_irrelevant ex_listener ex_listener
           ex_routeTable ex_routeTable_reordered 0 emptyMaps).
  - reflexivity.
  - done.
  - reflexivity.
  - intros x.
    change (x ∈ ["C1"; "B"; "A"; "C1"] <-> x ∈ ["C1"; "A"; "B"; "A"]).
    rewrite !elem_of_cons, !elem_of_nil. tauto.
Defined.

(** X6: if two snapshots on which extraction returns report the same
    listeners, route tables and clusters, each listener and route-table
    name once, in whatever order and however spread over client
    entries, config entries and lists, the two graphs have the same two
    reference maps and node maps with the same keys; only the short ids
    may differ. *)
Theorem extraction_ignores_report_order
    (data data' : object) (g g' : GraphData) (rs rs' : list report) :
  parseXdsRelationship (inr data) = Ok g ->
  parseXdsRelationship (inr data') = Ok g' ->
  snapshotReports data = Some rs ->
  snapshotReports data' = Some rs' ->
  NoDup (reportedListeners rs).*1 ->
  NoDup (reportedRouteTables rs).*1 ->
  reportedListeners rs ≡ₚ reportedListeners rs' ->
  reportedRouteTables rs ≡ₚ reportedRouteTables rs' ->
  reportedClusters rs ≡ₚ reportedClusters rs' ->
  relations g = relations g'
  /\ map dom (nodes g) = map dom (nodes g').
Proof.
  intros (rs0 & Hrs0 & ->)%parseXdsRelationship_Ok_reports
         (rs0' & Hrs0' & ->)%parseXdsRelationship_Ok_reports
         Hrs Hrs' Hls Hrts Pl Pr Pc.
  rewrite Hrs0 in Hrs. injection Hrs as ->.
  rewrite Hrs0' in Hrs'. injection Hrs' as ->. simpl.
  destruct (applyReports_maps rs emptyMaps) as (-> & -> & -> & -> & ->).
  destruct (applyReports_maps rs' emptyMaps) as (-> & -> & -> & -> & ->).
  split.
  - f_equal; [|f_equal].
    + apply insertAll_Permutation; [by rewrite referenceSet_names|].
      by apply Permutation_map.
    + apply insertAll_Permutation; [by rewrite referenceSet_names|].
      by apply Permutation_map.
  - assert (forall xs ys : list string,
              xs ≡ₚ ys -> (list_to_set xs : gset string) = list_to_set ys)
      as Hset.
    { intros xs ys Hp. apply set_eq. intros x.
      by rewrite !elem_of_list_to_set, Hp. }
    rewrite !dom_insertAll, !listenerId_names, !routeTableId_names,
      !clusterId_names.
    rewrite (Hset _ _ (fmap_Permutation fst _ _ Pl)).
    rewrite (Hset _ _ (fmap_Permutation fst _ _ Pr)).
    by rewrite (Hset _ _ Pc).
Qed.

(** The entries of [ex_twoLists] without the repeated listener, spread
    over two client entries and in another order. *)
Definition ex_spread : object :=
  [("config",
    Arr [Map [("xdsConfig",
               Arr [Map [("clusterConfig",
                          Map [("dynamicActiveClusters",
                                Arr [json_cluster "A"; json_cluster "C0"])]);
                         ("status", Str "SYNCED")];
                    Map [("listenerConfig",
                          Map [("dynamicListeners",
                                Arr [json_listener ex_listener])])]])];
         Map [("node", Map [("id", Str "client-2")]);
              ("xdsConfig",
               Arr [Map [("routeConfig",
                          Map [("dynamicRouteConfigs",
                                Arr [json_routeTable ex_routeTable])])];
                    Map [("listenerConfig",
                          Map [("staticListeners",
                                Arr [json_listener (bareListener "L0")])])]])]])].

Definition ex_gathered : object :=
  [("config",
    Arr [Map [("node", Map [("id", Str "client-1")]);
              ("xdsConfig",
               Arr [Map [("status", Str "SYNCED");
                         ("listenerConfig",
                          Map [("dynamicListeners",
                                Arr [json_listener (bareListener "L0");
                                     json_listener ex_listener])])];
                    Map [("status", Str "SYNCED");
                         ("routeConfig",
                          Map [("dynamicRouteConfigs",
                                Arr [json_routeTable ex_routeTable])])];
                    Map [("status", Str "STALE");
                         ("clusterConfig",
                          Map [("staticClusters", Arr [json_cluster "C0"]);
                               ("dynamicActiveClusters",
                                Arr [json_cluster "A"])])]])]])].

Lemma extraction_ignores_report_order_witness :
  exists g g',
    parseXdsRelationship (inr ex_gathered) = Ok g
    /\ parseXdsRelationship (inr ex_spread) = Ok g'
    /\ relations g = relations g'
    /\ map dom (nodes g) = map dom (nodes g').
Proof.
  eexists _, _. split; [reflexivity|]. split; [reflexivity|].
  eapply (extraction_ignores_report_order ex_gathered ex_spread).
  - reflexivity.
  - reflexivity.
  - reflexivity.
  - reflexivity.
  - simpl. apply NoDup_cons. split; [|apply NoDup_singleton].
    intros Hin%list_elem_of_singleton. discriminate Hin.
  - simpl. apply NoDup_singleton.
  - simpl. apply perm_swap.
  - simpl. apply perm_skip, perm_nil.
  - simpl. apply perm_swap.
Defined.

(** ** Entries without config dumps *)

Definition isDumpKey (key : string) : Prop :=
  key = "listenerConfig" \/ key = "routeConfig" \/ key = "clusterConfig".

(** A config entry that holds none of the three dumps. *)
Definition noDump (xds : value) : Prop :=
  exists fields, xds = Map fields /\ Forall (fun kv => ~ isDumpKey kv.1) fields.

(** A client entry all of whose config entries are such. *)
Definition noDumps (config : value) : Prop :=
  exists m xdss,
    config = Map m /\ index m "xdsConfig" = Arr xdss /\ Forall noDump xdss.

Lemma forEach_unchanged {A St} (body : A -> St -> outcome St) xs s :
  Forall (fun x => forall s, body x s = Ok s) xs -> forEach body xs s = Ok s.
Proof.
  induction 1 as [|x xs Hx _ IH]; simpl; [done|]. by rewrite Hx.
Qed.

Lemma scanField_other kv st : ~ isDumpKey kv.1 -> scanField kv st = Ok st.
Proof.
  destruct kv as [key v]. unfold isDumpKey. simpl. intros Hk.
  destruct (String.eqb_spec key "status"); [done|].
  destruct (String.eqb_spec key "listenerConfig"); [tauto|].
  destruct (String.eqb_spec key "routeConfig"); [tauto|].
  destruct (String.eqb_spec key "clusterConfig"); [tauto|]. done.
Qed.

Lemma scanConfig_noDumps config st : noDumps config -> scanConfig config st = Ok st.
Proof.
  intros (m & xdss & -> & Hx & Hall). unfold scanConfig. simpl.
  rewrite Hx. simpl. apply forEach_unchanged.
  eapply Forall_impl; [exact Hall|]. intros xds (fields & -> & Hf) s.
  unfold scanXds. simpl. apply forEach_unchanged.
  eapply Forall_impl; [exact Hf|]. intros kv Hkv s'. by apply scanField_other.
Qed.

Lemma range_empty rt {V} : range rt (∅ : gmap string V) = [].
Proof.
  apply Permutation_nil_r. rewrite (range_perm rt). by rewrite map_to_list_empty.
Qed.

(** X7: a snapshot whose config entries hold no listener, route or
    cluster dump (only a status, a scoped-route dump or other fields)
    yields the graph with five empty maps, and the renderer then emits
    the bare digraph: no node and no edge is declared. *)
Theorem no_dumps_empty_graph (data : object) (configs : list value) :
  index data "config" = Arr configs ->
  Forall noDumps configs ->
  parseXdsRelationship (inr data)
  = Ok {| nodes := [∅; ∅; ∅]; relations := [∅; ∅] |}
  /\ forall G rt,
       statements rt {| nodes := [∅; ∅; ∅]; relations := [∅; ∅] |} = []
       /\ generateGraph G rt {| nodes := [∅; ∅; ∅]; relations := [∅; ∅] |}
          = (graph ← newDigraph G; Ok (gographviz.String G graph)).
Proof.
  intros Hc Hall. split.
  - unfold parseXdsRelationship. rewrite Hc. simpl.
    rewrite (forEach_unchanged scanConfig); [done|].
    eapply Forall_impl; [exact Hall|]. intros c Hcfg s.
    by apply scanConfig_noDumps.
  - intros G rt.
    assert (statements rt {| nodes := [∅; ∅; ∅]; relations := [∅; ∅] |} = [])
      as Hs.
    { unfold statements, nodeStmts, edgeStmts. simpl.
      by rewrite !range_empty. }
    split; [done|]. rewrite generateGraph_render, Hs. unfold render.
    by destruct (newDigraph G).
Qed.

Lemma no_dumps_empty_graph_witness :
  parseXdsRelationship
    (inr (json_snapshot
            [Map [("node", Map [("id", Str "client")]);
                  ("xdsConfig",
                   Arr [Map [("status", Str "SYNCED");
                             ("scopedRouteConfig", Map [])]])]]))
  = Ok {| nodes := [∅; ∅; ∅]; relations := [∅; ∅] |}.
Proof.
  eapply no_dumps_empty_graph; [reflexivity|].
  constructor; [|constructor].
  eexists _, _. split; [reflexivity|]. split; [reflexivity|].
  constructor; [|constructor].
  eexists. split; [reflexivity|].
  repeat constructor; unfold isDumpKey; simpl; intros [H|[H|H]]; discriminate H.
Defined.

(** ** The declarations, whatever the iteration order *)



(** ** Two invocations on one Graph value *)













(** ** The renderer and a library that accepts every declaration *)

(** Every operation of the library returns a graph. *)
Record neverFails (G : gographviz.API) : Prop := {
  nf_ParseString : forall s, exists ast, gographviz.ParseString G s = Ok ast;
  nf_Analyse : forall ast g, exists g', gographviz.Analyse G ast g = Ok g';
  nf_AddAttr : forall g parent field val,
      exists g', gographviz.AddAttr G g parent field val = Ok g';
  nf_AddNode : forall g parent name attrs,
      exists g', gographviz.AddNode G g parent name attrs = Ok g';
  nf_AddEdge : forall g src dst directed attrs,
      exists g', gographviz.AddEdge G g src dst directed attrs = Ok g'
}.

Lemma declLog_neverFails : neverFails declLog.
Proof. split; simpl; eauto. Qed.

(** The node id is long enough for the slice [node[0:3]]. *)
Definition sliceable (s : stmt) : bool :=
  match s with
  | NodeStmt _ node => bool_decide (3 <= String.length node)
  | EdgeStmt _ _ => true
  end.

Lemma newDigraph_neverFails G : neverFails G -> exists g, newDigraph G = Ok g.
Proof.
  intros [Hp Han Hat _ _]. unfold newDigraph.
  destruct (Hp "digraph G {}") as [ast ->]. simpl.
  destruct (Han ast (gographviz.NewGraph G)) as [g ->]. simpl.
  apply Hat.
Qed.

Lemma emit_decides G s graph :
  neverFails G -> decides (sliceable s) (emit G s graph).
Proof.
  intros [_ _ _ Hn He]. destruct s as [name node|src dst]; simpl.
  - unfold slice. case_bool_decide as Hlen.
    + rewrite decide_True by lia. simpl. apply Hn.
    + by rewrite decide_False by lia.
  - apply He.
Qed.

Lemma render_decides G stmts :
  neverFails G -> decides (forallb sliceable stmts) (render G stmts).
Proof.
  intros HG. unfold render.
  destruct (newDigraph_neverFails G HG) as [g ->]. simpl.
  apply decides_then_Ok, forEach_decides. intros s graph.
  by apply emit_decides.
Qed.

(** With such a library, ids of three bytes or more are all it takes. *)
Lemma generateGraph_long_ids
    (G : gographviz.API) (rt : MapRange) (data : GraphData) :
  neverFails G ->
  (forall xDS name id, xDS ∈ nodes data -> xDS !! name = Some id ->
     3 <= String.length id) ->
  exists dot, generateGraph G rt data = Ok dot.
Proof.
  intros HG Hlong. rewrite generateGraph_render.
  pose proof (render_decides G (statements rt data) HG) as Hd.
  assert (forallb sliceable (statements rt data) = true) as Hall.
  { apply forallb_forall. intros [name id|src dst] Hin%list_elem_of_In;
      [|done].
    apply elem_of_statements_node in Hin as (xDS & Hx & Hid).
    simpl. apply bool_decide_eq_true. eauto. }
  by rewrite Hall in Hd.
Qed.

(** X9: with a library that accepts every declaration, [generateGraph]
    returns the graph text when every node id has at least three bytes,
    and panics at the slice [node[0:3]] as soon as one id is shorter. *)
Theorem generateGraph_short_id_panics
    (G : gographviz.API) (rt : MapRange) (data : GraphData) :
  neverFails G ->
  ((forall xDS name id, xDS ∈ nodes data -> xDS !! name = Some id ->
      3 <= String.length id) ->
   exists dot, generateGraph G rt data = Ok dot)
  /\ ((exists xDS name id, xDS ∈ nodes data /\ xDS !! name = Some id
                           /\ String.length id < 3) ->
      generateGraph G rt data = Panic).
Proof.
  intros HG. split; [by apply generateGraph_long_ids|].
  rewrite generateGraph_render.
  pose proof (render_decides G (statements rt data) HG) as Hd.
  intros (xDS & name & id & Hx & Hid & Hshort).
  assert (forallb sliceable (statements rt data) = false) as Hall.
  { apply not_true_is_false. intros Hall.
    rewrite forallb_forall in Hall.
    specialize (Hall (NodeStmt name id)). simpl in Hall.
    rewrite bool_decide_eq_true in Hall.
    assert (3 <= String.length id); [|lia].
    apply Hall, list_elem_of_In, elem_of_statements_node. eauto. }
  by rewrite Hall in Hd.
Qed.

Lemma generateGraph_short_id_panics_witness :
  generateGraph declLog goOrder
    {| nodes := [{["L1" := "L0"]}]; relations := [] |} = Panic.
Proof.
  apply (generateGraph_short_id_panics declLog goOrder
           {| nodes := [{["L1" := "L0"]}]; relations := [] |}
           declLog_neverFails).
  exists {["L1" := "L0"]}, "L1", "L0".
  split; [by left|]. split; [by vm_compute|]. simpl. lia.
Defined.

Lemma idOf_length p id : idOf p id -> String.length p <= String.length id.
Proof.
  intros [n ->]. induction p as [|a p IH]; simpl; lia.
Qed.

(** X10: extraction and rendering compose: on a graph returned by
    [parseXdsRelationship] the slice never panics, so with a library
    that accepts every declaration [generateGraph] returns the text. *)
Theorem extracted_graph_renders
    (G : gographviz.API) (rt : MapRange) (data : object) (g : GraphData) :
  neverFails G ->
  parseXdsRelationship (inr data) = Ok g ->
  exists dot, generateGraph G rt g = Ok dot.
Proof.
  intros HG (st & [Hl Hr Hc _ _] & ->)%parseXdsRelationship_wf.
  apply (generateGraph_long_ids G rt _ HG).
  intros xDS name id Hx Hid. simpl in Hx.
  apply elem_of_cons in Hx as [->|Hx];
    [|apply elem_of_cons in Hx as [->|Hx];
      [|apply list_elem_of_singleton in Hx as ->]].
  - apply (idOf_length "LDS"), (Hl name id Hid).
  - apply (idOf_length "RDS"), (Hr name id Hid).
  - apply (idOf_length "CDS"), (Hc name id Hid).
Qed.

Lemma extracted_graph_renders_witness :
  exists g dot,
    parseXdsRelationship (inr ex_snapshot) = Ok g
    /\ generateGraph declLog goOrder g = Ok dot.
Proof.
  eexists _. 
  destruct (extracted_graph_renders declLog goOrder ex_snapshot _
              declLog_neverFails eq_refl) as [dot Hdot].
  exists dot. split; [reflexivity|exact Hdot].
Defined.

(** ** The viewer, the file and the console *)

Definition viewerURL (dot : string) : string :=
  "http://dreampuf.github.io/GraphvizOnline/#" ++ dot.

Definition confirmation : string :=
  "Config graph has been saved to config_graph.dot" ++ newline.

Lemma substring_all s : substring 0 (String.length s) s = s.
Proof. induction s as [|a s IH]; simpl; [done|]. by rewrite IH. Qed.

(** [openBrowser] leaves files and console alone, and on success has
    started one process whose last argument is the URL. *)
Lemma openBrowser_frame (os : OS) (url : string) (w : World) :
  files (openBrowser os url w).1 = files w
  /\ stdout (openBrowser os url w).1 = stdout w
  /\ ((openBrowser os url w).2 = None ->
      exists name args,
        started (openBrowser os url w).1 = (started w ++ [(name, args)])%list
        /\ last args = Some url).
Proof.
  unfold openBrowser, start.
  repeat match goal with
         | |- context [if ?b then _ else _] => destruct b
         | |- context [match Start ?o ?n ?a with _ => _ end] =>
             destruct (Start o n a)
         end; simpl; repeat split; try done; eauto.
Qed.

(** X11: [openBrowser] touches neither files nor console.  It starts
    exactly one process when it returns nil, the opener of the platform
    with the URL as its last argument, and none when it returns an
    error; on a platform other than linux, windows and darwin it returns
    "unsupported platform" without trying to start anything. *)
Theorem openBrowser_effects (os : OS) (url : string) (w : World) :
  files (openBrowser os url w).1 = files w
  /\ stdout (openBrowser os url w).1 = stdout w
  /\ ((openBrowser os url w).2 = None ->
      exists name args,
        started (openBrowser os url w).1 = (started w ++ [(name, args)])%list
        /\ Start os name args = None
        /\ last args = Some url
        /\ ((GOOS os = "linux" /\ name = "xdg-open")
            \/ (GOOS os = "windows" /\ name = "rundll32")
            \/ (GOOS os = "darwin" /\ name = "open")))
  /\ (forall err, (openBrowser os url w).2 = Some err ->
        (openBrowser os url w).1 = w)
  /\ (GOOS os <> "linux" -> GOOS os <> "windows" -> GOOS os <> "darwin" ->
      openBrowser os url w = (w, Some "unsupported platform")).
Proof.
  unfold openBrowser, start.
  destruct (String.eqb_spec (GOOS os) "linux") as [Hl|Hl];
    [|destruct (String.eqb_spec (GOOS os) "windows") as [Hw|Hw];
      [|destruct (String.eqb_spec (GOOS os) "darwin") as [Hd|Hd]]].
  - destruct (Start os "xdg-open" [url]) eqn:Hs; simpl;
      repeat split; try done; eauto 10.
  - destruct (Start os "rundll32" _) eqn:Hs; simpl;
      repeat split; try done; eauto 10.
  - destruct (Start os "open" [url]) eqn:Hs; simpl;
      repeat split; try done; eauto 10.
  - simpl. repeat split; done.
Qed.

Lemma publish_files os dot monitor w name :
  name <> "config_graph.dot" ->
  files (publish os dot monitor w).1 !! name = files w !! name.
Proof.
  intros Hname. unfold publish.
  assert (files (if monitor then (w, None)
                 else openBrowser os
                        ("http://dreampuf.github.io/GraphvizOnline/#" ++ dot) w).1
          = files w) as Hf.
  { destruct monitor; [done|]. apply openBrowser_frame. }
  destruct (if monitor then _ else _) as [w1 [err|]]; simpl in *;
    [by rewrite Hf|].
  destruct (Create os "config_graph.dot"); simpl; [by rewrite Hf|].
  destruct (Write os "config_graph.dot" dot) as [n [err|]]; simpl;
    rewrite !lookup_insert_ne by done; by rewrite Hf.
Qed.

Lemma publish_started os dot w :
  started (publish os dot true w).1 = started w.
Proof.
  unfold publish. destruct (Create os "config_graph.dot"); [done|].
  by destruct (Write os "config_graph.dot" dot) as [n [err|]].
Qed.

(** [visualize] is [publish] after a successful extraction and
    rendering, and returns at once otherwise. *)
Lemma visualize_cases G rt os decoded monitor w :
  (exists g dot,
      parseXdsRelationship decoded = Ok g /\ generateGraph G rt g = Ok dot
      /\ visualize G rt os decoded monitor w = publish os dot monitor w)
  \/ ((visualize G rt os decoded monitor w).1 = w
      /\ (visualize G rt os decoded monitor w).2 <> Ok tt
      /\ forall g dot, parseXdsRelationship decoded = Ok g ->
                       generateGraph G rt g <> Ok dot).
Proof.
  unfold visualize.
  destruct (parseXdsRelationship decoded) as [g| |] eqn:Hp;
    [|right; by repeat split..].
  destruct (generateGraph G rt g) as [dot| |] eqn:Hg;
    [left; by exists g, dot| |];
    right; repeat split; try done; intros g' dot' [= <-]; by rewrite Hg.
Qed.

(** X12: in monitor mode [visualize] never starts a viewer, and in
    every mode the only file it may create or change is
    config_graph.dot. *)
Theorem visualize_confined
    (G : gographviz.API) (rt : MapRange) (os : OS) (decoded : error + object)
    (monitor : bool) (w : World) :
  started (visualize G rt os decoded true w).1 = started w
  /\ forall name, name <> "config_graph.dot" ->
       files (visualize G rt os decoded monitor w).1 !! name = files w !! name.
Proof.
  split.
  - destruct (visualize_cases G rt os decoded true w)
      as [(g & dot & _ & _ & ->)|(-> & _)]; [|done].
    apply publish_started.
  - intros name Hname.
    destruct (visualize_cases G rt os decoded monitor w)
      as [(g & dot & _ & _ & ->)|(-> & _)]; [|done].
    by apply publish_files.
Qed.

(** X13: when extraction or rendering does not produce the graph text,
    [visualize] fails and leaves everything as it was: no file is
    created, nothing is printed and no viewer is started. *)
Theorem visualize_failure_before_output
    (G : gographviz.API) (rt : MapRange) (os : OS) (decoded : error + object)
    (monitor : bool) (w : World) :
  (forall g dot, parseXdsRelationship decoded = Ok g ->
                 generateGraph G rt g <> Ok dot) ->
  (visualize G rt os decoded monitor w).1 = w
  /\ (visualize G rt os decoded monitor w).2 <> Ok tt.
Proof.
  intros Hno.
  destruct (visualize_cases G rt os decoded monitor w)
    as [(g & dot & Hp & Hg & _)|(? & ? & _)]; [|done].
  by destruct (Hno g dot Hp).
Qed.

Lemma visualize_failure_before_output_witness :
  (visualize declLog goOrder headlessLinux
     (inr (json_listenersOnly [namelessListener])) true emptyWorld).1
  = emptyWorld
  /\ (visualize declLog goOrder headlessLinux
        (inr (json_listenersOnly [namelessListener])) true emptyWorld).2
     <> Ok tt.
Proof.
  apply (visualize_failure_before_output declLog goOrder headlessLinux
           (inr (json_listenersOnly [namelessListener])) true emptyWorld).
  intros g dot Hg. discriminate Hg.
Defined.

(** X14: the confirmation line is printed exactly when [visualize]
    returns nil; on every failure the console is left as it was. *)
Theorem confirmation_iff_success
    (G : gographviz.API) (rt : MapRange) (os : OS) (decoded : error + object)
    (monitor : bool) (w : World) :
  match (visualize G rt os decoded monitor w).2 with
  | Ok _ =>
      stdout (visualize G rt os decoded monitor w).1
      = (stdout w ++ [confirmation])%list
  | _ => stdout (visualize G rt os decoded monitor w).1 = stdout w
  end.
Proof.
  destruct (visualize_cases G rt os decoded monitor w)
    as [(g & dot & _ & _ & ->)|(Hw & Hr & _)].
  - unfold publish.
    assert (stdout (if monitor then (w, None)
                    else openBrowser os
                           ("http://dreampuf.github.io/GraphvizOnline/#" ++ dot)
                           w).1 = stdout w) as Hs.
    { destruct monitor; [done|]. apply openBrowser_frame. }
    destruct (if monitor then _ else _) as [w1 [err|]]; simpl in *; [done|].
    destruct (Create os "config_graph.dot"); simpl; [done|].
    destruct (Write os "config_graph.dot" dot) as [n [err|]]; simpl; [done|].
    by rewrite Hs.
  - rewrite Hw. by destruct (visualize G rt os decoded monitor w).2 as [[]| |].
Qed.

(** X15: the successful path.  When extraction and rendering give the
    text [dot], the viewer starts (or monitor mode is on), the file can
    be created and the write takes all of the text, [visualize] returns
    nil, config_graph.dot holds exactly [dot], and outside monitor mode
    the viewer was started on the URL that embeds [dot]. *)
Theorem visualize_success
    (G : gographviz.API) (rt : MapRange) (os : OS) (decoded : error + object)
    (monitor : bool) (w : World) (g : GraphData) (dot : string) :
  parseXdsRelationship decoded = Ok g ->
  generateGraph G rt g = Ok dot ->
  (monitor = false -> (openBrowser os (viewerURL dot) w).2 = None) ->
  Create os "config_graph.dot" = None ->
  Write os "config_graph.dot" dot = (String.length dot, None) ->
  (visualize G rt os decoded monitor w).2 = Ok tt
  /\ files (visualize G rt os decoded monitor w).1 !! "config_graph.dot"
     = Some dot
  /\ (monitor = false ->
      exists name args,
        started (visualize G rt os decoded monitor w).1
        = (started w ++ [(name, args)])%list
        /\ last args = Some (viewerURL dot)).
Proof.
  intros Hp Hg Hb Hc Hw. unfold visualize. rewrite Hp, Hg. unfold publish.
  fold (viewerURL dot). rewrite Hc, Hw.
  destruct monitor.
  - simpl. rewrite lookup_insert_eq, substring_all. by repeat split.
  - specialize (Hb eq_refl).
    destruct (openBrowser_frame os (viewerURL dot) w)
      as (_ & _ & Hs). specialize (Hs Hb).
    destruct (openBrowser os (viewerURL dot) w) as [w1 r]. simpl in *.
    subst r. simpl. rewrite lookup_insert_eq, substring_all.
    split; [done|]. split; [done|]. intros _.
    destruct Hs as (name & args & Hs & Hl). eauto.
Qed.

Lemma visualize_success_witness :
  exists g dot,
    parseXdsRelationship (inr ex_snapshot) = Ok g
    /\ generateGraph declLog goOrder g = Ok dot
    /\ files (visualize declLog goOrder headlessLinux (inr ex_snapshot) true
                emptyWorld).1 !! "config_graph.dot" = Some dot.
Proof.
  eexists _, _. split; [reflexivity|]. split; [reflexivity|].
  eapply (visualize_success declLog goOrder headlessLinux (inr ex_snapshot)
            true emptyWorld).
  - reflexivity.
  - reflexivity.
  - intros Hm. discriminate Hm.
  - reflexivity.
  - reflexivity.
Defined.

(** ** The summary of a whole response *)

Section ResponseFacts.

Context {ConfigStatus CD LD RD SD ClientOptions : Type}.
Variable ConfigStatus_String : ConfigStatus -> string.
Variable printDetailedConfig :
  ClientStatusResponse ConfigStatus CD LD RD SD -> ClientOptions
  -> list output * outcome unit.

Implicit Types (config : ClientConfig ConfigStatus CD LD RD SD)
  (configs : list (ClientConfig ConfigStatus CD LD RD SD)).

(** The client entry has a (non-nil) list of config entries. *)
Definition hasConfig config : bool :=
  if GetXdsConfig config is Some _ then true else false.

(** The rows of one client entry. *)
Definition clientRows config : list output :=
  (printClient ConfigStatus_String config false).1.

(** Id and stream type can be read without a panic. *)
Definition readable config : Prop :=
  exists idType, clientIdAndType config = Ok idType.

Definition header : output :=
  Printf rowFormat ["Client ID"; "xDS stream type"; "Config Status"].

Lemma printClient_readable config h :
  readable config ->
  printClient ConfigStatus_String config h
  = (clientRows config, Ok (h || hasConfig config)).
Proof.
  intros [[id ty] Hid]. unfold clientRows, printClient, hasConfig.
  rewrite Hid. destruct (GetXdsConfig config); simpl.
  - by rewrite orb_true_r.
  - by rewrite orb_false_r.
Qed.

Lemma printClients_readable configs h :
  Forall readable configs ->
  printClients ConfigStatus_String configs h
  = (flat_map clientRows configs, Ok (h || existsb hasConfig configs)).
Proof.
  intros Hall. revert h.
  induction Hall as [|c cs Hc _ IH]; intros h; simpl.
  - by rewrite orb_false_r.
  - rewrite (printClient_readable c h Hc), IH. by rewrite orb_assoc.
Qed.

Lemma printClient_unreadable config h :
  clientIdAndType config = Panic ->
  printClient ConfigStatus_String config h = ([], Panic).
Proof. intros Hid. unfold printClient. by rewrite Hid. Qed.

Lemma printClients_panic pre config post h :
  Forall readable pre -> clientIdAndType config = Panic ->
  printClients ConfigStatus_String (pre ++ config :: post)%list h
  = (flat_map clientRows pre, Panic).
Proof.
  intros Hpre Hc. revert h.
  induction Hpre as [|c cs Hr _ IH]; intros h; simpl.
  - by rewrite (printClient_unreadable config h Hc).
  - by rewrite (printClient_readable c h Hr), IH.
Qed.

(** X16: for a response with client entries, the summary prints the
    header and the rows of the clients in order, and goes on to the
    detailed configuration exactly when at least one client entry has a
    list of config entries; otherwise it returns nil after the rows. *)
Theorem detailed_config_iff_entries configs opts :
  configs <> [] ->
  Forall readable configs ->
  printOutResponse_v2 ConfigStatus_String printDetailedConfig
    {| GetConfig := Some configs |} opts
  = if existsb hasConfig configs
    then ((header :: flat_map clientRows configs
           ++ (printDetailedConfig {| GetConfig := Some configs |} opts).1)%list,
          (printDetailedConfig {| GetConfig := Some configs |} opts).2)
    else (header :: flat_map clientRows configs, Ok tt).
Proof.
  intros Hne Hall. unfold printOutResponse_v2. simpl.
  destruct configs as [|c cs]; [done|].
  rewrite (printClients_readable (c :: cs) false Hall).
  rewrite orb_false_l.
  destruct (existsb hasConfig (c :: cs)); [|done].
  by destruct (printDetailedConfig _ opts).
Qed.

(** X17: a client whose metadata value XDS_STREAM_TYPE is present but
    not a string makes the summary panic at the type assertion: the
    header and the rows of the clients before it have been printed, the
    rows of the later clients and the detailed configuration are not. *)
Theorem stream_type_not_a_string_panics pre config post node v opts :
  Forall readable pre ->
  GetNode config = Some node ->
  index (GetMetadata node) "XDS_STREAM_TYPE" = v ->
  v <> Nil ->
  (forall s, v <> Str s) ->
  printOutResponse_v2 ConfigStatus_String printDetailedConfig
    {| GetConfig := Some (pre ++ config :: post)%list |} opts
  = (header :: flat_map clientRows pre, Panic).
Proof.
  intros Hpre Hnode Hv Hnil Hstr.
  assert (clientIdAndType config = Panic) as Hc.
  { unfold clientIdAndType. rewrite Hnode, Hv.
    destruct v; try done. by destruct (Hstr s). }
  unfold printOutResponse_v2. simpl.
  destruct (pre ++ config :: post)%list as [|c cs] eqn:E.
  { by destruct pre. }
  rewrite <- E. by rewrite (printClients_panic pre config post false Hpre Hc).
Qed.

End ResponseFacts.

Definition syncedClient : ClientConfig ConfigStatus_v2 unit unit unit unit :=
  {| GetNode := Some {| GetId := "client-2"; GetMetadata := [] |};
     GetXdsConfig := Some [staleCluster] |}.

Definition numberedClient : ClientConfig ConfigStatus_v2 unit unit unit unit :=
  {| GetNode := Some {| GetId := "client-3";
                        GetMetadata := [("XDS_STREAM_TYPE", Number 2)] |};
     GetXdsConfig := None |}.

(** A detailed printer that prints one line. *)
Definition oneLineDetail
    (response : ClientStatusResponse ConfigStatus_v2 unit unit unit unit)
    (opts : unit) : list output * outcome unit :=
  ([Printf "detail" []], Ok tt).

Lemma detailed_config_iff_entries_witness :
  printOutResponse_v2 ConfigStatus_v2_String oneLineDetail
    {| GetConfig := Some [unsyncedClient; syncedClient] |} tt
  = ([header;
      Printf rowFormat ["client-1"; "ADS"; "N/A"];
      Printf "%-50s %-30s " ["client-2"; EmptyString];
      Printf ("%-30s " ++ newline) ["CDS   STALE"];
      Printf "detail" []],
     Ok tt).
Proof.
  rewrite (detailed_config_iff_entries ConfigStatus_v2_String oneLineDetail
             [unsyncedClient; syncedClient] tt).
  - reflexivity.
  - discriminate.
  - repeat constructor; by eexists.
Defined.

Lemma stream_type_not_a_string_panics_witness :
  printOutResponse_v2 ConfigStatus_v2_String oneLineDetail
    {| GetConfig := Some [unsyncedClient; numberedClient; syncedClient] |} tt
  = ([header; Printf rowFormat ["client-1"; "ADS"; "N/A"]], Panic).
Proof.
  apply (stream_type_not_a_string_panics ConfigStatus_v2_String oneLineDetail
           [unsyncedClient] numberedClient [syncedClient]
           {| GetId := "client-3";
              GetMetadata := [("XDS_STREAM_TYPE", Number 2)] |}
           (Number 2) tt).
  - repeat constructor. by eexists.
  - reflexivity.
  - reflexivity.
  - discriminate.
  - discriminate.
Defined.

(** * The request: node matchers and client construction *)

(** ** client/util.go: node matchers *)

(** The messages of envoy/type/matcher that the client reads, by what
    their nil-safe getters return.  A oneof keeps the variant the client
    looks at and one constructor for all the others. *)
Module matcher.

Inductive StringMatcher :=
| Exact (s : string)
| OtherPattern.

Inductive ValueMatcher :=
| StringMatch (m : StringMatcher)
| OtherValue.

Inductive PathSegment :=
| Key (k : string)
| OtherSegment.

Record StructMatcher := {
  Path : list PathSegment;
  Value : option ValueMatcher
}.

Record NodeMatcher := {
  NodeId : option StringMatcher;
  NodeMetadatas : list StructMatcher
}.

Definition GetKey (seg : PathSegment) : string :=
  match seg with Key k => k | OtherSegment => EmptyString end.

Definition GetStringMatch (v : option ValueMatcher) : option StringMatcher :=
  match v with Some (StringMatch m) => Some m | _ => None end.

Definition GetExact (m : option StringMatcher) : string :=
  match m with Some (Exact s) => s | _ => EmptyString end.

End matcher.

Import matcher.

(** A loop that returns from the function at the first element for which
    its body does. *)
Fixpoint firstReturn {A B} (body : A -> option B) (xs : list A) : option B :=
  match xs with
  | [] => None
  | x :: xs' =>
      match body x with
      | Some b => Some b
      | None => firstReturn body xs'
      end
  end.

(** [for _, path := range mt.Path { if path.GetKey() == key { return ... } }] *)
Definition pathReturn (key : string) (mt : StructMatcher) : option string :=
  firstReturn
    (fun seg => if String.eqb (GetKey seg) key
                then Some (GetExact (GetStringMatch (Value mt))) else None)
    (Path mt).

(** [getValueByKeyFromNodeMatcher(nms, key)] *)
Definition getValueByKeyFromNodeMatcher (nms : list NodeMatcher)
    (key : string) : string :=
  default EmptyString
    (firstReturn
       (fun nm => firstReturn (pathReturn key) (NodeMetadatas nm)) nms).

(** ** client/util.go: reading the request *)

(** What [parseYaml] obtains from outside: [filepath.Abs],
    [ioutil.ReadFile], [yaml.YAMLToJSON], [json.Unmarshal] into a
    [map[string]interface{}], the result of [isJson] (whether Go's JSON
    decoder reads the text to its end), [json.Marshal],
    [protojson.Unmarshal] into a fresh NodeMatcher and [proto.Merge]. *)
Record Decoders := {
  Abs : string -> error + string;
  ReadFile : string -> error + string;
  YAMLToJSON : string -> error + string;
  json_Unmarshal : string -> error + object;
  isJson : string -> bool;
  json_Marshal : value -> error + string;
  protojson_Unmarshal : string -> error + NodeMatcher;
  proto_Merge : NodeMatcher -> NodeMatcher -> NodeMatcher
}.

(** [v, err := f(...); if err != nil { return err }] *)
Definition try {A} (r : error + A) : outcome A :=
  match r with inl err => Err err | inr a => Ok a end.

(** The node matcher of one decoded JSON object. *)
Definition toNodeMatcher (D : Decoders) (n : value) : outcome NodeMatcher :=
  jsonString ← try (json_Marshal D n);
  try (protojson_Unmarshal D jsonString).

(** Body of the loop over the matchers of the request file. *)
Definition appendMatcher (D : Decoders) (n : value) (nms : list NodeMatcher)
  : outcome (list NodeMatcher) :=
  x ← toNodeMatcher D n;
  Ok (nms ++ [x])%list.

(** Body of the loop over the matchers of the request string. *)
Definition mergeMatcher (D : Decoders) (i : nat) (n : value)
    (nms : list NodeMatcher) : outcome (list NodeMatcher) :=
  x ← toNodeMatcher D n;
  match nms !! i with
  | Some nm => Ok (<[i := proto_Merge D nm x]> nms)
  | None => Ok (nms ++ [x])%list
  end.

(** The block [if path != ""]. *)
Definition fromFile (D : Decoders) (path : string) (nms : list NodeMatcher)
  : outcome (list NodeMatcher) :=
  filename ← try (Abs D path);
  yamlFile ← try (ReadFile D filename);
  js ← try (YAMLToJSON D yamlFile);
  data ← try (json_Unmarshal D js);
  matchers ← asArr (index data "node_matchers");
  forEach (appendMatcher D) matchers nms.

(** The block [if yamlStr != ""]. *)
Definition fromString (D : Decoders) (yamlStr : string)
    (nms : list NodeMatcher) : outcome (list NodeMatcher) :=
  js ← (if isJson D yamlStr then Ok yamlStr else try (YAMLToJSON D yamlStr));
  data ← try (json_Unmarshal D js);
  matchers ← asArr (index data "node_matchers");
  forIdx (mergeMatcher D) 0 matchers nms.

(** [parseYaml(path, yamlStr, &nms)]: the matchers left in [*nms] when it
    returns nil. *)
Definition parseYaml (D : Decoders) (path yamlStr : string)
    (nms : list NodeMatcher) : outcome (list NodeMatcher) :=
  nms ← (if String.eqb path EmptyString then Ok nms else fromFile D path nms);
  if String.eqb yamlStr EmptyString then Ok nms else fromString D yamlStr nms.

(** ** client/clientV2.go: construction *)

(** The fields of [ClientOptions] that clientV2.go reads;
    [MonitorInterval] is a [time.Duration], in nanoseconds. *)
Record ClientOptions := {
  Uri : string;
  Platform : string;
  AuthnMode : string;
  ApiVersion : string;
  RequestFile : string;
  RequestYaml : string;
  Jwt : string;
  MonitorInterval : Z
}.

(** How a connection was dialled: the target and the per-RPC
    credentials (service account file or application default, with the
    scope). *)
Inductive PerRPCCredentials :=
| ServiceAccountFromFile (keyFile scope : string)
| ApplicationDefault (scope : string).

Record ClientConn := {
  target : string;
  perRPC : PerRPCCredentials
}.

(** [struct ClientV2] without the stub [csdsClient]; a nil [clientConn]
    or [metadata] is [None]. *)
Record ClientV2 := {
  clientConn : option ClientConn;
  nodeMatcher : list NodeMatcher;
  metadata : option (gmap string (list string));
  opts : ClientOptions
}.

Definition unsupportedPlatform (platform : string) : error :=
  platform ++ " platform is not supported, list of supported platforms: gcp".

(** The loop over the required keys of the gcp platform. *)
Fixpoint requireKeys (nms : list NodeMatcher) (keys : list string)
  : outcome unit :=
  match keys with
  | [] => Ok tt
  | key :: keys' =>
      if String.eqb (getValueByKeyFromNodeMatcher nms key) EmptyString
      then Err ("missing field " ++ key ++ " in NodeMatcher")
      else requireKeys nms keys'
  end.

(** [(c *ClientV2) parseNodeMatcher()]: the client as the method leaves
    it when it returns nil. *)
Definition parseNodeMatcher (D : Decoders) (c : ClientV2) : outcome ClientV2 :=
  if String.eqb (RequestFile (opts c)) EmptyString
     && String.eqb (RequestYaml (opts c)) EmptyString
  then Err "missing request yaml"
  else
    nodematchers ← parseYaml D (RequestFile (opts c)) (RequestYaml (opts c)) [];
    let c := {| clientConn := clientConn c; nodeMatcher := nodematchers;
                metadata := metadata c; opts := opts c |} in
    if String.eqb (Platform (opts c)) "gcp" then
      _ ← requireKeys (nodeMatcher c)
            ["TRAFFICDIRECTOR_GCP_PROJECT_NUMBER";
             "TRAFFICDIRECTOR_NETWORK_NAME"];
      Ok c
    else Err (unsupportedPlatform (Platform (opts c))).

(** [NewV2(option)] *)
Definition NewV2 (D : Decoders) (option : ClientOptions) : outcome ClientV2 :=
  let c := {| clientConn := None; nodeMatcher := []; metadata := None;
              opts := option |} in
  if negb (String.eqb (Platform (opts c)) "gcp") then
    Err (unsupportedPlatform (Platform (opts c)))
  else if negb (String.eqb (ApiVersion (opts c)) "v2") then
    Err (ApiVersion (opts c)
         ++ " api version is not supported, list of supported api versions: v2")
  else parseNodeMatcher D c.

(** What [connWithAuth] obtains from outside: the results of
    [x509.SystemCertPool], [oauth.NewServiceAccountFromFile],
    [oauth.NewApplicationDefault] and [grpc.Dial] (nil error: [None]). *)
Record Network := {
  SystemCertPool : option error;
  NewServiceAccountFromFile : string -> string -> option error;
  NewApplicationDefault : string -> option error;
  Dial : string -> PerRPCCredentials -> option error
}.

Definition check (r : option error) : outcome unit :=
  match r with Some err => Err err | None => Ok tt end.

Definition cloudPlatformScope : string :=
  "https://www.googleapis.com/auth/cloud-platform".

Definition withConn (c : ClientV2) (conn : ClientConn)
    (md : option (gmap string (list string))) : ClientV2 :=
  {| clientConn := Some conn; nodeMatcher := nodeMatcher c; metadata := md;
     opts := opts c |}.

(** [(c *ClientV2) connWithAuth()]: the client as the method leaves it
    when it returns nil. *)
Definition connWithAuth (N : Network) (c : ClientV2) : outcome ClientV2 :=
  if String.eqb (AuthnMode (opts c)) "jwt" then
    if String.eqb (Jwt (opts c)) EmptyString then Err "missing jwt file"
    else if String.eqb (Platform (opts c)) "gcp" then
      let scope := cloudPlatformScope in
      _ ← check (SystemCertPool N);
      _ ← check (NewServiceAccountFromFile N (Jwt (opts c)) scope);
      let perRPC := ServiceAccountFromFile (Jwt (opts c)) scope in
      _ ← check (Dial N (Uri (opts c)) perRPC);
      Ok (withConn c {| target := Uri (opts c); perRPC := perRPC |}
            (metadata c))
    else Err (unsupportedPlatform (Platform (opts c)))
  else if String.eqb (AuthnMode (opts c)) "auto" then
    if String.eqb (Platform (opts c)) "gcp" then
      let scope := cloudPlatformScope in
      _ ← check (SystemCertPool N);
      _ ← check (NewApplicationDefault N scope);
      let perRPC := ApplicationDefault scope in
      let key :=
        if String.eqb (Uri (opts c)) "trafficdirector.googleapis.com:443"
        then "TRAFFICDIRECTOR_GCP_PROJECT_NUMBER" else EmptyString in
      let projectNum := getValueByKeyFromNodeMatcher (nodeMatcher c) key in
      let md :=
        if negb (String.eqb projectNum EmptyString)
        then Some {["x-goog-user-project" := [projectNum]]}
        else metadata c in
      _ ← check (Dial N (Uri (opts c)) perRPC);
      Ok (withConn c {| target := Uri (opts c); perRPC := perRPC |} md)
    else Err "auto authentication mode for this platform is not supported. Please use jwt_file instead"
  else Err "invalid authn_mode".

(** ** Looking up a metadata key *)

Section FirstReturn.

Context {A B : Type}.
Implicit Types (body : A -> option B) (xs : list A).

Lemma firstReturn_skip body pre xs :
  Forall (fun x => body x = None) pre ->
  firstReturn body (pre ++ xs)%list = firstReturn body xs.
Proof. induction 1 as [|x pre Hx _ IH]; simpl; [done|]. by rewrite Hx. Qed.

Lemma firstReturn_None body xs :
  Forall (fun x => body x = None) xs -> firstReturn body xs = None.
Proof. induction 1 as [|x pre Hx _ IH]; simpl; [done|]. by rewrite Hx. Qed.

Lemma firstReturn_Some body xs b :
  firstReturn body xs = Some b -> exists x, x ∈ xs /\ body x = Some b.
Proof.
  induction xs as [|x xs IH]; simpl; [done|].
  destruct (body x) as [b'|] eqn:Hx.
  - intros [= ->]. exists x. split; [by left|done].
  - intros (y & Hy & Hb)%IH. exists y. split; [by right|done].
Qed.

End FirstReturn.

(** Some path segment of the metadata matcher has the key. *)
Definition names (key : string) (mt : StructMatcher) : Prop :=
  exists seg, seg ∈ Path mt /\ GetKey seg = key.

(** The exact string the metadata matcher asks for, or the empty string
    when it does not match a string exactly. *)
Definition exactValue (mt : StructMatcher) : string :=
  GetExact (GetStringMatch (Value mt)).

Lemma pathReturn_names key mt :
  names key mt -> pathReturn key mt = Some (exactValue mt).
Proof.
  intros (seg & Hin & Hk). unfold pathReturn.
  induction (Path mt) as [|s segs IH]; [by apply elem_of_nil in Hin|].
  simpl. destruct (String.eqb_spec (GetKey s) key) as [|Hne]; [done|].
  apply elem_of_cons in Hin as [->|Hin]; [done|]. by apply IH.
Qed.

Lemma pathReturn_not_names key mt :
  ~ names key mt -> pathReturn key mt = None.
Proof.
  intros Hn. unfold pathReturn. apply firstReturn_None, Forall_forall.
  intros seg Hin. destruct (String.eqb_spec (GetKey seg) key); [|done].
  destruct Hn. by exists seg.
Qed.

Lemma pathReturn_Some key mt v :
  pathReturn key mt = Some v -> names key mt /\ v = exactValue mt.
Proof.
  intros (seg & Hin & Hb)%firstReturn_Some.
  destruct (String.eqb_spec (GetKey seg) key); [|done].
  injection Hb as <-. split; [by exists seg|done].
Qed.

(** X18: the lookup returns the value of the first metadata matcher, in
    the order of the node matchers and of their metadata matchers, one
    of whose path segments has the key, and looks no further: if that
    matcher does not ask for an exact string the result is empty, even
    when a later matcher of the same key does. *)
Theorem getValueByKey_first_match
    (pre post : list NodeMatcher) (nm : NodeMatcher)
    (mpre mpost : list StructMatcher) (mt : StructMatcher) (key : string) :
  Forall (fun nm => Forall (fun mt => ~ names key mt) (NodeMetadatas nm)) pre ->
  NodeMetadatas nm = (mpre ++ mt :: mpost)%list ->
  Forall (fun mt => ~ names key mt) mpre ->
  names key mt ->
  getValueByKeyFromNodeMatcher (pre ++ nm :: post)%list key = exactValue mt.
Proof.
  intros Hpre Hnm Hmpre Hmt. unfold getValueByKeyFromNodeMatcher.
  rewrite firstReturn_skip.
  - simpl. rewrite Hnm, firstReturn_skip.
    + simpl. by rewrite (pathReturn_names key mt Hmt).
    + eapply Forall_impl; [exact Hmpre|]. intros ?. apply pathReturn_not_names.
  - eapply Forall_impl; [exact Hpre|]. intros nm' Hall. simpl.
    apply firstReturn_None. eapply Forall_impl; [exact Hall|].
    intros ?. apply pathReturn_not_names.
Qed.

Definition projectMatcher (v : option ValueMatcher) : StructMatcher :=
  {| Path := [Key "TRAFFICDIRECTOR_GCP_PROJECT_NUMBER"]; Value := v |}.

Definition networkMatcher : StructMatcher :=
  {| Path := [Key "TRAFFICDIRECTOR_NETWORK_NAME"];
     Value := Some (StringMatch (Exact "default")) |}.

Lemma getValueByKey_first_match_witness :
  getValueByKeyFromNodeMatcher
    [ {| NodeId := None; NodeMetadatas := [networkMatcher] |};
      {| NodeId := None;
         NodeMetadatas := [networkMatcher; projectMatcher (Some OtherValue);
                           projectMatcher (Some (StringMatch (Exact "123")))] |} ]
    "TRAFFICDIRECTOR_GCP_PROJECT_NUMBER"
  = EmptyString.
Proof.
  apply (getValueByKey_first_match
           [ {| NodeId := None; NodeMetadatas := [networkMatcher] |} ] []
           {| NodeId := None;
              NodeMetadatas := [networkMatcher; projectMatcher (Some OtherValue);
                                projectMatcher (Some (StringMatch (Exact "123")))] |}
           [networkMatcher]
           [projectMatcher (Some (StringMatch (Exact "123")))]
           (projectMatcher (Some OtherValue))).
  - repeat constructor. intros (seg & Hin & Hk). simpl in Hin.
    apply list_elem_of_singleton in Hin as ->. discriminate Hk.
  - reflexivity.
  - repeat constructor. intros (seg & Hin & Hk). simpl in Hin.
    apply list_elem_of_singleton in Hin as ->. discriminate Hk.
  - exists (Key "TRAFFICDIRECTOR_GCP_PROJECT_NUMBER"). split; [by left|done].
Defined.

(** X19: a non-empty result is the exact string of a metadata matcher
    of the request that names the key; when no metadata matcher names
    the key the result is empty. *)
Theorem getValueByKey_sound (nms : list NodeMatcher) (key : string) :
  (getValueByKeyFromNodeMatcher nms key <> EmptyString ->
   exists nm mt,
     nm ∈ nms /\ mt ∈ NodeMetadatas nm /\ names key mt
     /\ Value mt
        = Some (StringMatch (Exact (getValueByKeyFromNodeMatcher nms key))))
  /\ ((forall nm mt, nm ∈ nms -> mt ∈ NodeMetadatas nm -> ~ names key mt) ->
      getValueByKeyFromNodeMatcher nms key = EmptyString).
Proof.
  unfold getValueByKeyFromNodeMatcher. split.
  - destruct (firstReturn _ nms) as [v|] eqn:Hf; simpl; [|done].
    intros Hv. apply firstReturn_Some in Hf as (nm & Hnm & Hf).
    apply firstReturn_Some in Hf as (mt & Hmt & Hf).
    apply pathReturn_Some in Hf as [Hn ->].
    exists nm, mt. repeat split; try done.
    unfold exactValue in *.
    destruct (Value mt) as [[[s|]|]|]; simpl in *; done.
  - intros Hno. rewrite firstReturn_None; [done|].
    apply Forall_forall. intros nm Hnm. apply firstReturn_None, Forall_forall.
    intros mt Hmt. apply pathReturn_not_names. by apply (Hno nm mt).
Qed.

(** ** Merging the request string into the request file *)

(** The list after the merge loop has run over the matchers [xs] from
    index [i] on. *)
Fixpoint mergeFrom (merge : NodeMatcher -> NodeMatcher -> NodeMatcher)
    (i : nat) (xs nms : list NodeMatcher) : list NodeMatcher :=
  match xs with
  | [] => nms
  | x :: xs' =>
      mergeFrom merge (S i) xs'
        (match nms !! i with
         | Some nm => <[i := merge nm x]> nms
         | None => (nms ++ [x])%list
         end)
  end.

(** Position by position: both present, only the file's, only the
    string's. *)
Definition mergedAt (merge : NodeMatcher -> NodeMatcher -> NodeMatcher)
    (f y : option NodeMatcher) : option NodeMatcher :=
  match f, y with
  | Some f, Some y => Some (merge f y)
  | Some f, None => Some f
  | None, y => y
  end.

Lemma mergeFrom_lookup merge xs i (nms : list NodeMatcher) j :
  i <= length nms ->
  mergeFrom merge i xs nms !! j
  = if decide (j < i) then nms !! j
    else mergedAt merge (nms !! j) (xs !! (j - i)).
Proof.
  revert i nms. induction xs as [|x xs IH]; intros i nms Hi; simpl.
  - case_decide; [done|]. rewrite lookup_nil. by destruct (nms !! j).
  - destruct (nms !! i) as [nm|] eqn:Hnm.
    + rewrite IH by (rewrite length_insert; apply lookup_lt_Some in Hnm; lia).
      destruct (decide (j = i)) as [->|Hji].
      * rewrite decide_True by lia. rewrite decide_False by lia.
        rewrite list_lookup_insert_eq by (by apply lookup_lt_Some in Hnm).
        by rewrite Hnm, Nat.sub_diag.
      * rewrite list_lookup_insert_ne by done.
        repeat case_decide; try lia; [done|].
        by replace (j - i) with (S (j - S i)) by lia.
    + apply lookup_ge_None in Hnm. assert (i = length nms) as -> by lia.
      rewrite IH by (rewrite length_app; simpl; lia).
      destruct (decide (j = length nms)) as [->|Hji].
      * rewrite decide_True by lia. rewrite decide_False by lia.
        rewrite list_lookup_middle by done.
        rewrite (proj2 (lookup_ge_None nms (length nms))) by lia.
        by rewrite Nat.sub_diag.
      * repeat case_decide; try lia.
        -- by rewrite lookup_app_l by lia.
        -- rewrite (proj2 (lookup_ge_None (nms ++ [x]) j))
             by (rewrite length_app; simpl; lia).
           rewrite (proj2 (lookup_ge_None nms j)) by lia. simpl.
           by replace (j - length nms) with (S (j - S (length nms))) by lia.
Qed.

Lemma mergeFrom_length merge xs i (nms : list NodeMatcher) :
  i <= length nms ->
  length (mergeFrom merge i xs nms) = max (length nms) (i + length xs).
Proof.
  revert i nms. induction xs as [|x xs IH]; intros i nms Hi; simpl; [lia|].
  destruct (nms !! i) as [nm|] eqn:Hnm.
  - apply lookup_lt_Some in Hnm.
    rewrite IH by (rewrite length_insert; lia). rewrite length_insert. lia.
  - apply lookup_ge_None in Hnm.
    rewrite IH by (rewrite length_app; simpl; lia).
    rewrite length_app. simpl. lia.
Qed.

Section ParseYaml.

Variable D : Decoders.

(** Each decoded object converts to the node matcher next to it. *)
Definition converts (ns : list value) (xs : list NodeMatcher) : Prop :=
  Forall2 (fun n x => toNodeMatcher D n = Ok x) ns xs.

(** The request file decodes to the node matchers [fs]; no file, no
    matchers. *)
Definition fileMatchers (path : string) (fs : list NodeMatcher) : Prop :=
  if decide (path = EmptyString) then fs = []
  else exists filename yamlFile js data ns,
      Abs D path = inr filename /\ ReadFile D filename = inr yamlFile
      /\ YAMLToJSON D yamlFile = inr js /\ json_Unmarshal D js = inr data
      /\ index data "node_matchers" = Arr ns /\ converts ns fs.

(** The request string decodes to the node matchers [ys]. *)
Definition stringMatchers (yamlStr : string) (ys : list NodeMatcher) : Prop :=
  if decide (yamlStr = EmptyString) then ys = []
  else exists js data ns,
      (if isJson D yamlStr then js = yamlStr
       else YAMLToJSON D yamlStr = inr js)
      /\ json_Unmarshal D js = inr data
      /\ index data "node_matchers" = Arr ns /\ converts ns ys.

Lemma forEach_appendMatcher ns xs nms :
  converts ns xs -> forEach (appendMatcher D) ns nms = Ok (nms ++ xs)%list.
Proof.
  intros Hc. revert nms.
  induction Hc as [|n x ns xs Hn _ IH]; intros nms; simpl.
  - by rewrite app_nil_r.
  - unfold appendMatcher at 1. rewrite Hn. simpl. rewrite IH.
    by rewrite <- app_assoc.
Qed.

Lemma forIdx_mergeMatcher ns xs i nms :
  converts ns xs ->
  forIdx (mergeMatcher D) i ns nms = Ok (mergeFrom (proto_Merge D) i xs nms).
Proof.
  intros Hc. revert i nms.
  induction Hc as [|n x ns xs Hn _ IH]; intros i nms; simpl; [done|].
  unfold mergeMatcher at 1. rewrite Hn. simpl.
  destruct (nms !! i); simpl; apply IH.
Qed.

Lemma fromFile_matchers path fs nms :
  path <> EmptyString -> fileMatchers path fs ->
  fromFile D path nms = Ok (nms ++ fs)%list.
Proof.
  intros Hp Hf. unfold fileMatchers in Hf. rewrite decide_False in Hf by done.
  destruct Hf as (filename & yamlFile & js & data & ns
                  & Ha & Hr & Hy & Hu & Hi & Hc).
  unfold fromFile. rewrite Ha. simpl. rewrite Hr. simpl. rewrite Hy. simpl.
  rewrite Hu. simpl. rewrite Hi. simpl. by apply forEach_appendMatcher.
Qed.

Lemma fromString_matchers yamlStr ys nms :
  yamlStr <> EmptyString -> stringMatchers yamlStr ys ->
  fromString D yamlStr nms = Ok (mergeFrom (proto_Merge D) 0 ys nms).
Proof.
  intros Hp Hs. unfold stringMatchers in Hs.
  rewrite decide_False in Hs by done.
  destruct Hs as (js & data & ns & Hj & Hu & Hi & Hc).
  unfold fromString.
  assert ((if isJson D yamlStr then Ok yamlStr
           else try (YAMLToJSON D yamlStr)) = Ok js) as ->.
  { destruct (isJson D yamlStr); [by subst|]. by rewrite Hj. }
  simpl. rewrite Hu. simpl. rewrite Hi. simpl. by apply forIdx_mergeMatcher.
Qed.

(** X20: the request string is merged into the request file position by
    position.  The i-th matcher of the result is the i-th matcher of the
    file merged with the i-th matcher of the string when both exist, and
    otherwise the one that exists; so the result is as long as the
    longer of the two, and either source alone is returned as it is. *)
Theorem parseYaml_merges_by_position
    (path yamlStr : string) (fs ys : list NodeMatcher) :
  fileMatchers path fs ->
  stringMatchers yamlStr ys ->
  exists nms,
    parseYaml D path yamlStr [] = Ok nms
    /\ length nms = max (length fs) (length ys)
    /\ forall i, nms !! i = mergedAt (proto_Merge D) (fs !! i) (ys !! i).
Proof.
  intros Hf Hs. exists (mergeFrom (proto_Merge D) 0 ys fs). split; [|split].
  - unfold parseYaml.
    destruct (String.eqb_spec path EmptyString) as [Hp|Hp];
      destruct (String.eqb_spec yamlStr EmptyString) as [Hy|Hy]; simpl.
    + unfold fileMatchers in Hf. rewrite decide_True in Hf by done.
      unfold stringMatchers in Hs. rewrite decide_True in Hs by done.
      by subst.
    + unfold fileMatchers in Hf. rewrite decide_True in Hf by done. subst fs.
      by apply fromString_matchers.
    + rewrite (fromFile_matchers path fs [] Hp Hf). simpl.
      unfold stringMatchers in Hs. rewrite decide_True in Hs by done.
      by subst ys.
    + rewrite (fromFile_matchers path fs [] Hp Hf). simpl.
      by apply fromString_matchers.
  - rewrite mergeFrom_length by lia. lia.
  - intros i. rewrite mergeFrom_lookup by lia.
    rewrite decide_False by lia. by rewrite Nat.sub_0_r.
Qed.

End ParseYaml.

(** Decoders of a small example: the file request.yaml holds two node
    matchers, the string "inline" one, the string "bare" none and no
    key [node_matchers]. *)
Definition exampleDecoders : Decoders :=
  {| Abs := fun p => inr ("/" ++ p);
     ReadFile := fun f =>
       if String.eqb f "/request.yaml" then inr "file"
       else inl "no such file";
     YAMLToJSON := fun s => inr s;
     json_Unmarshal := fun s =>
       if String.eqb s "file"
       then inr [("node_matchers", Arr [Str "project"; Str "network"])]
       else if String.eqb s "inline"
       then inr [("node_matchers", Arr [Str "id"])]
       else if String.eqb s "bare" then inr []
       else inl "invalid character";
     isJson := fun _ => false;
     json_Marshal := fun v =>
       match v with Str s => inr s | _ => inl "unsupported" end;
     protojson_Unmarshal := fun s =>
       if String.eqb s "project"
       then inr {| NodeId := None;
                   NodeMetadatas :=
                     [projectMatcher (Some (StringMatch (Exact "123")))] |}
       else if String.eqb s "network"
       then inr {| NodeId := None; NodeMetadatas := [networkMatcher] |}
       else if String.eqb s "id"
       then inr {| NodeId := Some (Exact "node-1"); NodeMetadatas := [] |}
       else inl "unknown field";
     proto_Merge := fun a b =>
       {| NodeId := if NodeId b is Some x then Some x else NodeId a;
          NodeMetadatas := (NodeMetadatas a ++ NodeMetadatas b)%list |} |}.

Lemma parseYaml_merges_by_position_witness :
  exists nms,
    parseYaml exampleDecoders "request.yaml" "inline" [] = Ok nms
    /\ length nms = 2
    /\ nms !! 0
       = Some {| NodeId := Some (Exact "node-1");
                 NodeMetadatas :=
                   [projectMatcher (Some (StringMatch (Exact "123")))] |}.
Proof.
  destruct (parseYaml_merges_by_position exampleDecoders
              "request.yaml" "inline"
              [ {| NodeId := None;
                   NodeMetadatas :=
                     [projectMatcher (Some (StringMatch (Exact "123")))] |};
                {| NodeId := None; NodeMetadatas := [networkMatcher] |} ]
              [ {| NodeId := Some (Exact "node-1"); NodeMetadatas := [] |} ])
    as (nms & Hp & Hlen & Hat).
  - unfold fileMatchers. rewrite decide_False by done.
    eexists _, _, _, _, _. repeat split; try reflexivity.
    repeat constructor.
  - unfold stringMatchers. rewrite decide_False by done.
    eexists _, _, _. repeat split; try reflexivity.
    repeat constructor.
  - exists nms. split; [exact Hp|]. split; [exact Hlen|]. apply (Hat 0).
Defined.

(** ** Constructing a client *)

Definition projectKey : string := "TRAFFICDIRECTOR_GCP_PROJECT_NUMBER".
Definition networkKey : string := "TRAFFICDIRECTOR_NETWORK_NAME".

Definition newClient (nms : list NodeMatcher) (o : ClientOptions) : ClientV2 :=
  {| clientConn := None; nodeMatcher := nms; metadata := None; opts := o |}.

Lemma requireKeys_Ok nms :
  requireKeys nms [projectKey; networkKey] = Ok tt
  <-> getValueByKeyFromNodeMatcher nms projectKey <> EmptyString
      /\ getValueByKeyFromNodeMatcher nms networkKey <> EmptyString.
Proof.
  simpl.
  destruct (String.eqb_spec (getValueByKeyFromNodeMatcher nms projectKey)
              EmptyString) as [Hp|Hp];
    destruct (String.eqb_spec (getValueByKeyFromNodeMatcher nms networkKey)
                EmptyString) as [Hn|Hn]; split; try done; tauto.
Qed.

(** What is known of a client that [NewV2] returned. *)
Lemma NewV2_Ok_inv (D : Decoders) (o : ClientOptions) (c : ClientV2) :
  NewV2 D o = Ok c ->
  Platform o = "gcp"
  /\ ApiVersion o = "v2"
  /\ ~ (RequestFile o = EmptyString /\ RequestYaml o = EmptyString)
  /\ exists nms,
       parseYaml D (RequestFile o) (RequestYaml o) [] = Ok nms
       /\ getValueByKeyFromNodeMatcher nms projectKey <> EmptyString
       /\ getValueByKeyFromNodeMatcher nms networkKey <> EmptyString
       /\ c = newClient nms o.
Proof.
  unfold NewV2, parseNodeMatcher. cbn [opts nodeMatcher clientConn metadata].
  fold projectKey networkKey. intros H.
  destruct (String.eqb_spec (Platform o) "gcp") as [Hp|Hp];
    cbn [negb] in H; [|done].
  destruct (String.eqb_spec (ApiVersion o) "v2") as [Hv|Hv];
    cbn [negb] in H; [|done].
  destruct (String.eqb (RequestFile o) EmptyString
            && String.eqb (RequestYaml o) EmptyString) eqn:Hreq; [done|].
  destruct (parseYaml D (RequestFile o) (RequestYaml o) []) as [nms| |]
    eqn:Hy; [|done..].
  cbn [mbind outcome_bind Go.bind] in H.
  destruct (requireKeys nms [projectKey; networkKey]) as [[]| |] eqn:Hk;
    [|done..].
  cbn [mbind outcome_bind Go.bind] in H. injection H as <-.
  apply requireKeys_Ok in Hk as [Hpk Hnk].
  split; [done|]. split; [done|]. split.
  - intros [Hf Hyy]. rewrite Hf, Hyy in Hreq. done.
  - by exists nms.
Qed.

(** X21: [NewV2] returns a client exactly when the platform is gcp, the
    API version is v2, a request file or a request string is given, the
    request can be read, and its node matchers give a non-empty exact
    value for the project number and for the network name.  The client
    then holds these matchers and the options, and has neither a
    connection nor metadata yet. *)
Theorem NewV2_returns_client_iff
    (D : Decoders) (o : ClientOptions) (c : ClientV2) :
  NewV2 D o = Ok c
  <-> Platform o = "gcp"
      /\ ApiVersion o = "v2"
      /\ ~ (RequestFile o = EmptyString /\ RequestYaml o = EmptyString)
      /\ exists nms,
           parseYaml D (RequestFile o) (RequestYaml o) [] = Ok nms
           /\ getValueByKeyFromNodeMatcher nms projectKey <> EmptyString
           /\ getValueByKeyFromNodeMatcher nms networkKey <> EmptyString
           /\ c = newClient nms o.
Proof.
  split; [apply NewV2_Ok_inv|].
  intros (Hp & Hv & Hreq & nms & Hy & Hpk & Hnk & ->).
  unfold NewV2, parseNodeMatcher. cbn [opts nodeMatcher clientConn metadata].
  fold projectKey networkKey.
  rewrite Hp, Hv. cbn [String.eqb Ascii.eqb Bool.eqb negb].
  destruct (String.eqb_spec (RequestFile o) EmptyString) as [Hf|Hf];
    destruct (String.eqb_spec (RequestYaml o) EmptyString) as [Hyy|Hyy];
    cbn [andb]; [tauto|..].
  all: rewrite Hy; cbn [mbind outcome_bind Go.bind];
    rewrite (proj2 (requireKeys_Ok nms) (conj Hpk Hnk)); done.
Qed.

(** X22: a request string that decodes to a map without the array
    [node_matchers] is not reported as an error: the unchecked type
    assertion makes [NewV2] panic. *)
Theorem NewV2_without_node_matchers_panics
    (D : Decoders) (o : ClientOptions) (js : string) (data : object) :
  Platform o = "gcp" ->
  ApiVersion o = "v2" ->
  RequestFile o = EmptyString ->
  RequestYaml o <> EmptyString ->
  (if isJson D (RequestYaml o) then js = RequestYaml o
   else YAMLToJSON D (RequestYaml o) = inr js) ->
  json_Unmarshal D js = inr data ->
  (forall ns, index data "node_matchers" <> Arr ns) ->
  NewV2 D o = Panic.
Proof.
  intros Hp Hv Hf Hy Hjs Hu Hnm. unfold NewV2, parseNodeMatcher. simpl.
  rewrite Hp, Hv, Hf. simpl.
  destruct (String.eqb_spec (RequestYaml o) EmptyString) as [|_]; [done|].
  simpl. unfold parseYaml. simpl.
  destruct (String.eqb_spec (RequestYaml o) EmptyString) as [|_]; [done|].
  unfold fromString.
  assert ((if isJson D (RequestYaml o) then Ok (RequestYaml o)
           else try (YAMLToJSON D (RequestYaml o))) = Ok js) as ->.
  { destruct (isJson D (RequestYaml o)); [by subst|]. by rewrite Hjs. }
  simpl. rewrite Hu. simpl.
  destruct (index data "node_matchers") as [| | | |ns|]; try done.
  by destruct (Hnm ns).
Qed.

Definition exampleOptions (yaml : string) : ClientOptions :=
  {| Uri := "trafficdirector.googleapis.com:443"; Platform := "gcp";
     AuthnMode := "auto"; ApiVersion := "v2";
     RequestFile := "request.yaml"; RequestYaml := yaml;
     Jwt := EmptyString; MonitorInterval := 0 |}.

Definition bareOptions : ClientOptions :=
  {| Uri := "trafficdirector.googleapis.com:443"; Platform := "gcp";
     AuthnMode := "auto"; ApiVersion := "v2";
     RequestFile := EmptyString; RequestYaml := "bare";
     Jwt := EmptyString; MonitorInterval := 0 |}.

Lemma NewV2_without_node_matchers_panics_witness :
  NewV2 exampleDecoders bareOptions = Panic.
Proof.
  apply (NewV2_without_node_matchers_panics exampleDecoders bareOptions
           "bare" []); try reflexivity; done.
Defined.

(** ** Connecting *)

Definition trafficDirector : string := "trafficdirector.googleapis.com:443".

(** X23: a client made by [NewV2] that connects is dialled at the URI of
    its options, in one of the two modes.  In jwt mode a key file was
    given, the credentials are the service account of that file and no
    metadata is attached; in auto mode the credentials are the
    application default ones and, when the URI is Traffic Director's,
    the header x-goog-user-project carries the project number of the
    request. *)
Theorem connected_client
    (D : Decoders) (N : Network) (o : ClientOptions) (c c' : ClientV2) :
  NewV2 D o = Ok c ->
  connWithAuth N c = Ok c' ->
  nodeMatcher c' = nodeMatcher c
  /\ opts c' = o
  /\ ((AuthnMode o = "jwt" /\ Jwt o <> EmptyString
       /\ clientConn c'
          = Some {| target := Uri o;
                    perRPC := ServiceAccountFromFile (Jwt o) cloudPlatformScope |}
       /\ metadata c' = None)
      \/ (AuthnMode o = "auto"
          /\ clientConn c'
             = Some {| target := Uri o;
                       perRPC := ApplicationDefault cloudPlatformScope |}
          /\ (Uri o = trafficDirector ->
              getValueByKeyFromNodeMatcher (nodeMatcher c) projectKey
              <> EmptyString
              /\ metadata c'
                 = Some {["x-goog-user-project" :=
                            [getValueByKeyFromNodeMatcher (nodeMatcher c)
                               projectKey]]}))).
Proof.
  intros (Hp & _ & _ & nms & _ & Hpk & _ & ->)%NewV2_Ok_inv Hc.
  unfold connWithAuth in Hc. cbn [opts newClient nodeMatcher metadata] in Hc.
  rewrite Hp in Hc. cbn [String.eqb Ascii.eqb Bool.eqb] in Hc.
  destruct (String.eqb_spec (AuthnMode o) "jwt") as [Hj|Hj].
  - destruct (String.eqb_spec (Jwt o) EmptyString) as [|Hk]; [done|].
    destruct (SystemCertPool N); [done|].
    destruct (NewServiceAccountFromFile N (Jwt o) cloudPlatformScope);
      [done|].
    destruct (Dial N (Uri o) _); [done|].
    cbn in Hc. injection Hc as <-. split; [done|]. split; [done|].
    left. done.
  - destruct (String.eqb_spec (AuthnMode o) "auto") as [Ha|Ha]; [|done].
    destruct (SystemCertPool N); [done|].
    destruct (NewApplicationDefault N cloudPlatformScope); [done|].
    destruct (Dial N (Uri o) _); [done|].
    cbn [check mbind outcome_bind Go.bind] in Hc. injection Hc as <-.
    split; [done|]. split; [done|]. right. split; [done|]. split; [done|].
    intros Hu. split; [done|]. cbn [withConn metadata nodeMatcher newClient].
    rewrite Hu. unfold trafficDirector. cbn [String.eqb Ascii.eqb Bool.eqb].
    fold projectKey.
    by destruct (String.eqb_spec
                   (getValueByKeyFromNodeMatcher nms projectKey) EmptyString).
Qed.

(** A network on which every step succeeds. *)
Definition openNetwork : Network :=
  {| SystemCertPool := None;
     NewServiceAccountFromFile := fun _ _ => None;
     NewApplicationDefault := fun _ => None;
     Dial := fun _ _ => None |}.

Lemma connected_client_witness :
  exists c c',
    NewV2 exampleDecoders (exampleOptions "inline") = Ok c
    /\ connWithAuth openNetwork c = Ok c'
    /\ metadata c' = Some {["x-goog-user-project" := ["123"]]}.
Proof.
  eexists _, _. split; [reflexivity|]. split; [reflexivity|].
  destruct (connected_client exampleDecoders openNetwork
              (exampleOptions "inline") _ _ eq_refl eq_refl)
    as (_ & _ & [(Hj & _)|(_ & _ & Hmd)]).
  - discriminate Hj.
  - destruct (Hmd eq_refl) as [_ ->]. reflexivity.
Defined.

(** * Requests *)

(** ** client/clientV2.go: doRequest and Run *)

(** [strings.Contains(s, substr)] *)
Fixpoint Contains (s substr : string) : bool :=
  if String.prefix substr s then true
  else match s with
       | EmptyString => false
       | String _ s' => Contains s' substr
       end.

(** The error [Recv] returns: nil, [io.EOF] or another error. *)
Inductive recvError :=
| RecvNil
| RecvEOF
| RecvOther (err : error).

(** What a run does that can be observed from outside. *)
Inductive event :=
| Printed (o : output)
| Slept (d : Z)
| Opened
| SendClosed.

Section Requests.

Context {ConfigStatus CD LD RD SD : Type}.
Variable ConfigStatus_String : ConfigStatus -> string.
Variable printDetailedConfig :
  ClientStatusResponse ConfigStatus CD LD RD SD -> ClientOptions
  -> list output * outcome unit.

(** The service as the client meets it: the error of the [k]-th call of
    [StreamClientStatus], of the [Send] of the [n]-th request, what the
    [Recv] of the [n]-th request returns (a nil response is [None]), and
    the error of [CloseSend]. *)
Record Service := {
  StreamClientStatus : nat -> option error;
  Send : nat -> list NodeMatcher -> option error;
  Recv : nat -> option (ClientStatusResponse ConfigStatus CD LD RD SD)
                * recvError;
  CloseSend : option error
}.

Variable S : Service.

(** A nil response, through its nil-safe getter. *)
Definition orNil (resp : option (ClientStatusResponse ConfigStatus CD LD RD SD))
  : ClientStatusResponse ConfigStatus CD LD RD SD :=
  default {| GetConfig := None |} resp.

(** [(c *ClientV2) doRequest(stream)], for the [n]-th request of the
    run. *)
Definition doRequest (c : ClientV2) (n : nat) : list event * outcome unit :=
  match Send S n (nodeMatcher c) with
  | Some err => ([], Err err)
  | None =>
      let (resp, err) := Recv S n in
      match err with
      | RecvOther err => ([], Err err)
      | _ =>
          let (out, r) :=
            printOutResponse_v2 ConfigStatus_String printDetailedConfig
              (orNil resp) (opts c) in
          (map Printed out, r)
      end
  end.

(** The [for] loop of [Run], about to make request [n] after [k] streams
    were opened; [None] when the loop is still running after [fuel]
    requests. *)
Fixpoint runLoop (fuel : nat) (c : ClientV2) (n k : nat)
  : list event * option (outcome unit) :=
  match fuel with
  | O => ([], None)
  | Datatypes.S fuel' =>
      let (ev, r) := doRequest c n in
      match r with
      | Err err =>
          if Contains err "RpcSecurityPolicy" then
            match StreamClientStatus S k with
            | Some err => (ev, Some (Err err))
            | None =>
                let (ev', r') := runLoop fuel' c (Datatypes.S n) (Datatypes.S k) in
                ((ev ++ Opened :: ev')%list, r')
            end
          else (ev, Some (Err err))
      | Panic => (ev, Some Panic)
      | Ok _ =>
          if negb (Z.eqb (MonitorInterval (opts c)) 0) then
            let (ev', r') := runLoop fuel' c (Datatypes.S n) k in
            ((ev ++ Slept (MonitorInterval (opts c)) :: ev')%list, r')
          else
            match CloseSend S with
            | Some err => ((ev ++ [SendClosed])%list, Some (Err err))
            | None => ((ev ++ [SendClosed])%list, Some (Ok tt))
            end
      end
  end.

(** [(c *ClientV2) Run()] *)
Definition Run (fuel : nat) (N : Network) (c : ClientV2)
  : list event * option (outcome unit) :=
  match connWithAuth N c with
  | Err err => ([], Some (Err err))
  | Panic => ([], Some Panic)
  | Ok c =>
      match StreamClientStatus S 0 with
      | Some err => ([], Some (Err err))
      | None =>
          let (ev, r) := runLoop fuel c 0 1 in (Opened :: ev, r)
      end
  end.

End Requests.

(** ** Properties of the request loop *)

Definition isOpened (e : event) : bool :=
  match e with Opened => true | _ => false end.

Definition isSlept (e : event) : bool :=
  match e with Slept _ => true | _ => false end.

Definition noClients : output :=
  Printf ("No xDS clients connected." ++ newline) [].

Lemma filter_isOpened_nil (ev : list event) :
  Forall (fun e => isOpened e = false /\ isSlept e = false) ev ->
  filter (fun e => isOpened e = true) ev = [].
Proof.
  induction 1 as [|e ev [He _] _ IH]; [done|].
  rewrite filter_cons_False; [done|]. by rewrite He.
Qed.

Lemma connWithAuth_opts N c c' : connWithAuth N c = Ok c' -> opts c' = opts c.
Proof.
  unfold connWithAuth. intros H.
  repeat match type of H with
         | context [if ?b then _ else _] => destruct b
         | context [check ?r] => destruct r; cbn in H
         end; try discriminate H; by injection H as <-.
Qed.

Section RequestFacts.

Context {ConfigStatus CD LD RD SD : Type}.
Variable ConfigStatus_String : ConfigStatus -> string.
Variable printDetailedConfig :
  ClientStatusResponse ConfigStatus CD LD RD SD -> ClientOptions
  -> list output * outcome unit.
Variable S : Service (ConfigStatus := ConfigStatus) (CD := CD) (LD := LD)
               (RD := RD) (SD := SD).

Notation request := (doRequest ConfigStatus_String printDetailedConfig S).
Notation loop := (runLoop ConfigStatus_String printDetailedConfig S).
Notation run := (Run ConfigStatus_String printDetailedConfig S).

Lemma doRequest_events c n :
  Forall (fun e => isOpened e = false /\ isSlept e = false) (request c n).1.
Proof.
  unfold doRequest. destruct (Send S n (nodeMatcher c)); [done|].
  destruct (Recv S n) as [resp [| |err]]; try done.
  all: destruct (printOutResponse_v2 _ _ _ _) as [out r]; simpl;
    apply Forall_forall; intros e (o & -> & _)%list_elem_of_fmap; done.
Qed.

(** X24: at the end of the stream, when [Recv] returns a nil response
    with [io.EOF], the request is not an error: the summary of the nil
    response is printed, "No xDS clients connected.", and [doRequest]
    returns nil. *)
Theorem doRequest_end_of_stream (c : ClientV2) (n : nat) :
  Send S n (nodeMatcher c) = None ->
  Recv S n = (None, RecvEOF) ->
  request c n = ([Printed noClients], Ok tt).
Proof.
  intros Hs Hr. unfold doRequest. by rewrite Hs, Hr.
Qed.

(** X25: with a monitor interval the loop has no way out but a failure:
    however long it runs, [Run] never returns nil. *)
Theorem monitor_mode_never_returns_nil
    (N : Network) (c : ClientV2) (fuel : nat) :
  MonitorInterval (opts c) <> 0%Z ->
  (run fuel N c).2 <> Some (Ok tt).
Proof.
  intros Hm.
  assert (forall c fuel n k,
            MonitorInterval (opts c) <> 0%Z ->
            (loop fuel c n k).2 <> Some (Ok tt)) as Hloop.
  { clear. intros c fuel. induction fuel as [|fuel IH]; intros n k Hm; [done|].
    simpl. destruct (request c n) as [ev [[]|err|]]; simpl; [| |done].
    - destruct (Z.eqb_spec (MonitorInterval (opts c)) 0) as [|_]; [done|].
      simpl. specialize (IH (Datatypes.S n) k Hm).
      by destruct (loop fuel c (Datatypes.S n) k).
    - destruct (Contains err "RpcSecurityPolicy"); [|done].
      destruct (StreamClientStatus S k); [done|].
      specialize (IH (Datatypes.S n) (Datatypes.S k) Hm).
      by destruct (loop fuel c (Datatypes.S n) (Datatypes.S k)). }
  unfold Run.
  destruct (connWithAuth N c) as [c'| |] eqn:Hc; [|done..].
  destruct (StreamClientStatus S 0); [done|].
  apply connWithAuth_opts in Hc. rewrite <- Hc in Hm.
  specialize (Hloop c' fuel 0 1 Hm). by destruct (loop fuel c' 0 1).
Qed.

(** X26: without a monitor interval, requests that fail with an error
    mentioning RpcSecurityPolicy are retried at once on a freshly opened
    stream; the first request that succeeds ends the run with the result
    of [CloseSend], one more stream having been opened per retry and
    without any sleep. *)
Theorem one_shot_retries_policy_errors
    (c : ClientV2) (retries fuel n k : nat) :
  MonitorInterval (opts c) = 0%Z ->
  (forall i, i < retries ->
     exists err, (request c (n + i)).2 = Err err
                 /\ Contains err "RpcSecurityPolicy" = true
                 /\ StreamClientStatus S (k + i) = None) ->
  (request c (n + retries)).2 = Ok tt ->
  retries < fuel ->
  (loop fuel c n k).2
  = Some (match CloseSend S with Some err => Err err | None => Ok tt end)
  /\ length (filter (fun e => isOpened e = true) (loop fuel c n k).1)
     = retries
  /\ Forall (fun e => isSlept e = false) (loop fuel c n k).1.
Proof.
  intros Hm. revert fuel n k.
  induction retries as [|retries IH]; intros fuel n k Hfail Hok Hfuel.
  - destruct fuel as [|fuel]; [lia|]. simpl. rewrite Nat.add_0_r in Hok.
    pose proof (doRequest_events c n) as Hev.
    destruct (request c n) as [ev r]. simpl in *. subst r.
    rewrite Hm. simpl.
    assert (length (filter (fun e => isOpened e = true)
                      (ev ++ [SendClosed])%list) = 0
            /\ Forall (fun e => isSlept e = false) (ev ++ [SendClosed])%list)
      as [Hlen Hall].
    { rewrite filter_app, length_app. simpl. split.
      - by rewrite (filter_isOpened_nil ev Hev).
      - apply Forall_app. split; [|by repeat constructor].
        eapply Forall_impl; [exact Hev|]. by intros e [_ He]. }
    by destruct (CloseSend S).
  - destruct fuel as [|fuel]; [lia|]. simpl.
    destruct (Hfail 0 ltac:(lia)) as (err & Herr & Hc & Hs).
    rewrite Nat.add_0_r in Herr, Hs.
    pose proof (doRequest_events c n) as Hev.
    destruct (request c n) as [ev r]. simpl in *. subst r.
    rewrite Hc, Hs.
    destruct (IH fuel (Datatypes.S n) (Datatypes.S k)) as (Hr & Hlen & Hall).
    + intros i Hi. destruct (Hfail (Datatypes.S i) ltac:(lia))
        as (err' & H1 & H2 & H3).
      rewrite Nat.add_succ_r in H1, H3. by exists err'.
    + rewrite Nat.add_succ_r in Hok. exact Hok.
    + lia.
    + destruct (loop fuel c (Datatypes.S n) (Datatypes.S k)) as [ev' r'].
      simpl in *. split; [done|]. split.
      * rewrite filter_app, length_app. rewrite filter_cons_True by done.
        simpl. by rewrite Hlen, (filter_isOpened_nil ev Hev).
      * apply Forall_app. split.
        -- eapply Forall_impl; [exact Hev|]. by intros e [_ He].
        -- by constructor.
Qed.

End RequestFacts.

(** A service whose first two requests are refused by the security
    policy and whose stream then ends without a response. *)
Definition refusingService
  : Service (ConfigStatus := ConfigStatus_v2) (CD := unit) (LD := unit)
      (RD := unit) (SD := unit) :=
  {| StreamClientStatus := fun _ => None;
     Send := fun n _ =>
       if Nat.ltb n 2
       then Some "rpc error: code = PermissionDenied desc = RpcSecurityPolicy"
       else None;
     Recv := fun _ => (None, RecvEOF);
     CloseSend := None |}.

(** A detailed printer for clients with options. *)
Definition oneLineDetailV2
    (response : ClientStatusResponse ConfigStatus_v2 unit unit unit unit)
    (opts : ClientOptions) : list output * outcome unit :=
  ([Printf "detail" []], Ok tt).

Definition oneShotClient : ClientV2 := newClient [] (exampleOptions "inline").

Definition monitorClient : ClientV2 :=
  newClient []
    {| Uri := trafficDirector; Platform := "gcp"; AuthnMode := "auto";
       ApiVersion := "v2"; RequestFile := "request.yaml";
       RequestYaml := EmptyString; Jwt := EmptyString;
       MonitorInterval := 5000000000 |}.

Lemma doRequest_end_of_stream_witness :
  doRequest ConfigStatus_v2_String oneLineDetailV2 refusingService
    oneShotClient 2
  = ([Printed noClients], Ok tt).
Proof.
  apply (doRequest_end_of_stream ConfigStatus_v2_String oneLineDetailV2
           refusingService oneShotClient 2); reflexivity.
Defined.

Lemma monitor_mode_never_returns_nil_witness :
  exists r,
    (Run ConfigStatus_v2_String oneLineDetailV2 refusingService 4 openNetwork
       monitorClient).2 = r
    /\ r <> Some (Ok tt).
Proof.
  eexists. split; [reflexivity|].
  apply (monitor_mode_never_returns_nil ConfigStatus_v2_String oneLineDetailV2
           refusingService openNetwork monitorClient 4).
  discriminate.
Defined.

Lemma one_shot_retries_policy_errors_witness :
  (runLoop ConfigStatus_v2_String oneLineDetailV2 refusingService 3
     oneShotClient 0 1).2 = Some (Ok tt).
Proof.
  apply (one_shot_retries_policy_errors ConfigStatus_v2_String oneLineDetailV2
           refusingService oneShotClient 2 3 0 1).
  - reflexivity.
  - intros i Hi. eexists.
    destruct i as [|[|i]]; [repeat split; reflexivity..|lia].
  - reflexivity.
  - lia.
Defined.
